(** * Telemetry core of the Playwright test harness

A shallow embedding of [utils/Logger.ts] (class [Logger]) and of
[utils/PlaywrightTestListener.ts] (class [PlaywrightTestListener]),
with the properties of the specification stated and proved over it.

Conventions of the embedding:
- a JavaScript string is the list of its UTF-16 code units ([list N]);
- a [Date] is its time value in milliseconds ([Z]); [new Date()] is a
  reading of a clock that the model receives from outside;
- a JavaScript [Map] is an association list in insertion order, with
  [Map.prototype.set] overwriting in place;
- the static fields of [Logger] and the console and file sinks form one
  explicit state record that every method threads;
- a handler of the listener that can throw returns an [Outcome]: the
  state it leaves, and the error when it throws.  What [fs] answers about
  the output directory is read from the outside world, as the clock is. *)

From Stdlib Require Import String Ascii DecimalString.
From Stdlib Require Import List NArith ZArith Lia Bool.
Import ListNotations.

Local Open Scope N_scope.

(** ** JavaScript strings *)

Module Js.

Definition char16 := N.
Definition jsstring := list char16.

(** Code units of an ASCII literal. *)
Fixpoint lit (s : string) : jsstring :=
  match s with
  | EmptyString => []
  | String a r => N_of_ascii a :: lit r
  end.
Arguments lit s%_string.

Definition TAB : char16 := 0x9.
Definition LF : char16 := 0xA.
Definition CR : char16 := 0xD.
Definition SP : char16 := 0x20.

(** The class [\s] of a JavaScript regular expression, which is also what
    [String.prototype.trim] strips: WhiteSpace and LineTerminator. *)
Definition is_ws (c : char16) : bool :=
  ((0x9 <=? c) && (c <=? 0xD))
  || (c =? 0x20) || (c =? 0xA0) || (c =? 0x1680)
  || ((0x2000 <=? c) && (c <=? 0x200A))
  || (c =? 0x2028) || (c =? 0x2029) || (c =? 0x202F)
  || (c =? 0x205F) || (c =? 0x3000) || (c =? 0xFEFF).

Fixpoint trimStart (s : jsstring) : jsstring :=
  match s with
  | [] => []
  | c :: r => if is_ws c then trimStart r else s
  end.

Definition trimEnd (s : jsstring) : jsstring := rev (trimStart (rev s)).

(** [s.trim()] *)
Definition trim (s : jsstring) : jsstring := trimEnd (trimStart s).

(** [s.replace(/\r\n/g, ' ')]: matches are found left to right and do not
    overlap. *)
Fixpoint replace_crlf (s : jsstring) : jsstring :=
  match s with
  | [] => []
  | c :: r =>
      match r with
      | d :: r' =>
          if (c =? CR) && (d =? LF) then SP :: replace_crlf r'
          else c :: replace_crlf r
      | [] => [c]
      end
  end.

(** [s.replace(/a/g, ' ')] for a one-character pattern [a]. *)
Definition replace_char (a : char16) (s : jsstring) : jsstring :=
  map (fun c => if c =? a then SP else c) s.

(** [s.replace(/\s+/g, ' ')]: the scan emits one space when it enters a
    run of white space and skips the rest of the run. *)
Fixpoint collapse_from (in_run : bool) (s : jsstring) : jsstring :=
  match s with
  | [] => []
  | c :: r =>
      if is_ws c
      then (if in_run then collapse_from true r
            else SP :: collapse_from true r)
      else c :: collapse_from false r
  end.

Definition collapse_ws (s : jsstring) : jsstring := collapse_from false s.

(** [s.substring(0, n)]: a negative end is read as 0, an end beyond the
    length as the length. *)
Definition substring0 (n : Z) (s : jsstring) : jsstring :=
  firstn (Z.to_nat n) s.

(** [String(n)] for an integral number (of magnitude below 1e21, where
    JavaScript prints all the digits). *)
Definition of_Z (n : Z) : jsstring :=
  lit (NilZero.string_of_int (Z.to_int n)).

Definition of_nat (n : nat) : jsstring := of_Z (Z.of_nat n).

Definition eqb (a b : jsstring) : bool :=
  if list_eq_dec N.eq_dec a b then true else false.

End Js.

Import Js.

Arguments lit s%_string.
Arguments Js.eqb : simpl never.

(** ** The host environment

What the program obtains from the JavaScript runtime and from Node:
the system clock read by [new Date()], [Date.prototype.toISOString],
and the [fs] module.  [clock n] is what the reading number [n] of a
component returns; each state record counts its own readings, and the
properties hold for every clock.  [appendFileSync path line] either
succeeds with a new file-system state or throws; the thrown value is
represented by the text that
[error instanceof Error ? error.message : String(error)] yields for it.
[require_fs] tells whether [require('fs')] succeeds.

The directory that the listener writes to belongs to the tests and to
the other reporters as much as to the listener, so what [fs] answers
about it is a reading of the outside world, like the clock:
[existsSync path n] is the answer of [fs.existsSync(path)] at the moment
at which the component has taken [n] clock readings, and
[mkdirSync path n] is [None] when [fs.mkdirSync(path, { recursive: true })]
returns at that moment and the message of the error when it throws.  The
properties hold for every such world. *)

Class Host := {
  clock : nat -> Z;
  toISOString : Z -> jsstring;
  FileSystem : Type;
  appendFileSync : jsstring -> jsstring -> FileSystem -> FileSystem + jsstring;
  require_fs : bool;
  existsSync : jsstring -> nat -> bool;
  mkdirSync : jsstring -> nat -> option jsstring
}.

(** ** Logger.ts

The class [Logger]: its configuration, [normalizeMessage], the
formatting, the core method [log] with the four level methods, and the
buffer accessors.  The initialisation from the environment is one call
of [configure] and is covered by that method; [sshCommand], [step] and
[serviceStatus], compositions of [debug] and [info], follow the listener
under "Further methods of [Logger]". *)

Module Logger.

Inductive LogLevel := DEBUG | INFO | WARN | ERROR | SILENT.

(** The numeric values of the TypeScript enum. *)
Definition level_value (l : LogLevel) : Z :=
  match l with
  | DEBUG => 0 | INFO => 1 | WARN => 2 | ERROR => 3 | SILENT => 4
  end%Z.

Record LoggerConfig := {
  level : LogLevel;
  enableTimestamps : bool;
  enableColors : bool;
  enableFileLogging : bool;
  logFile : jsstring;
  maxLineLength : Z;
  context : jsstring
}.

(** [Partial<LoggerConfig>]: a field is present or absent. *)
Record PartialConfig := {
  p_level : option LogLevel;
  p_enableTimestamps : option bool;
  p_enableColors : option bool;
  p_enableFileLogging : option bool;
  p_logFile : option jsstring;
  p_maxLineLength : option Z;
  p_context : option jsstring
}.

(** The metadata argument is displayed nowhere and never inspected; the
    shapes below are those the type [LogMetadata] lists. *)
Inductive LogMetadata :=
| MetaRecord (fields : list (jsstring * jsstring))
| MetaError (msg : jsstring)
| MetaString (s : jsstring)
| MetaNumber (n : Z)
| MetaBoolean (b : bool)
| MetaNull.

Record LogEntry := {
  timestamp : Z;
  entry_level : LogLevel;
  message : jsstring;
  entry_context : jsstring;
  metadata : option LogMetadata
}.

Inductive ConsoleCall :=
| ConsoleLog (line : jsstring)
| ConsoleWarn (line : jsstring)
| ConsoleError (line : jsstring).

(** The initial value of [Logger.globalConfig]. *)
Definition defaultConfig : LoggerConfig := {|
  level := INFO;
  enableTimestamps := true;
  enableColors := true;
  enableFileLogging := false;
  logFile := lit "application.log";
  maxLineLength := 200;
  context := lit "APP"
|}.

(** [{ ...Logger.globalConfig, ...config }] *)
Definition merge (g : LoggerConfig) (c : PartialConfig) : LoggerConfig := {|
  level := match p_level c with Some v => v | None => level g end;
  enableTimestamps :=
    match p_enableTimestamps c with Some v => v | None => enableTimestamps g end;
  enableColors :=
    match p_enableColors c with Some v => v | None => enableColors g end;
  enableFileLogging :=
    match p_enableFileLogging c with Some v => v | None => enableFileLogging g end;
  logFile := match p_logFile c with Some v => v | None => logFile g end;
  maxLineLength :=
    match p_maxLineLength c with Some v => v | None => maxLineLength g end;
  context := match p_context c with Some v => v | None => context g end
|}.

(** [Logger.normalizeMessage], for an argument that is a string (the
    declared parameter type). *)
Definition normalizeMessage (cfg : LoggerConfig) (message : jsstring)
  : jsstring :=
  substring0 (maxLineLength cfg)
    (trim
      (collapse_ws
        (replace_char TAB
          (replace_char LF
            (replace_char CR
              (replace_crlf
                (trim message))))))).

Definition ESC : char16 := 0x1B.

Definition getColorCode (cfg : LoggerConfig) (l : LogLevel) : jsstring :=
  if negb (enableColors cfg) then []
  else match l with
       | DEBUG => ESC :: lit "[36m"
       | INFO => ESC :: lit "[32m"
       | WARN => ESC :: lit "[33m"
       | ERROR => ESC :: lit "[31m"
       | SILENT => []
       end.

Definition getResetCode (cfg : LoggerConfig) : jsstring :=
  if enableColors cfg then ESC :: lit "[0m" else [].

Definition getLevelIcon (l : LogLevel) : jsstring :=
  match l with
  | DEBUG => [0xD83D; 0xDD0D]
  | INFO => [0x2139; 0xFE0F]
  | WARN => [0x26A0; 0xFE0F]
  | ERROR => [0x274C]
  | SILENT => []
  end.

Definition getLevelName (l : LogLevel) : jsstring :=
  match l with
  | DEBUG => lit "DEBUG"
  | INFO => lit "INFO"
  | WARN => lit "WARN"
  | ERROR => lit "ERROR"
  | SILENT => lit "UNKNOWN"
  end.

(** [entry.context ? `[${entry.context}] ` : ''] *)
Definition context_tag (e : LogEntry) : jsstring :=
  match entry_context e with
  | [] => []
  | c => lit "[" ++ c ++ lit "] "
  end.

Section WithHost.
  Context {host : Host}.

(** The static fields of the class, the console and the file system. *)
Record State := {
  globalConfig : LoggerConfig;
  logBuffer : list LogEntry;
  fs : bool;
  ticks : nat;
  console : list ConsoleCall;
  disk : FileSystem
}.

Definition initial (d : FileSystem) : State := {|
  globalConfig := defaultConfig;
  logBuffer := [];
  fs := false;
  ticks := 0;
  console := [];
  disk := d
|}.

Definition set_globalConfig (c : LoggerConfig) (st : State) : State :=
  {| globalConfig := c; logBuffer := logBuffer st; fs := fs st;
     ticks := ticks st; console := console st; disk := disk st |}.

Definition set_logBuffer (b : list LogEntry) (st : State) : State :=
  {| globalConfig := globalConfig st; logBuffer := b; fs := fs st;
     ticks := ticks st; console := console st; disk := disk st |}.

Definition set_fs (b : bool) (st : State) : State :=
  {| globalConfig := globalConfig st; logBuffer := logBuffer st; fs := b;
     ticks := ticks st; console := console st; disk := disk st |}.

Definition set_disk (d : FileSystem) (st : State) : State :=
  {| globalConfig := globalConfig st; logBuffer := logBuffer st;
     fs := fs st; ticks := ticks st; console := console st; disk := d |}.

Definition console_call (c : ConsoleCall) (st : State) : State :=
  {| globalConfig := globalConfig st; logBuffer := logBuffer st;
     fs := fs st; ticks := ticks st; console := console st ++ [c];
     disk := disk st |}.

(** [new Date()] *)
Definition new_Date (st : State) : Z * State :=
  (clock (ticks st),
   {| globalConfig := globalConfig st; logBuffer := logBuffer st;
      fs := fs st; ticks := S (ticks st); console := console st;
      disk := disk st |}).

(** [Logger.configure] *)
Definition configure (config : PartialConfig) (st : State) : State :=
  let st := set_globalConfig (merge (globalConfig st) config) st in
  if enableFileLogging (globalConfig st) && negb (fs st) then
    if require_fs then set_fs true st
    else console_call
           (ConsoleWarn (lit "File system not available for logging")) st
  else st.

Definition formatMessage (cfg : LoggerConfig) (entry : LogEntry)
  : jsstring :=
  let timestamp :=
    if enableTimestamps cfg
    then lit "[" ++ toISOString (timestamp entry) ++ lit "] "
    else [] in
  let icon := getLevelIcon (entry_level entry) in
  let colorCode := getColorCode cfg (entry_level entry) in
  let resetCode := getResetCode cfg in
  let context := context_tag entry in
  timestamp ++ colorCode ++ icon ++ context ++ message entry ++ resetCode.

Definition fileLine (entry : LogEntry) : jsstring :=
  toISOString (timestamp entry) ++ lit " "
    ++ getLevelName (entry_level entry) ++ lit " "
    ++ context_tag entry ++ message entry ++ [LF].

(** [Logger.writeToFile] *)
Definition writeToFile (entry : LogEntry) (st : State) : State :=
  if negb (enableFileLogging (globalConfig st)) || negb (fs st) then st
  else
    match appendFileSync (logFile (globalConfig st)) (fileLine entry)
            (disk st) with
    | inl d => set_disk d st
    | inr err =>
        console_call
          (ConsoleError (lit "Failed to write log to file: " ++ err)) st
    end.

(** [Logger.prototype.log]; [this_context] is the field [context] of
    the instance. *)
Definition log (this_context : jsstring) (lvl : LogLevel)
    (msg : jsstring) (meta : option LogMetadata) (st : State) : State :=
  if (level_value lvl <? level_value (level (globalConfig st)))%Z then st
  else
    let (now, st) := new_Date st in
    let entry := {|
      timestamp := now;
      entry_level := lvl;
      message := normalizeMessage (globalConfig st) msg;
      entry_context := this_context;
      metadata := meta
    |} in
    let formattedMessage := formatMessage (globalConfig st) entry in
    let st := console_call (ConsoleLog formattedMessage) st in
    let st := writeToFile entry st in
    let pushed := logBuffer st ++ [entry] in
    if (1000 <? length pushed)%nat
    then set_logBuffer (tl pushed) st
    else set_logBuffer pushed st.

Definition debug this_context msg meta := log this_context DEBUG msg meta.
Definition info this_context msg meta := log this_context INFO msg meta.
Definition warn this_context msg meta := log this_context WARN msg meta.
Definition error this_context msg meta := log this_context ERROR msg meta.

(** [Array.prototype.slice(start)] for an integral [start]. *)
Definition slice_from {A} (start : Z) (l : list A) : list A :=
  let len := Z.of_nat (length l) in
  let k := if (start <? 0)%Z then Z.max (len + start) 0
           else Z.min start len in
  skipn (Z.to_nat k) l.

(** [Logger.getRecentLogs(count)]; the buffer is not part of the
    result's effect: the method returns a fresh array. *)
Definition getRecentLogs (count : Z) (st : State) : list LogEntry :=
  slice_from (- count) (logBuffer st).

(** [Logger.clearBuffer] *)
Definition clearBuffer (st : State) : State := set_logBuffer [] st.

End WithHost.

Inductive StepStatus := started | completed | failed.

Definition stepStatus_text (s : StepStatus) : jsstring :=
  match s with
  | started => lit "started"
  | completed => lit "completed"
  | failed => lit "failed"
  end.

(** The message that [Logger.prototype.step] hands to [info]; a duration
    that is absent or 0 is falsy and prints nothing. *)
Definition step_message (stepName : jsstring) (status : StepStatus)
    (duration : option Z) : jsstring :=
  let durationStr :=
    match duration with
    | Some d => if (d =? 0)%Z then [] else lit " (" ++ of_Z d ++ lit "ms)"
    | None => []
    end in
  let icon :=
    match status with
    | started => [0xD83D; 0xDD39]
    | completed => [0x2705]
    | failed => [0x274C]
    end in
  icon ++ lit " Step " ++ stepStatus_text status ++ lit ": " ++ stepName
    ++ durationStr.

End Logger.

(** ** JavaScript [Map] with string keys

Entries are kept in insertion order; [set] on a key that is present
overwrites its value where it stands. *)

Module JsMap.

Definition t (V : Type) := list (jsstring * V).

Fixpoint get {V} (k : jsstring) (m : t V) : option V :=
  match m with
  | [] => None
  | (k', v) :: r => if Js.eqb k' k then Some v else get k r
  end.

Fixpoint set {V} (k : jsstring) (v : V) (m : t V) : t V :=
  match m with
  | [] => [(k, v)]
  | (k', v') :: r =>
      if Js.eqb k' k then (k', v) :: r else (k', v') :: set k v r
  end.

Definition size {V} (m : t V) : nat := length m.

Definition entries {V} (m : t V) : list (jsstring * V) := m.

Definition keys {V} (m : t V) : list jsstring := map fst m.

End JsMap.

(** ** PlaywrightTestListener.ts *)

Module Listener.

(** *** The reporter API of Playwright, as far as the listener reads it *)

#[warnings="-register-all"]
Inductive Suite := mkSuite (title : jsstring) (suites : list Suite).

Definition suite_title (s : Suite) : jsstring :=
  match s with mkSuite t _ => t end.

Record TestCase := {
  parent_title : jsstring;   (* test.parent.title *)
  test_title : jsstring      (* test.title *)
}.

Inductive TestStatus := passed | failed | timedOut | skipped | interrupted.

Record TestError := { err_message : option jsstring }.

Record Attachment := { att_name : jsstring; att_path : option jsstring }.

Record TestResult := {
  result_status : TestStatus;
  result_error : option TestError;
  attachments : list Attachment
}.

Record TestStep := {
  ts_title : jsstring;
  ts_error : option TestError
}.

Record FullConfig := { projects_length : nat; workers : nat }.

Inductive FullStatus := run_passed | run_failed | run_timedout
                      | run_interrupted.

(** *** The listener's own data *)

Record TestListenerConfig := {
  cfg_outputDir : jsstring;
  enableConsoleLogging : bool;
  enableFileLogging : bool;
  enableScreenshots : bool;
  enableVideos : bool;
  enableTimestamps : bool;
  customReportName : jsstring
}.

Inductive StepInfoStatus := step_passed | step_failed | step_skipped.

Record TestStepInfo := {
  si_title : jsstring;
  si_startTime : Z;
  si_endTime : option Z;
  si_duration : option Z;
  si_status : StepInfoStatus;
  si_error : option jsstring
}.

Record TestExecutionContext := {
  tc_testName : jsstring;
  tc_suiteName : jsstring;
  tc_startTime : Z;
  tc_endTime : option Z;
  tc_duration : option Z;
  tc_status : TestStatus;
  tc_error : option jsstring;
  tc_screenshots : option (list jsstring);
  tc_videos : option (list jsstring);
  tc_steps : list TestStepInfo
}.

Record SuiteExecutionContext := {
  sc_suiteName : jsstring;
  sc_startTime : Z;
  sc_endTime : option Z;
  sc_duration : option Z;
  sc_tests : list TestExecutionContext;
  sc_passed : nat;
  sc_failed : nat;
  sc_skipped : nat;
  sc_total : nat
}.

(** A call [this.logger.info(message, metadata)].  The listener logs
    through [info] only ([Logger.prototype.step] is [info] applied to
    [Logger.step_message]). *)
Record InfoCall := {
  call_message : jsstring;
  call_metadata : option Logger.LogMetadata
}.

Definition defaultListenerConfig : TestListenerConfig := {|
  cfg_outputDir := lit "./test-results";
  enableConsoleLogging := true;
  enableFileLogging := true;
  enableScreenshots := true;
  enableVideos := true;
  enableTimestamps := true;
  customReportName := lit "test-execution-report"
|}.

(** The fields of a listener instance, the number of clock readings taken
    so far, and the calls made on [this.logger], oldest first. *)
Record State := {
  config : TestListenerConfig;
  outputDir : jsstring;
  executionContext : JsMap.t TestExecutionContext;
  suiteContext : JsMap.t SuiteExecutionContext;
  globalStartTime : option Z;
  globalEndTime : option Z;
  ticks : nat;
  logged : list InfoCall
}.

(** A handler returns, or throws after having changed the state. *)
Inductive Outcome :=
| Returned (st : State)
| Threw (st : State) (err : jsstring).

(** The state that a handler leaves, whether it returns or throws. *)
Definition state_of (o : Outcome) : State :=
  match o with
  | Returned st => st
  | Threw st _ => st
  end.

(** The state of an instance whose constructor has returned: the merged
    configuration and the field initialisers.  The constructor ends with
    [ensureOutputDirectory], which changes no field; see [construct]. *)
Definition create (cfg : TestListenerConfig) : State := {|
  config := cfg;
  outputDir := cfg_outputDir cfg;
  executionContext := [];
  suiteContext := [];
  globalStartTime := None;
  globalEndTime := None;
  ticks := 0;
  logged := []
|}.

Definition set_executionContext m (st : State) : State :=
  {| config := config st; outputDir := outputDir st;
     executionContext := m; suiteContext := suiteContext st;
     globalStartTime := globalStartTime st;
     globalEndTime := globalEndTime st;
     ticks := ticks st; logged := logged st |}.

Definition set_suiteContext m (st : State) : State :=
  {| config := config st; outputDir := outputDir st;
     executionContext := executionContext st; suiteContext := m;
     globalStartTime := globalStartTime st;
     globalEndTime := globalEndTime st;
     ticks := ticks st; logged := logged st |}.

Definition set_globalStartTime t (st : State) : State :=
  {| config := config st; outputDir := outputDir st;
     executionContext := executionContext st;
     suiteContext := suiteContext st;
     globalStartTime := t; globalEndTime := globalEndTime st;
     ticks := ticks st; logged := logged st |}.

Definition set_globalEndTime t (st : State) : State :=
  {| config := config st; outputDir := outputDir st;
     executionContext := executionContext st;
     suiteContext := suiteContext st;
     globalStartTime := globalStartTime st; globalEndTime := t;
     ticks := ticks st; logged := logged st |}.

(** [this.logger.info(message, metadata)] *)
Definition logger_info (msg : jsstring)
    (meta : option Logger.LogMetadata) (st : State) : State :=
  {| config := config st; outputDir := outputDir st;
     executionContext := executionContext st;
     suiteContext := suiteContext st;
     globalStartTime := globalStartTime st;
     globalEndTime := globalEndTime st;
     ticks := ticks st;
     logged := logged st ++ [{| call_message := msg;
                                call_metadata := meta |}] |}.

(** [this.logger.step(stepName, status, duration)] *)
Definition logger_step (stepName : jsstring) (status : Logger.StepStatus)
    (duration : option Z) (st : State) : State :=
  logger_info (Logger.step_message stepName status duration) None st.

(** *** Message texts *)

Definition bar_double : jsstring := repeat 0x2550 63.
Definition bar_single : jsstring := repeat 0x2500 63.
Definition ROCKET : jsstring := [0xD83D; 0xDE80].
Definition CHART : jsstring := [0xD83D; 0xDCCA].
Definition FOLDER : jsstring := [0xD83D; 0xDCC1].
Definition TEST_TUBE : jsstring := [0xD83E; 0xDDEA].
Definition FLAG : jsstring := [0xD83C; 0xDFC1].
Definition CLIPBOARD : jsstring := [0xD83D; 0xDCCB].
Definition CROSS : jsstring := [0x274C].

Definition getStatusIcon (s : TestStatus) : jsstring :=
  match s with
  | passed => [0x2705]
  | failed => [0x274C]
  | skipped => [0x23ED; 0xFE0F]
  | timedOut => [0x23F0]
  | interrupted => [0xD83D; 0xDEAB]
  end.

(** [`${m}`] for a value that is a string or [undefined]. *)
Definition show_optional (m : option jsstring) : jsstring :=
  match m with Some s => s | None => lit "undefined" end.

Definition error_text (e : TestError) : jsstring :=
  show_optional (err_message e).

Definition upper_status (s : FullStatus) : jsstring :=
  match s with
  | run_passed => lit "PASSED"
  | run_failed => lit "FAILED"
  | run_timedout => lit "TIMEDOUT"
  | run_interrupted => lit "INTERRUPTED"
  end.

Definition msg_suite_started (suiteName : jsstring) : jsstring :=
  CLIPBOARD ++ lit " Test suite started: " ++ suiteName.

Definition msg_test_started (test : TestCase) : jsstring :=
  TEST_TUBE ++ lit " Test started: " ++ parent_title test ++ lit " > "
    ++ test_title test.

Definition msg_test_completed (status : TestStatus) (test : TestCase)
    (duration : Z) : jsstring :=
  getStatusIcon status ++ lit " Test completed: " ++ parent_title test
    ++ lit " > " ++ test_title test ++ lit " (" ++ of_Z duration
    ++ lit "ms)".

Definition msg_grand_total (total p f s : nat) : jsstring :=
  CHART ++ lit " Grand Total: " ++ of_nat total ++ lit " tests - "
    ++ of_nat p ++ lit " passed, " ++ of_nat f ++ lit " failed, "
    ++ of_nat s ++ lit " skipped".

Definition msg_suite_completed (suiteName : jsstring) : jsstring :=
  CLIPBOARD ++ lit " Suite completed: " ++ suiteName.

Definition msg_suite_totals (c : SuiteExecutionContext) (duration : Z)
  : jsstring :=
  CHART ++ lit " Total: " ++ of_nat (sc_total c)
    ++ lit ", Passed: " ++ of_nat (sc_passed c)
    ++ lit ", Failed: " ++ of_nat (sc_failed c)
    ++ lit ", Skipped: " ++ of_nat (sc_skipped c)
    ++ lit ", Duration: " ++ of_Z duration ++ lit "ms".

Definition msg_suite_had_failed (n : nat) : jsstring :=
  CROSS ++ lit " Suite had " ++ of_nat n ++ lit " failed test(s)".

(** *** Handlers *)

(** [Array.prototype.find] is [List.find]; the object it returns is then
    mutated where it stands in the array. *)
Fixpoint update_first {A} (p : A -> bool) (f : A -> A) (l : list A)
  : list A :=
  match l with
  | [] => []
  | x :: r => if p x then f x :: r else x :: update_first p f r
  end.

(** A string is truthy when it is not empty. *)
Definition truthy (s : jsstring) : bool :=
  match s with [] => false | _ => true end.

(** [s || 'Root Suite'] *)
Definition or_root (s : jsstring) : jsstring :=
  if truthy s then s else lit "Root Suite".

Section WithHost.
  Context {host : Host}.

(** [new Date()] *)
Definition new_Date (st : State) : Z * State :=
  (clock (ticks st),
   {| config := config st; outputDir := outputDir st;
      executionContext := executionContext st;
      suiteContext := suiteContext st;
      globalStartTime := globalStartTime st;
      globalEndTime := globalEndTime st;
      ticks := S (ticks st); logged := logged st |}).

Definition getTestId (test : TestCase) : jsstring :=
  parent_title test ++ lit "::" ++ test_title test.

Definition onTestSuiteStart (suite : Suite) (st : State) : State :=
  let suiteName := or_root (suite_title suite) in
  let (now, st) := new_Date st in
  let suiteContext' := {|
    sc_suiteName := suiteName;
    sc_startTime := now;
    sc_endTime := None;
    sc_duration := None;
    sc_tests := [];
    sc_passed := 0;
    sc_failed := 0;
    sc_skipped := 0;
    sc_total := 0
  |} in
  let st :=
    set_suiteContext (JsMap.set suiteName suiteContext' (suiteContext st))
      st in
  let st := logger_info bar_single None st in
  logger_info (msg_suite_started suiteName) None st.

Fixpoint initializeSuites (suite : Suite) (st : State) : State :=
  match suite with
  | mkSuite title children =>
      let st := if truthy title then onTestSuiteStart suite st else st in
      fold_left (fun st childSuite => initializeSuites childSuite st)
        children st
  end.

(** [ensureOutputDirectory]: [fs.existsSync] does not throw,
    [fs.mkdirSync] may. *)
Definition ensureOutputDirectory (st : State) : Outcome :=
  if existsSync (outputDir st) (ticks st)
  then Returned st
  else
    match mkdirSync (outputDir st) (ticks st) with
    | None => Returned st
    | Some err => Threw st err
    end.

(** The constructor: the assignments of [create], then
    [ensureOutputDirectory]. *)
Definition construct (cfg : TestListenerConfig) : Outcome :=
  ensureOutputDirectory (create cfg).

Definition onBegin (config : FullConfig) (suite : Suite) (st : State)
  : Outcome :=
  let (now, st) := new_Date st in
  let st := set_globalStartTime (Some now) st in
  match ensureOutputDirectory st with
  | Threw st err => Threw st err
  | Returned st =>
      let st := logger_info bar_double None st in
      let st :=
        logger_info (ROCKET ++ lit " Test execution started") None st in
      let st :=
        logger_info
          (CHART ++ lit " Configuration: Projects="
             ++ of_nat (projects_length config) ++ lit ", Workers="
             ++ of_nat (workers config)) None st in
      let st :=
        logger_info (FOLDER ++ lit " Output directory: " ++ outputDir st)
          None st in
      let st := logger_info bar_double None st in
      Returned (initializeSuites suite st)
  end.

(** The hook [onTestStart] has an empty body. *)
Definition onTestStart (_test : TestCase) (st : State) : State := st.

Definition onTestBegin (test : TestCase) (st : State) : State :=
  let testId := getTestId test in
  let (now, st) := new_Date st in
  let context := {|
    tc_testName := test_title test;
    tc_suiteName := parent_title test;
    tc_startTime := now;
    tc_endTime := None;
    tc_duration := None;
    tc_status := passed;
    tc_error := None;
    tc_screenshots := None;
    tc_videos := None;
    tc_steps := []
  |} in
  let st :=
    set_executionContext (JsMap.set testId context (executionContext st))
      st in
  let st := logger_info (msg_test_started test) None st in
  onTestStart test st.

Definition with_steps (steps : list TestStepInfo)
    (c : TestExecutionContext) : TestExecutionContext :=
  {| tc_testName := tc_testName c; tc_suiteName := tc_suiteName c;
     tc_startTime := tc_startTime c; tc_endTime := tc_endTime c;
     tc_duration := tc_duration c; tc_status := tc_status c;
     tc_error := tc_error c; tc_screenshots := tc_screenshots c;
     tc_videos := tc_videos c; tc_steps := steps |}.

Definition onStepBegin (test : TestCase) (result : TestResult)
    (step : TestStep) (st : State) : State :=
  let testId := getTestId test in
  match JsMap.get testId (executionContext st) with
  | Some context =>
      let (now, st) := new_Date st in
      let stepInfo := {|
        si_title := ts_title step;
        si_startTime := now;
        si_endTime := None;
        si_duration := None;
        si_status := step_passed;
        si_error := None
      |} in
      let st :=
        set_executionContext
          (JsMap.set testId
             (with_steps (tc_steps context ++ [stepInfo]) context)
             (executionContext st)) st in
      logger_step (ts_title step) Logger.started None st
  | None => st
  end.

(** [s => s.title === step.title && !s.endTime] *)
Definition open_with_title (title : jsstring) (s : TestStepInfo) : bool :=
  Js.eqb (si_title s) title
  && match si_endTime s with None => true | Some _ => false end.

(** The assignments of [onStepEnd] to the step it has found. *)
Definition end_step (now : Z) (err : option TestError)
    (stepInfo : TestStepInfo) : TestStepInfo :=
  {| si_title := si_title stepInfo;
     si_startTime := si_startTime stepInfo;
     si_endTime := Some now;
     si_duration := Some (now - si_startTime stepInfo)%Z;
     si_status := match err with Some _ => step_failed
                               | None => step_passed end;
     si_error := match err with
                 | Some e => err_message e
                 | None => si_error stepInfo
                 end |}.

Definition onStepEnd (test : TestCase) (result : TestResult)
    (step : TestStep) (st : State) : State :=
  let testId := getTestId test in
  match JsMap.get testId (executionContext st) with
  | Some context =>
      match find (open_with_title (ts_title step)) (tc_steps context) with
      | Some found =>
          let (now, st) := new_Date st in
          let stepInfo := end_step now (ts_error step) found in
          let steps :=
            update_first (open_with_title (ts_title step))
              (fun _ => stepInfo) (tc_steps context) in
          let st :=
            set_executionContext
              (JsMap.set testId (with_steps steps context)
                 (executionContext st)) st in
          let status :=
            match si_status stepInfo with
            | step_passed => Logger.completed
            | _ => Logger.failed
            end in
          logger_step (ts_title step) status (si_duration stepInfo) st
      | None => st
      end
  | None => st
  end.

(** [attachments.filter(a => a.name === kind).map(a => a.path || '')] *)
Definition attachment_paths (kind : jsstring) (l : list Attachment)
  : list jsstring :=
  map (fun a => match att_path a with Some p => p | None => [] end)
    (filter (fun a => Js.eqb (att_name a) kind) l).

(** The increments of [onTestFinish] on the suite it has found. *)
Definition count_test (status : TestStatus) (c : SuiteExecutionContext)
  : SuiteExecutionContext :=
  let total := S (sc_total c) in
  match status with
  | passed =>
      {| sc_suiteName := sc_suiteName c;
         sc_startTime := sc_startTime c; sc_endTime := sc_endTime c;
         sc_duration := sc_duration c; sc_tests := sc_tests c;
         sc_passed := S (sc_passed c); sc_failed := sc_failed c;
         sc_skipped := sc_skipped c; sc_total := total |}
  | failed | timedOut | interrupted =>
      {| sc_suiteName := sc_suiteName c;
         sc_startTime := sc_startTime c; sc_endTime := sc_endTime c;
         sc_duration := sc_duration c; sc_tests := sc_tests c;
         sc_passed := sc_passed c; sc_failed := S (sc_failed c);
         sc_skipped := sc_skipped c; sc_total := total |}
  | skipped =>
      {| sc_suiteName := sc_suiteName c;
         sc_startTime := sc_startTime c; sc_endTime := sc_endTime c;
         sc_duration := sc_duration c; sc_tests := sc_tests c;
         sc_passed := sc_passed c; sc_failed := sc_failed c;
         sc_skipped := S (sc_skipped c); sc_total := total |}
  end.

Definition onTestFinish (_test : TestCase) (result : TestResult)
    (st : State) : State :=
  let suiteName := or_root (parent_title _test) in
  match JsMap.get suiteName (suiteContext st) with
  | Some suiteContext' =>
      set_suiteContext
        (JsMap.set suiteName
           (count_test (result_status result) suiteContext')
           (suiteContext st)) st
  | None => st
  end.

Definition onTestEnd (test : TestCase) (result : TestResult) (st : State)
  : State :=
  let testId := getTestId test in
  let st :=
    match JsMap.get testId (executionContext st) with
    | Some context =>
        let (now, st) := new_Date st in
        let duration := (now - tc_startTime context)%Z in
        let context' := {|
          tc_testName := tc_testName context;
          tc_suiteName := tc_suiteName context;
          tc_startTime := tc_startTime context;
          tc_endTime := Some now;
          tc_duration := Some duration;
          tc_status := result_status result;
          tc_error := match result_error result with
                      | Some e => err_message e
                      | None => tc_error context
                      end;
          tc_screenshots :=
            if enableScreenshots (config st)
            then Some (attachment_paths (lit "screenshot")
                         (attachments result))
            else tc_screenshots context;
          tc_videos :=
            if enableVideos (config st)
            then Some (attachment_paths (lit "video") (attachments result))
            else tc_videos context;
          tc_steps := tc_steps context
        |} in
        let st :=
          set_executionContext
            (JsMap.set testId context' (executionContext st)) st in
        let st :=
          logger_info
            (msg_test_completed (result_status result) test duration)
            None st in
        match result_error result with
        | Some e =>
            logger_info (lit "   Error: " ++ error_text e)
              (Some (Logger.MetaString (lit "error"))) st
        | None => st
        end
    | None => st
    end in
  onTestFinish test result st.

(** The sums that [onEnd] accumulates over [suiteContext.entries()]:
    tests, passed, failed, skipped. *)
Definition grandTotals (m : JsMap.t SuiteExecutionContext)
  : nat * nat * nat * nat :=
  fold_left
    (fun acc entry =>
       let '(totalTests, totalPassed, totalFailed, totalSkipped) := acc in
       let context := snd entry in
       (totalTests + sc_total context, totalPassed + sc_passed context,
        totalFailed + sc_failed context,
        totalSkipped + sc_skipped context)%nat)
    (JsMap.entries m) (0, 0, 0, 0)%nat.

(** The body of the loop of [onTestSuiteFinish]; the object it changes
    is the one the map holds under [suiteName]. *)
Definition summarize_suite (entry : jsstring * SuiteExecutionContext)
    (st : State) : State :=
  let (suiteName, context) := entry in
  let (now, st) := new_Date st in
  let duration := (now - sc_startTime context)%Z in
  let context :=
    {| sc_suiteName := sc_suiteName context;
       sc_startTime := sc_startTime context;
       sc_endTime := Some now;
       sc_duration := Some duration;
       sc_tests := sc_tests context;
       sc_passed := sc_passed context; sc_failed := sc_failed context;
       sc_skipped := sc_skipped context; sc_total := sc_total context |} in
  let st :=
    set_suiteContext (JsMap.set suiteName context (suiteContext st)) st in
  let st := logger_info (msg_suite_completed suiteName) None st in
  let st := logger_info (msg_suite_totals context duration) None st in
  let st :=
    if (0 <? sc_failed context)%nat
    then logger_info (msg_suite_had_failed (sc_failed context))
           (Some (Logger.MetaString (lit "warn"))) st
    else st in
  logger_info [] None st.

Definition onTestSuiteFinish (st : State) : State :=
  if (JsMap.size (suiteContext st) =? 0)%nat
  then logger_info (CLIPBOARD ++ lit " No test suites found") None st
  else
    let suitesWithTests :=
      filter (fun entry => (0 <? sc_total (snd entry))%nat)
        (JsMap.entries (suiteContext st)) in
    if (length suitesWithTests =? 0)%nat
    then logger_info (CLIPBOARD ++ lit " No suites with tests found")
           None st
    else
      let st :=
        logger_info (CLIPBOARD ++ lit " Test Suite Summary:") None st in
      let st := logger_info bar_single None st in
      fold_left (fun st entry => summarize_suite entry st)
        suitesWithTests st.

Definition onEnd (result : FullStatus) (st : State) : Outcome :=
  let (now, st) := new_Date st in
  let st := set_globalEndTime (Some now) st in
  match globalStartTime st with
  | None =>
      Threw st
        (lit "Cannot read properties of undefined (reading 'getTime')")
  | Some start =>
      let totalDuration := (now - start)%Z in
      let st := logger_info bar_double None st in
      let st :=
        logger_info
          (FLAG ++ lit " Test execution completed in "
             ++ of_Z totalDuration ++ lit "ms") None st in
      let st :=
        logger_info
          (CHART ++ lit " Overall Results: " ++ upper_status result)
          None st in
      let '(totalTests, totalPassed, totalFailed, totalSkipped) :=
        grandTotals (suiteContext st) in
      let st :=
        if (0 <? totalTests)%nat
        then logger_info
               (msg_grand_total totalTests totalPassed totalFailed
                  totalSkipped) None st
        else st in
      let st := logger_info bar_double None st in
      Returned (onTestSuiteFinish st)
  end.

(** *** The event stream of the runner *)

Inductive Event :=
| EvBegin (config : FullConfig) (suite : Suite)
| EvTestBegin (test : TestCase)
| EvStepBegin (test : TestCase) (result : TestResult) (step : TestStep)
| EvStepEnd (test : TestCase) (result : TestResult) (step : TestStep)
| EvTestEnd (test : TestCase) (result : TestResult)
| EvEnd (result : FullStatus).

Definition handle (e : Event) (st : State) : Outcome :=
  match e with
  | EvBegin config suite => onBegin config suite st
  | EvTestBegin test => Returned (onTestBegin test st)
  | EvStepBegin test result step =>
      Returned (onStepBegin test result step st)
  | EvStepEnd test result step =>
      Returned (onStepEnd test result step st)
  | EvTestEnd test result => Returned (onTestEnd test result st)
  | EvEnd result => onEnd result st
  end.

(** The events are delivered in order; delivery stops at the first
    handler that throws. *)
Fixpoint run (events : list Event) (st : State) : Outcome :=
  match events with
  | [] => Returned st
  | e :: rest =>
      match handle e st with
      | Returned st' => run rest st'
      | Threw st' err => Threw st' err
      end
  end.

End WithHost.

End Listener.

(** * Vocabulary of the properties *)

Import Logger.

(** A host for concrete runs: the clock advances by 10 ms per reading, the
    file system is trivial and never fails, the output directory is
    there. *)
Definition sampleHost : Host := {|
  clock := fun n => Z.of_nat (10 * n);
  toISOString := fun t => lit "T" ++ of_Z t;
  FileSystem := unit;
  appendFileSync := fun _ _ d => inl d;
  require_fs := true;
  existsSync := fun _ _ => true;
  mkdirSync := fun _ _ => None
|}.



(** The only white space left is U+0020. *)
Definition only_plain_spaces (s : jsstring) : Prop :=
  Forall (fun c => is_ws c = true -> c = SP) s.

Definition no_double_space (s : jsstring) : Prop :=
  forall p q, s <> p ++ SP :: SP :: q.

(** Every white-space character is a space and no two white-space
    characters are adjacent. *)
Fixpoint tidy (s : jsstring) : bool :=
  match s with
  | [] => true
  | c :: r =>
      (negb (is_ws c) || (c =? SP))
      && match r with
         | d :: _ => negb (is_ws c && is_ws d)
         | [] => true
         end
      && tidy r
  end.

Definition head_not_ws (s : jsstring) : bool :=
  match s with
  | c :: _ => negb (is_ws c)
  | [] => true
  end.


(** 199 letters, a space and one more letter: 201 code units, one more
    than the default line length allows after the space. *)
Definition long_line : jsstring := repeat 0x61 199 ++ lit " b".

(** ** Sequences of logger operations *)

Section LoggerRuns.
  Context {host : Host}.

(** A call of [debug], [info], [warn] or [error] on an instance. *)
Record LogCall := {
  call_context : jsstring;
  call_level : LogLevel;
  call_msg : jsstring;
  call_meta : option LogMetadata
}.

Definition do_call (c : LogCall) (st : Logger.State) : Logger.State :=
  log (call_context c) (call_level c) (call_msg c) (call_meta c) st.

Definition run_calls (cs : list LogCall) (st : Logger.State)
  : Logger.State :=
  fold_left (fun st c => do_call c st) cs st.

(** The lines that [console.log] has printed. *)
Definition console_lines (st : Logger.State) : list jsstring :=
  flat_map (fun c => match c with ConsoleLog l => [l] | _ => [] end)
    (console st).

(** The level passes the threshold of the configuration. *)
Definition passes (cfg : LoggerConfig) (lvl : LogLevel) : bool :=
  (level_value (level cfg) <=? level_value lvl)%Z.

(** The entry that a call is expected to leave, when the clock has been
    read [t] times before. *)
Definition entry_of (cfg : LoggerConfig) (t : nat) (c : LogCall)
  : LogEntry :=
  {| timestamp := clock t;
     entry_level := call_level c;
     message := normalizeMessage cfg (call_msg c);
     entry_context := call_context c;
     metadata := call_meta c |}.

Fixpoint entries_from (cfg : LoggerConfig) (t : nat) (cs : list LogCall)
  : list LogEntry :=
  match cs with
  | [] => []
  | c :: r =>
      if passes cfg (call_level c)
      then entry_of cfg t c :: entries_from cfg (S t) r
      else entries_from cfg t r
  end.

(** The last [n] elements of a list. *)
Definition lastn {A} (n : nat) (l : list A) : list A :=
  skipn (length l - n) l.

(** The buffer after [push] and the conditional [shift]. *)
Definition push_evict (e : LogEntry) (b : list LogEntry) : list LogEntry :=
  if (1000 <? length (b ++ [e]))%nat then tl (b ++ [e]) else b ++ [e].

(** The public operations on the static state of the logger. *)
Inductive Op :=
| OpConfigure (config : PartialConfig)
| OpLog (c : LogCall)
| OpGetRecentLogs (count : Z)
| OpClearBuffer.

Definition apply_op (op : Op) (st : Logger.State) : Logger.State :=
  match op with
  | OpConfigure config => configure config st
  | OpLog c => do_call c st
  | OpGetRecentLogs _ => st
  | OpClearBuffer => clearBuffer st
  end.

Definition run_ops (ops : list Op) (st : Logger.State) : Logger.State :=
  fold_left (fun st op => apply_op op st) ops st.

End LoggerRuns.

(** [Logger.configure({ level: LogLevel.WARN })] *)
Definition only_level (l : LogLevel) : PartialConfig := {|
  p_level := Some l;
  p_enableTimestamps := None;
  p_enableColors := None;
  p_enableFileLogging := None;
  p_logFile := None;
  p_maxLineLength := None;
  p_context := None
|}.

(** The logger of the scenario: fresh, then configured to level WARN. *)
Definition warn_only : @Logger.State sampleHost :=
  @configure sampleHost (only_level WARN) (@initial sampleHost tt).

(** [info("entry 1")], ..., [info("entry 1001")] on one instance. *)
Definition thousand_and_one_calls : list LogCall :=
  map (fun i => {| call_context := lit "Ring"; call_level := INFO;
                   call_msg := lit "entry " ++ of_nat i;
                   call_meta := None |})
    (seq 1 1001).

(** ** Vocabulary for the listener *)

Section ListenerVocabulary.
  Import Listener.

(** The text ['Root Suite'] that [onTestSuiteStart] and [onTestFinish]
    substitute for an empty title. *)
Definition ROOT_SUITE : jsstring := lit "Root Suite".

(** The four counters of a suite: total, passed, failed, skipped. *)
Definition counters (c : SuiteExecutionContext) : nat * nat * nat * nat :=
  (sc_total c, sc_passed c, sc_failed c, sc_skipped c).

Definition counters_of (name : jsstring)
    (m : JsMap.t SuiteExecutionContext) : option (nat * nat * nat * nat) :=
  option_map counters (JsMap.get name m).

(** The bucket that a final status is counted in: exactly one of passed,
    failed, skipped goes up by one, and so does the total. *)
Definition bucketed (status : TestStatus) (before : nat * nat * nat * nat)
  : nat * nat * nat * nat :=
  let '(total, p, f, s) := before in
  match status with
  | passed => (S total, S p, f, s)
  | failed | timedOut | interrupted => (S total, p, S f, s)
  | skipped => (S total, p, f, S s)
  end.

(** The titles of a suite and of all the suites below it. *)
Fixpoint titles (s : Suite) : list jsstring :=
  match s with
  | mkSuite t children => t :: flat_map titles children
  end.

(** The titles of the suite trees that [onBegin] has been given. *)
Definition begun_titles (events : list Event) : list jsstring :=
  flat_map (fun e => match e with
                     | EvBegin _ suite => titles suite
                     | _ => []
                     end) events.

Definition one_project : FullConfig :=
  {| projects_length := 1; workers := 1 |}.

Definition passed_result : TestResult :=
  {| result_status := passed; result_error := None; attachments := [] |}.

(** A describe block "Login" and a test "A" in it. *)
Definition login_tree : Suite := mkSuite [] [mkSuite (lit "Login") []].
Definition login_A : TestCase :=
  {| parent_title := lit "Login"; test_title := lit "A" |}.

(** A describe block that happens to be called "Root Suite", and a test
    attached to a suite without title. *)
Definition named_root_tree : Suite :=
  mkSuite [] [mkSuite (lit "Root Suite") []].
Definition untitled_parent_test : TestCase :=
  {| parent_title := []; test_title := lit "smoke" |}.

End ListenerVocabulary.

(** ** Vocabulary for steps and for the suite summary *)

Section StepVocabulary.
Import Listener.

(** The discipline the specification words: among the steps recorded for a
    test, in the order they were begun, the one that an end event closes
    is an open step with the title after which no open step with that
    title was begun. *)
Definition ends_latest_open (title : jsstring)
    (steps steps' : list TestStepInfo) : Prop :=
  exists before found after closed,
    steps = before ++ found :: after
    /\ open_with_title title found = true
    /\ (forall s, In s after -> open_with_title title s = false)
    /\ steps' = before ++ closed :: after
    /\ si_endTime closed <> None.

Definition fill_step : TestStep :=
  {| ts_title := lit "fill"; ts_error := None |}.

(** [testBegin], then two [stepBegin] with the title "fill". *)
Definition two_open_fill_steps : list Event :=
  [EvTestBegin login_A;
   EvStepBegin login_A passed_result fill_step;
   EvStepBegin login_A passed_result fill_step].

Definition steps_of (test : TestCase) (st : Listener.State)
  : list TestStepInfo :=
  match JsMap.get (@getTestId test) (executionContext st) with
  | Some context => tc_steps context
  | None => []
  end.

End StepVocabulary.

Section SummaryVocabulary.
Context {host : Host}.
Import Listener.

Definition info_call (msg : jsstring) : InfoCall :=
  {| call_message := msg; call_metadata := None |}.

(** The lines of the summary, written out as they are to read in the
    log.  The line that opens the block of a suite: *)
Definition completed_line (name : jsstring) : InfoCall :=
  info_call ([0xD83D; 0xDCCB] ++ lit " Suite completed: " ++ name).

(** The line with the counters of the suite and its duration: *)
Definition totals_line (c : SuiteExecutionContext) (duration : Z)
  : InfoCall :=
  info_call
    ([0xD83D; 0xDCCA] ++ lit " Total: " ++ of_nat (sc_total c)
       ++ lit ", Passed: " ++ of_nat (sc_passed c)
       ++ lit ", Failed: " ++ of_nat (sc_failed c)
       ++ lit ", Skipped: " ++ of_nat (sc_skipped c)
       ++ lit ", Duration: " ++ of_Z duration ++ lit "ms").

(** The line that warns of failures and notes their number: an [info]
    call whose metadata is the string ['warn']. *)
Definition failure_warning (n : nat) : InfoCall :=
  {| call_message :=
       [0x274C] ++ lit " Suite had " ++ of_nat n ++ lit " failed test(s)";
     call_metadata := Some (MetaString (lit "warn")) |}.

(** A call that carries the metadata ['warn']. *)
Definition is_warning (call : InfoCall) : bool :=
  match call_metadata call with
  | Some (MetaString m) => Js.eqb m (lit "warn")
  | _ => false
  end.

(** The block of one suite in the summary: its name, its totals, the
    warning when it has failures, and a blank line. *)
Definition suite_block (name : jsstring) (c : SuiteExecutionContext)
    (duration : Z) : list InfoCall :=
  [completed_line name; totals_line c duration]
    ++ (if (0 <? sc_failed c)%nat then [failure_warning (sc_failed c)]
        else [])
    ++ [info_call []].

(** The blocks of a list of suites, the first of which ends at the clock
    reading number [t]. *)
Fixpoint summary_blocks (t : nat)
    (l : list (jsstring * SuiteExecutionContext)) : list InfoCall :=
  match l with
  | [] => []
  | (name, c) :: r =>
      suite_block name c (clock t - sc_startTime c)%Z
        ++ summary_blocks (S t) r
  end.

(** The suites that have counted a test, and the suites that have
    counted a failure. *)
Definition with_tests (l : list (jsstring * SuiteExecutionContext))
  : list (jsstring * SuiteExecutionContext) :=
  filter (fun entry => (0 <? sc_total (snd entry))%nat) l.

Definition with_failures (l : list (jsstring * SuiteExecutionContext))
  : list (jsstring * SuiteExecutionContext) :=
  filter (fun entry => (0 <? sc_failed (snd entry))%nat) l.

(** The whole summary of the suites [l], the first block of which ends at
    the clock reading number [t]: one line when there is no suite or no
    suite with a test, and otherwise a heading, a rule and the blocks of
    the suites that have tests, in the order of the map. *)
Definition summary_of (t : nat)
    (l : list (jsstring * SuiteExecutionContext)) : list InfoCall :=
  match l with
  | [] => [info_call ([0xD83D; 0xDCCB] ++ lit " No test suites found")]
  | _ :: _ =>
      match with_tests l with
      | [] =>
          [info_call
             ([0xD83D; 0xDCCB] ++ lit " No suites with tests found")]
      | shown =>
          [info_call ([0xD83D; 0xDCCB] ++ lit " Test Suite Summary:");
           info_call (repeat 0x2500 63)]
            ++ summary_blocks t shown
      end
  end.

(** A login suite with one failed test out of two, and a suite that has
    run nothing. *)
Definition summary_sample : Listener.State :=
  set_suiteContext
    [(lit "Login",
      {| sc_suiteName := lit "Login"; sc_startTime := 0;
         sc_endTime := None; sc_duration := None; sc_tests := [];
         sc_passed := 1; sc_failed := 1; sc_skipped := 0; sc_total := 2 |});
     (lit "Empty",
      {| sc_suiteName := lit "Empty"; sc_startTime := 5;
         sc_endTime := None; sc_duration := None; sc_tests := [];
         sc_passed := 0; sc_failed := 0; sc_skipped := 0; sc_total := 0 |})]
    (create defaultListenerConfig).

End SummaryVocabulary.

Section CountingVocabulary.
Import Listener.

(** [onBegin] with the tree of "Login", then [testBegin] of its test "A". *)
Definition login_A_begun : Listener.State :=
  @onTestBegin sampleHost login_A
    (state_of (@onBegin sampleHost one_project login_tree
       (create defaultListenerConfig))).

Definition timed_out_result : TestResult :=
  {| result_status := timedOut;
     result_error := Some {| err_message := Some (lit "Test timeout") |};
     attachments := [] |}.

End CountingVocabulary.

(** ** Vocabulary for further properties of [normalizeMessage] *)

(** The characters of a string that are not white space, in order. *)
Definition non_ws (s : jsstring) : jsstring :=
  filter (fun c => negb (is_ws c)) s.

(** The steps of [normalizeMessage] before the truncation. *)
Definition squeezed (s : jsstring) : jsstring :=
  trim (collapse_ws (replace_char TAB (replace_char LF (replace_char CR
    (replace_crlf (trim s)))))).

(** ** Further methods of [Logger] *)

Section LoggerMethods.
Context {host : Host}.

(** [Logger.prototype.sshCommand]; [result] is absent or holds the two
    streams. *)
Definition sshCommand (this_context command : jsstring)
    (result : option (jsstring * jsstring)) (st : Logger.State)
  : Logger.State :=
  let st := debug this_context (lit "SSH Command: " ++ command) None st in
  match result with
  | Some (stdout, stderr) =>
      let st :=
        if Listener.truthy stdout
        then debug this_context
               (lit "SSH stdout: " ++ normalizeMessage (globalConfig st) stdout)
               None st
        else st in
      if Listener.truthy stderr
      then debug this_context
             (lit "SSH stderr: " ++ normalizeMessage (globalConfig st) stderr)
             None st
      else st
  | None => st
  end.

(** [Logger.prototype.step] *)
Definition step (this_context stepName : jsstring) (status : StepStatus)
    (duration : option Z) (st : Logger.State) : Logger.State :=
  info this_context (step_message stepName status duration) None st.

Inductive ServiceStatus := starting | running | stopped | service_failed.

(** [Logger.prototype.serviceStatus] *)
Definition serviceStatus (this_context serviceName : jsstring)
    (status : ServiceStatus) (st : Logger.State) : Logger.State :=
  let icon :=
    match status with
    | starting => [0xD83D; 0xDD04]
    | running => [0x2705]
    | stopped => [0xD83D; 0xDED1]
    | service_failed => [0x274C]
    end in
  let text :=
    match status with
    | starting => lit "starting"
    | running => lit "running"
    | stopped => lit "stopped"
    | service_failed => lit "failed"
    end in
  info this_context
    (icon ++ lit " " ++ serviceName ++ lit " service is " ++ text) None st.

(** The calls of [debug] that [sshCommand] makes under the configuration
    [cfg]. *)
Definition ssh_calls (cfg : LoggerConfig) (this_context command : jsstring)
    (result : option (jsstring * jsstring)) : list LogCall :=
  let call msg := {| call_context := this_context; call_level := DEBUG;
                     call_msg := msg; call_meta := None |} in
  call (lit "SSH Command: " ++ command)
    :: match result with
       | Some (stdout, stderr) =>
           (if Listener.truthy stdout
            then [call (lit "SSH stdout: " ++ normalizeMessage cfg stdout)]
            else [])
           ++ (if Listener.truthy stderr
               then [call (lit "SSH stderr: " ++ normalizeMessage cfg stderr)]
               else [])
       | None => []
       end.

(** The texts that [console.error] and [console.warn] have received. *)
Definition console_errors (st : Logger.State) : list jsstring :=
  flat_map (fun c => match c with ConsoleError l => [l] | _ => [] end)
    (console st).

Definition console_warnings (st : Logger.State) : list jsstring :=
  flat_map (fun c => match c with ConsoleWarn l => [l] | _ => [] end)
    (console st).

(** [{ ...p, ...q }] on partial configurations. *)
Definition override (p q : PartialConfig) : PartialConfig := {|
  p_level := match p_level q with Some v => Some v | None => p_level p end;
  p_enableTimestamps :=
    match p_enableTimestamps q with
    | Some v => Some v | None => p_enableTimestamps p end;
  p_enableColors :=
    match p_enableColors q with Some v => Some v | None => p_enableColors p end;
  p_enableFileLogging :=
    match p_enableFileLogging q with
    | Some v => Some v | None => p_enableFileLogging p end;
  p_logFile := match p_logFile q with Some v => Some v | None => p_logFile p end;
  p_maxLineLength :=
    match p_maxLineLength q with
    | Some v => Some v | None => p_maxLineLength p end;
  p_context := match p_context q with Some v => Some v | None => p_context p end
|}.

End LoggerMethods.

(** A host without the [fs] module, and a host whose file system rejects
    every append. *)
Definition hostWithoutFs : Host := {|
  clock := fun n => Z.of_nat (10 * n);
  toISOString := fun t => lit "T" ++ of_Z t;
  FileSystem := unit;
  appendFileSync := fun _ _ d => inl d;
  require_fs := false;
  existsSync := fun _ _ => true;
  mkdirSync := fun _ _ => None
|}.

Definition hostReadOnly : Host := {|
  clock := fun n => Z.of_nat (10 * n);
  toISOString := fun t => lit "T" ++ of_Z t;
  FileSystem := unit;
  appendFileSync := fun _ _ _ => inr (lit "EACCES: permission denied");
  require_fs := true;
  existsSync := fun _ _ => true;
  mkdirSync := fun _ _ => None
|}.

(** A host on which the output directory is missing and cannot be made:
    a file stands where its parent directory should be. *)
Definition hostWithoutDirectory : Host := {|
  clock := fun n => Z.of_nat (10 * n);
  toISOString := fun t => lit "T" ++ of_Z t;
  FileSystem := unit;
  appendFileSync := fun _ _ d => inl d;
  require_fs := true;
  existsSync := fun _ _ => false;
  mkdirSync := fun path _ =>
    Some (lit "ENOTDIR: not a directory, mkdir '" ++ path ++ lit "'")
|}.

(** [Logger.configure({ enableFileLogging: true })] *)
Definition file_logging_on : PartialConfig := {|
  p_level := None;
  p_enableTimestamps := None;
  p_enableColors := None;
  p_enableFileLogging := Some true;
  p_logFile := None;
  p_maxLineLength := None;
  p_context := None
|}.

(** Three calls at three levels. *)
Definition three_calls : list LogCall :=
  [{| call_context := lit "Net"; call_level := DEBUG;
      call_msg := lit "probe"; call_meta := None |};
   {| call_context := lit "Net"; call_level := INFO;
      call_msg := lit "link  up"; call_meta := None |};
   {| call_context := lit "Net"; call_level := ERROR;
      call_msg := lit "link down"; call_meta := None |}].

(** ** Vocabulary for further properties of the listener *)

Section ListenerMoreVocabulary.
Context {host : Host}.
Import Listener.

Definition COLON : char16 := 0x3A.

(** The context that [onTestBegin] stores for a test begun at [now]. *)
Definition fresh_context (test : TestCase) (now : Z) : TestExecutionContext :=
  {| tc_testName := test_title test;
     tc_suiteName := parent_title test;
     tc_startTime := now;
     tc_endTime := None;
     tc_duration := None;
     tc_status := passed;
     tc_error := None;
     tc_screenshots := None;
     tc_videos := None;
     tc_steps := [] |}.

(** The number of steps with the title that have no end time. *)
Definition open_count (title : jsstring) (steps : list TestStepInfo) : nat :=
  length (filter (open_with_title title) steps).

(** Total, passed, failed and skipped all zero. *)
Definition no_tests : nat * nat * nat * nat := (0, 0, 0, 0)%nat.

(** The counters that the [testEnd] events of a list add up to for the
    suite key [k], on top of [acc]. *)
Fixpoint tally (k : jsstring) (events : list Event)
    (acc : nat * nat * nat * nat) : nat * nat * nat * nat :=
  match events with
  | [] => acc
  | EvTestEnd test result :: rest =>
      tally k rest
        (if Js.eqb (or_root (parent_title test)) k
         then bucketed (result_status result) acc
         else acc)
  | _ :: rest => tally k rest acc
  end.

Definition is_begin (e : Event) : bool :=
  match e with EvBegin _ _ => true | _ => false end.

(** A suite context satisfies total = passed + failed + skipped. *)
Definition balanced (c : SuiteExecutionContext) : Prop :=
  sc_total c = (sc_passed c + sc_failed c + sc_skipped c)%nat.

Definition failed_result : TestResult :=
  {| result_status := failed;
     result_error := Some {| err_message := Some (lit "expected 200") |};
     attachments := [] |}.

Definition login_B : TestCase :=
  {| parent_title := lit "Login"; test_title := lit "B" |}.

(** A run over the tree of "Login": two tests end, one of them twice. *)
Definition login_run : list Event :=
  [EvTestBegin login_A; EvTestEnd login_A passed_result;
   EvTestBegin login_B; EvTestEnd login_B failed_result;
   EvTestEnd login_B timed_out_result;
   EvTestEnd untitled_parent_test passed_result;
   EvEnd run_failed].

End ListenerMoreVocabulary.

(** A host whose clock stands still: every [new Date()] reads the same
    millisecond. *)
Definition hostWithCoarseClock : Host := {|
  clock := fun _ => 1000%Z;
  toISOString := fun t => lit "T" ++ of_Z t;
  FileSystem := unit;
  appendFileSync := fun _ _ d => inl d;
  require_fs := true;
  existsSync := fun _ _ => true;
  mkdirSync := fun _ _ => None
|}.

(** [testBegin] of "Login > A" and [stepBegin] of "fill" within one
    millisecond. *)
Definition fill_begun_at_once : Listener.State :=
  @Listener.onStepBegin hostWithCoarseClock login_A passed_result fill_step
    (@Listener.onTestBegin hostWithCoarseClock login_A
       (Listener.create Listener.defaultListenerConfig)).

(** The truncation cuts right behind a space: the text that
    [normalizeMessage] has before its final [substring(0, maxLineLength)]
    holds a space at the index [maxLineLength - 1]. *)
Definition cut_at_space (cfg : LoggerConfig) (s : jsstring) : bool :=
  (0 <? maxLineLength cfg)%Z
  && (nth (Z.to_nat (maxLineLength cfg - 1)) (squeezed s) 0 =? SP).


(** * Properties of the string primitives *)

Section StringFacts.

Lemma jseqb_eq a b : Js.eqb a b = true <-> a = b.
Proof.
  unfold Js.eqb. destruct (list_eq_dec N.eq_dec a b); split; congruence.
Qed.

Lemma jseqb_refl a : Js.eqb a a = true.
Proof. apply jseqb_eq. reflexivity. Qed.

Lemma jseqb_neq a b : Js.eqb a b = false <-> a <> b.
Proof.
  unfold Js.eqb. destruct (list_eq_dec N.eq_dec a b); split; congruence.
Qed.

Lemma trimStart_suffix s : exists p, s = p ++ trimStart s.
Proof.
  induction s as [|c r [p Hp]]; simpl.
  - exists []. reflexivity.
  - destruct (is_ws c).
    + exists (c :: p). simpl. now rewrite <- Hp.
    + exists []. reflexivity.
Qed.

Lemma trimEnd_prefix s : exists q, s = trimEnd s ++ q.
Proof.
  unfold trimEnd. destruct (trimStart_suffix (rev s)) as [p Hp].
  exists (rev p).
  rewrite <- rev_app_distr, <- Hp. now rewrite rev_involutive.
Qed.

Lemma head_not_ws_trimStart s : head_not_ws (trimStart s) = true.
Proof.
  induction s as [|c r IH]; simpl; trivial.
  destruct (is_ws c) eqn:E; trivial. simpl. now rewrite E.
Qed.

Lemma trimStart_id s : head_not_ws s = true -> trimStart s = s.
Proof.
  destruct s as [|c r]; simpl; trivial.
  destruct (is_ws c); simpl; congruence.
Qed.

Lemma trimEnd_id s : head_not_ws (rev s) = true -> trimEnd s = s.
Proof.
  intros H. unfold trimEnd. rewrite trimStart_id by assumption.
  apply rev_involutive.
Qed.

Lemma last_not_ws_trimEnd s : head_not_ws (rev (trimEnd s)) = true.
Proof.
  unfold trimEnd. rewrite rev_involutive. apply head_not_ws_trimStart.
Qed.

Lemma head_not_ws_prefix a b :
  head_not_ws (a ++ b) = true -> head_not_ws a = true.
Proof. destruct a; simpl; trivial. Qed.

Lemma head_not_ws_trimEnd s :
  head_not_ws s = true -> head_not_ws (trimEnd s) = true.
Proof.
  intros H. destruct (trimEnd_prefix s) as [q Hq].
  rewrite Hq in H. eapply head_not_ws_prefix; eassumption.
Qed.

Lemma tidy_cons c r :
  tidy (c :: r) = true ->
  (is_ws c = true -> c = SP) /\ tidy r = true.
Proof.
  simpl. intros H.
  apply andb_prop in H as [H Hr]. apply andb_prop in H as [H _].
  split; trivial. intros W. rewrite W in H. simpl in H.
  now apply N.eqb_eq.
Qed.

Lemma tidy_app a b :
  tidy (a ++ b) = true -> tidy a = true /\ tidy b = true.
Proof.
  induction a as [|c r IH]; simpl; intros H.
  - auto.
  - apply andb_prop in H as [H Hr]. apply andb_prop in H as [H1 H2].
    destruct (IH Hr) as [Ha Hb]. split; trivial.
    rewrite H1, Ha. simpl. rewrite andb_true_r.
    destruct r as [|d r']; trivial.
Qed.

Lemma tidy_only_plain_spaces s : tidy s = true -> only_plain_spaces s.
Proof.
  unfold only_plain_spaces.
  induction s as [|c r IH]; intros H; constructor;
    apply tidy_cons in H as [H1 H2]; auto.
Qed.

Lemma tidy_no_double_space s : tidy s = true -> no_double_space s.
Proof.
  intros H p q E. subst s. apply tidy_app in H as [_ H].
  simpl in H. discriminate H.
Qed.

Lemma collapse_from_tidy s : forall b,
  tidy (collapse_from b s) = true
  /\ (b = true -> head_not_ws (collapse_from b s) = true).
Proof.
  induction s as [|c r IH]; intros b; simpl.
  - auto.
  - destruct (is_ws c) eqn:W.
    + destruct b.
      * apply IH.
      * split; [|discriminate].
        destruct (IH true) as [T Hd]. specialize (Hd eq_refl).
        cbn [tidy]. rewrite T, andb_true_r.
        change (is_ws SP) with true. change (SP =? SP) with true.
        destruct (collapse_from true r) as [|d r']; trivial.
    + split; [|intros _; simpl; now rewrite W].
      destruct (IH false) as [T _].
      cbn [tidy]. rewrite W, T. simpl.
      destruct (collapse_from false r); trivial.
Qed.

Lemma collapse_from_id s : forall b,
  tidy s = true -> (b = true -> head_not_ws s = true) ->
  collapse_from b s = s.
Proof.
  induction s as [|c r IH]; intros b T Hd; simpl; trivial.
  pose proof (tidy_cons _ _ T) as [Hc Tr].
  destruct (is_ws c) eqn:W.
  - destruct b.
    + specialize (Hd eq_refl). simpl in Hd. rewrite W in Hd. discriminate.
    + rewrite (Hc eq_refl). f_equal. apply IH; trivial.
      intros _. simpl in T. rewrite W in T. simpl in T.
      destruct r as [|d r']; trivial. simpl.
      apply andb_prop in T as [T _]. apply andb_prop in T as [_ T].
      exact T.
  - f_equal. apply IH; trivial. discriminate.
Qed.

Lemma replace_char_id a s :
  is_ws a = true -> a <> SP -> tidy s = true -> replace_char a s = s.
Proof.
  intros Wa Na T. unfold replace_char.
  apply tidy_only_plain_spaces in T.
  induction T as [|c r Hc _ IH]; simpl; trivial.
  rewrite IH. destruct (N.eqb_spec c a) as [->|]; trivial.
  elim Na. auto.
Qed.

Lemma replace_crlf_id s : ~ In CR s -> replace_crlf s = s.
Proof.
  induction s as [|c r IH]; intros H; trivial.
  assert (IH' : replace_crlf r = r) by (apply IH; intros X; apply H; now right).
  cbn [replace_crlf]. destruct r as [|d r']; trivial.
  destruct (N.eqb_spec c CR) as [->|_].
  - elim H. now left.
  - simpl andb. cbv iota. now rewrite IH'.
Qed.

Lemma tidy_no_CR s : tidy s = true -> ~ In CR s.
Proof.
  intros T H. apply tidy_only_plain_spaces in T.
  unfold only_plain_spaces in T. rewrite Forall_forall in T.
  specialize (T _ H eq_refl). discriminate T.
Qed.

End StringFacts.

(** * Properties of [Logger] *)


Lemma tidy_firstn n s : tidy s = true -> tidy (firstn n s) = true.
Proof.
  intros T. rewrite <- (firstn_skipn n s) in T. now apply tidy_app in T.
Qed.

Lemma head_not_ws_firstn n s :
  head_not_ws s = true -> head_not_ws (firstn n s) = true.
Proof.
  intros H. rewrite <- (firstn_skipn n s) in H.
  eapply head_not_ws_prefix; eassumption.
Qed.

Lemma tidy_trimStart s : tidy s = true -> tidy (trimStart s) = true.
Proof.
  intros T. destruct (trimStart_suffix s) as [p Hp].
  rewrite Hp in T. now apply tidy_app in T.
Qed.

Lemma tidy_trimEnd s : tidy s = true -> tidy (trimEnd s) = true.
Proof.
  intros T. destruct (trimEnd_prefix s) as [q Hq].
  rewrite Hq in T. now apply tidy_app in T.
Qed.

Lemma length_trimEnd s : (length (trimEnd s) <= length s)%nat.
Proof.
  destruct (trimEnd_prefix s) as [q Hq].
  rewrite Hq at 2. rewrite length_app. lia.
Qed.

(** What [trim] after [/\s+/g -> ' '] yields, whatever came before. *)
Lemma trim_collapse_shape x :
  let u := trim (collapse_ws x) in
  tidy u = true /\ head_not_ws u = true /\ head_not_ws (rev u) = true.
Proof.
  unfold trim, collapse_ws. repeat split.
  - apply tidy_trimEnd, tidy_trimStart, collapse_from_tidy.
  - apply head_not_ws_trimEnd, head_not_ws_trimStart.
  - apply last_not_ws_trimEnd.
Qed.

Lemma normalizeMessage_shape cfg s :
  tidy (normalizeMessage cfg s) = true
  /\ head_not_ws (normalizeMessage cfg s) = true
  /\ (length (normalizeMessage cfg s) <= Z.to_nat (maxLineLength cfg))%nat.
Proof.
  unfold normalizeMessage, substring0.
  match goal with |- context [trim (collapse_ws ?x)] =>
    destruct (trim_collapse_shape x) as (T & H & _) end.
  repeat split.
  - now apply tidy_firstn.
  - now apply head_not_ws_firstn.
  - apply firstn_le_length.
Qed.

(** On a message that is already tidy, starts with no white space and fits
    the line, the only step that still acts is the final [trim]. *)
Lemma normalizeMessage_tidy cfg t :
  tidy t = true -> head_not_ws t = true ->
  (length t <= Z.to_nat (maxLineLength cfg))%nat ->
  normalizeMessage cfg t = trimEnd t.
Proof.
  intros T H L. unfold normalizeMessage.
  unfold trim at 2. rewrite (trimStart_id t H).
  pose proof (tidy_trimEnd t T) as Tu.
  pose proof (head_not_ws_trimEnd t H) as Hu.
  pose proof (last_not_ws_trimEnd t) as Lu.
  pose proof (length_trimEnd t) as Len.
  set (u := trimEnd t) in *.
  rewrite (replace_crlf_id u) by now apply tidy_no_CR.
  rewrite (replace_char_id CR u), (replace_char_id LF u),
    (replace_char_id TAB u)
    by first [reflexivity | assumption | intros X; discriminate X].
  unfold collapse_ws. rewrite collapse_from_id by (trivial; discriminate).
  unfold trim. rewrite (trimStart_id u Hu), (trimEnd_id u Lu).
  unfold substring0. apply firstn_all2. lia.
Qed.

Lemma normalizeMessage_twice cfg s :
  normalizeMessage cfg (normalizeMessage cfg s)
  = trimEnd (normalizeMessage cfg s).
Proof.
  destruct (normalizeMessage_shape cfg s) as (T & H & L).
  now apply normalizeMessage_tidy.
Qed.

Lemma last_not_ws_of_no_final_space t :
  tidy t = true -> (forall r, t <> r ++ [SP]) -> head_not_ws (rev t) = true.
Proof.
  intros T N. destruct (rev t) as [|c r'] eqn:E; trivial.
  simpl. destruct (is_ws c) eqn:W; trivial.
  assert (Et : t = rev r' ++ [c]).
  { rewrite <- (rev_involutive t), E. reflexivity. }
  apply tidy_only_plain_spaces in T. unfold only_plain_spaces in T.
  rewrite Forall_forall in T.
  assert (c = SP) by (apply T; trivial; rewrite Et; apply in_or_app; right; now left).
  subst c. elim (N _ Et).
Qed.

Lemma normalizeMessage_idempotent_if_no_final_space cfg s :
  (forall r, normalizeMessage cfg s <> r ++ [SP]) ->
  normalizeMessage cfg (normalizeMessage cfg s) = normalizeMessage cfg s.
Proof.
  intros N. rewrite normalizeMessage_twice. apply trimEnd_id.
  apply last_not_ws_of_no_final_space; trivial.
  apply normalizeMessage_shape.
Qed.

Lemma trimEnd_final_space r :
  tidy (r ++ [SP]) = true -> trimEnd (r ++ [SP]) = r.
Proof.
  intros T. unfold trimEnd. rewrite rev_app_distr. simpl.
  change (is_ws SP) with true. cbv iota.
  rewrite trimStart_id; [apply rev_involutive|].
  destruct (rev r) as [|c r'] eqn:E; trivial. simpl.
  assert (Er : r = rev r' ++ [c]).
  { rewrite <- (rev_involutive r), E. reflexivity. }
  rewrite Er, <- app_assoc in T. apply tidy_app in T as [_ T].
  cbn [tidy app] in T. change (is_ws SP) with true in T.
  destruct (is_ws c); [|reflexivity].
  destruct (c =? SP); discriminate T.
Qed.

Lemma normalizeMessage_strips_final_space cfg s r :
  normalizeMessage cfg s = r ++ [SP] ->
  normalizeMessage cfg (normalizeMessage cfg s) = r.
Proof.
  intros E. rewrite normalizeMessage_twice, E. apply trimEnd_final_space.
  rewrite <- E. apply normalizeMessage_shape.
Qed.

Lemma normalizeMessage_not_idempotent_at_long_line :
  normalizeMessage defaultConfig long_line = repeat 0x61 199 ++ [SP]
  /\ normalizeMessage defaultConfig (normalizeMessage defaultConfig long_line)
     = repeat 0x61 199
  /\ normalizeMessage defaultConfig (normalizeMessage defaultConfig long_line)
     <> normalizeMessage defaultConfig long_line.
Proof.
  split; [|split].
  - vm_compute. reflexivity.
  - vm_compute. reflexivity.
  - intros H. apply (f_equal (@length _)) in H. vm_compute in H.
    discriminate H.
Qed.


Section LoggerFacts.
  Context {host : Host}.

Lemma writeToFile_globalConfig e st :
  globalConfig (writeToFile e st) = globalConfig st.
Proof.
  unfold writeToFile.
  destruct (negb _ || negb _); trivial.
  destruct (appendFileSync _ _ _); reflexivity.
Qed.

Lemma writeToFile_logBuffer e st :
  logBuffer (writeToFile e st) = logBuffer st.
Proof.
  unfold writeToFile.
  destruct (negb _ || negb _); trivial.
  destruct (appendFileSync _ _ _); reflexivity.
Qed.

Lemma writeToFile_ticks e st : ticks (writeToFile e st) = ticks st.
Proof.
  unfold writeToFile.
  destruct (negb _ || negb _); trivial.
  destruct (appendFileSync _ _ _); reflexivity.
Qed.

Lemma writeToFile_console_lines e st :
  console_lines (writeToFile e st) = console_lines st.
Proof.
  unfold writeToFile.
  destruct (negb _ || negb _); trivial.
  destruct (appendFileSync _ _ _); trivial.
  unfold console_lines. simpl. rewrite flat_map_app. simpl.
  apply app_nil_r.
Qed.

Lemma passes_false cfg lvl :
  passes cfg lvl = false
  <-> (level_value lvl < level_value (level cfg))%Z.
Proof. unfold passes. rewrite Z.leb_gt. reflexivity. Qed.

Lemma passes_true cfg lvl :
  passes cfg lvl = true
  <-> (level_value (level cfg) <= level_value lvl)%Z.
Proof. unfold passes. apply Z.leb_le. Qed.

Lemma log_below ctx lvl msg meta st :
  passes (globalConfig st) lvl = false -> log ctx lvl msg meta st = st.
Proof.
  intros H. apply passes_false in H. unfold log.
  apply Z.ltb_lt in H. now rewrite H.
Qed.

Lemma log_unfold ctx lvl msg meta st :
  passes (globalConfig st) lvl = true ->
  let e := entry_of (globalConfig st) (ticks st)
             {| call_context := ctx; call_level := lvl;
                call_msg := msg; call_meta := meta |} in
  log ctx lvl msg meta st
  = let s2 :=
      writeToFile e
        (console_call (ConsoleLog (formatMessage (globalConfig st) e))
           (snd (new_Date st))) in
    set_logBuffer (push_evict e (logBuffer s2)) s2.
Proof.
  intros H e. apply passes_true in H.
  assert (L : (level_value lvl <? level_value (level (globalConfig st)))%Z
              = false) by (apply Z.ltb_ge; exact H).
  transitivity
    (let s2 :=
       writeToFile e
         (console_call (ConsoleLog (formatMessage (globalConfig st) e))
            (snd (new_Date st))) in
     if (1000 <? length (logBuffer s2 ++ [e]))%nat
     then set_logBuffer (tl (logBuffer s2 ++ [e])) s2
     else set_logBuffer (logBuffer s2 ++ [e]) s2).
  - unfold log. rewrite L. reflexivity.
  - cbv zeta. unfold push_evict.
    match goal with |- context [(1000 <? ?n)%nat] =>
      destruct (1000 <? n)%nat end; reflexivity.
Qed.

Lemma log_above ctx lvl msg meta st :
  passes (globalConfig st) lvl = true ->
  let e := entry_of (globalConfig st) (ticks st)
             {| call_context := ctx; call_level := lvl;
                call_msg := msg; call_meta := meta |} in
  let st' := log ctx lvl msg meta st in
  globalConfig st' = globalConfig st
  /\ ticks st' = S (ticks st)
  /\ console_lines st'
     = console_lines st ++ [formatMessage (globalConfig st) e]
  /\ logBuffer st' = push_evict e (logBuffer st).
Proof.
  intros H e st'. subst st'. rewrite (log_unfold _ _ _ _ _ H).
  fold e. cbv zeta.
  cbn [globalConfig ticks logBuffer set_logBuffer].
  rewrite writeToFile_globalConfig, writeToFile_ticks,
    writeToFile_logBuffer.
  repeat split.
  change (console_lines (writeToFile e
            (console_call (ConsoleLog (formatMessage (globalConfig st) e))
               (snd (new_Date st))))
          = console_lines st ++ [formatMessage (globalConfig st) e]).
  rewrite writeToFile_console_lines.
  unfold console_lines. simpl. rewrite flat_map_app. reflexivity.
Qed.

(** C3.  A call of [log] (hence of [debug], [info], [warn], [error]) whose
    level lies strictly below the configured one leaves the whole state as
    it is: buffer, console, file system.  A call at or above it prints one
    formatted line with [console.log] and appends one entry to the buffer;
    the entry carries the level, the normalized message, the context of
    the instance and the metadata.  Appending evicts at most one entry,
    and none while the buffer holds fewer than 1000. *)
Theorem log_strict_level_filter ctx lvl msg meta st :
  let cfg := globalConfig st in
  let st' := log ctx lvl msg meta st in
  ((level_value lvl < level_value (level cfg))%Z -> st' = st)
  /\ ((level_value (level cfg) <= level_value lvl)%Z ->
      exists e evicted,
        entry_level e = lvl
        /\ message e = normalizeMessage cfg msg
        /\ entry_context e = ctx
        /\ metadata e = meta
        /\ console_lines st' = console_lines st ++ [formatMessage cfg e]
        /\ evicted ++ logBuffer st' = logBuffer st ++ [e]
        /\ (length evicted <= 1)%nat
        /\ ((length (logBuffer st) < 1000)%nat -> evicted = [])).
Proof.
  cbv zeta. split.
  - intros H. apply log_below. now apply passes_false.
  - intros H. apply passes_true in H.
    destruct (log_above ctx lvl msg meta st H) as (_ & _ & C & B).
    set (e := entry_of (globalConfig st) (ticks st)
                {| call_context := ctx; call_level := lvl;
                   call_msg := msg; call_meta := meta |}) in *.
    exists e. rewrite B, C. unfold push_evict.
    destruct (1000 <? length (logBuffer st ++ [e]))%nat eqn:F.
    + destruct (logBuffer st) as [|x b] eqn:Eb.
      * simpl in F. discriminate F.
      * exists [x]. repeat split; trivial.
        intros L. apply Nat.ltb_lt in F. rewrite length_app in F.
        simpl in *. lia.
    + exists []. repeat split; trivial. simpl. lia.
Qed.

Lemma skipn_1_tl {A} (l : list A) : skipn 1 l = tl l.
Proof. destruct l; reflexivity. Qed.

Lemma push_evict_lastn e b :
  (length b <= 1000)%nat -> push_evict e b = lastn 1000 (b ++ [e]).
Proof.
  intros L. unfold push_evict, lastn. rewrite length_app. simpl.
  destruct (1000 <? length b + 1)%nat eqn:F.
  - apply Nat.ltb_lt in F.
    replace (length b + 1 - 1000)%nat with 1%nat by lia.
    symmetry. apply skipn_1_tl.
  - apply Nat.ltb_ge in F.
    replace (length b + 1 - 1000)%nat with 0%nat by lia. reflexivity.
Qed.

Lemma length_lastn {A} n (l : list A) : (length (lastn n l) <= n)%nat.
Proof. unfold lastn. rewrite length_skipn. lia. Qed.

Lemma lastn_app_lastn {A} n (x y : list A) :
  lastn n (lastn n x ++ y) = lastn n (x ++ y).
Proof.
  unfold lastn. rewrite !length_app, length_skipn.
  set (k := (length x - n)%nat).
  assert (E : x ++ y = firstn k x ++ (skipn k x ++ y))
    by (now rewrite app_assoc, firstn_skipn).
  assert (Lf : length (firstn k x) = k)
    by (rewrite length_firstn; unfold k; lia).
  rewrite E, (skipn_app (length x + length y - n) (firstn k x)).
  rewrite (@skipn_all2 _ _ (firstn k x)) by (rewrite Lf; unfold k; lia).
  rewrite Lf. simpl.
  f_equal. unfold k. lia.
Qed.

Lemma lastn_all {A} n (l : list A) : (length l <= n)%nat -> lastn n l = l.
Proof.
  intros L. unfold lastn.
  replace (length l - n)%nat with 0%nat by lia. reflexivity.
Qed.

(** What a sequence of calls leaves behind, under a fixed configuration:
    one console line and one buffer entry for each call that passes the
    threshold, nothing for the others. *)
Lemma run_calls_spec cs : forall st,
  let cfg := globalConfig st in
  let es := entries_from cfg (ticks st) cs in
  globalConfig (run_calls cs st) = cfg
  /\ ticks (run_calls cs st) = (ticks st + length es)%nat
  /\ console_lines (run_calls cs st)
     = console_lines st ++ map (formatMessage cfg) es
  /\ ((length (logBuffer st) <= 1000)%nat ->
      logBuffer (run_calls cs st) = lastn 1000 (logBuffer st ++ es)).
Proof.
  induction cs as [|c r IH]; intros st; cbv zeta.
  - simpl. rewrite !app_nil_r. repeat split; try lia.
    intros L. symmetry. now apply lastn_all.
  - cbn [run_calls fold_left entries_from].
    fold (run_calls r (do_call c st)).
    destruct (passes (globalConfig st) (call_level c)) eqn:P.
    + destruct (log_above (call_context c) (call_level c) (call_msg c)
                  (call_meta c) st P) as (G & T & C & B).
      destruct c as [cc cl cm cme]. cbn [call_context call_level call_msg
                                         call_meta] in *.
      unfold do_call at 1 2 3 4.
      cbn [call_context call_level call_msg call_meta].
      set (st1 := log cc cl cm cme st) in *.
      specialize (IH st1). cbv zeta in IH.
      rewrite G, T in IH. destruct IH as (G' & T' & C' & B').
      repeat split; trivial.
      * rewrite T'. simpl. lia.
      * rewrite C', C, <- app_assoc. reflexivity.
      * intros L. rewrite B'.
        -- rewrite B, push_evict_lastn by assumption.
           rewrite lastn_app_lastn, <- app_assoc. reflexivity.
        -- rewrite B, push_evict_lastn by assumption. apply length_lastn.
    + unfold do_call at 1 2 3 4. rewrite (log_below _ _ _ _ _ P).
      apply IH.
Qed.

Lemma configure_logBuffer config st :
  logBuffer (configure config st) = logBuffer st.
Proof.
  unfold configure. cbv zeta.
  destruct (enableFileLogging _ && negb _); trivial.
  destruct require_fs; reflexivity.
Qed.

Lemma apply_op_bound op st :
  (length (logBuffer st) <= 1000)%nat ->
  (length (logBuffer (apply_op op st)) <= 1000)%nat.
Proof.
  intros L. destruct op as [config|c|count|]; cbn [apply_op]; trivial.
  - now rewrite configure_logBuffer.
  - unfold do_call.
    destruct (passes (globalConfig st) (call_level c)) eqn:P.
    + destruct (log_above (call_context c) (call_level c) (call_msg c)
                  (call_meta c) st P) as (_ & _ & _ & B).
      rewrite B, push_evict_lastn by assumption. apply length_lastn.
    + now rewrite (log_below _ _ _ _ _ P).
  - simpl. lia.
Qed.

Lemma run_ops_bound ops : forall st,
  (length (logBuffer st) <= 1000)%nat ->
  (length (logBuffer (run_ops ops st)) <= 1000)%nat.
Proof.
  induction ops as [|op r IH]; intros st L; trivial.
  cbn [run_ops fold_left]. apply IH. now apply apply_op_bound.
Qed.

(** C4.  The log buffer is a ring of 1000 entries: (1) whatever operations
    follow the initial state, the buffer never holds more than 1000
    entries; (2) no single operation takes it beyond 1000; (3) an emitted
    call appends its entry and keeps the last 1000; (4) after 1001 emitted
    calls on an empty buffer the buffer holds 1000 entries, namely the
    entries of the calls 2 to 1001 in the order of the calls. *)
Theorem logBuffer_is_a_1000_entry_ring :
  (forall d ops,
      (length (logBuffer (run_ops ops (initial d))) <= 1000)%nat)
  /\ (forall st op,
        (length (logBuffer st) <= 1000)%nat ->
        (length (logBuffer (apply_op op st)) <= 1000)%nat)
  /\ (forall st c,
        passes (globalConfig st) (call_level c) = true ->
        (length (logBuffer st) <= 1000)%nat ->
        logBuffer (do_call c st)
        = lastn 1000
            (logBuffer st ++ [entry_of (globalConfig st) (ticks st) c]))
  /\ (forall st cs,
        logBuffer st = [] ->
        length (entries_from (globalConfig st) (ticks st) cs) = 1001%nat ->
        length (logBuffer (run_calls cs st)) = 1000%nat
        /\ logBuffer (run_calls cs st)
           = tl (entries_from (globalConfig st) (ticks st) cs)).
Proof.
  split; [|split; [|split]].
  - intros d ops. apply run_ops_bound. simpl. lia.
  - intros st op. apply apply_op_bound.
  - intros st [cc cl cm cme] P L. unfold do_call.
    cbn [call_context call_level call_msg call_meta] in *.
    destruct (log_above cc cl cm cme st P) as (_ & _ & _ & B).
    rewrite B. now apply push_evict_lastn.
  - intros st cs E N.
    destruct (run_calls_spec cs st) as (_ & _ & _ & B).
    rewrite B by (rewrite E; simpl; lia).
    rewrite E. cbn [app]. unfold lastn. rewrite N.
    change (1001 - 1000)%nat with 1%nat. rewrite skipn_1_tl.
    split; trivial.
    destruct (entries_from _ _ cs); simpl in *; lia.
Qed.

(** C9 (the count 0).  [getRecentLogs(0)] evaluates [logBuffer.slice(-0)],
    which is [slice(0)]: it returns the whole buffer, not the empty list.
    For a positive count the result is the last [count] entries, see
    [getRecentLogs_positive]. *)
Theorem getRecentLogs_zero_returns_whole_buffer st :
  getRecentLogs 0 st = logBuffer st.
Proof.
  unfold getRecentLogs, slice_from. cbn [Z.opp Z.ltb Z.compare].
  rewrite Z.min_l by lia. reflexivity.
Qed.

Lemma getRecentLogs_positive count st :
  (0 < count)%Z ->
  getRecentLogs count st = lastn (Z.to_nat count) (logBuffer st).
Proof.
  intros H. unfold getRecentLogs, slice_from, lastn.
  destruct (Z.ltb_spec (- count) 0); [|lia].
  f_equal. lia.
Qed.

End LoggerFacts.

Lemma log_strict_level_filter_witness :
  @info sampleHost (lit "Scenario") (lit "x") None warn_only = warn_only
  /\ exists e evicted,
       entry_level e = WARN
       /\ message e = lit "y"
       /\ entry_context e = lit "Scenario"
       /\ metadata e = None
       /\ console_lines (@warn sampleHost (lit "Scenario") (lit "y") None
                           warn_only)
          = console_lines warn_only
              ++ [@formatMessage sampleHost (globalConfig warn_only) e]
       /\ evicted
            ++ logBuffer (@warn sampleHost (lit "Scenario") (lit "y") None
                            warn_only)
          = logBuffer warn_only ++ [e]
       /\ (length evicted <= 1)%nat
       /\ ((length (logBuffer warn_only) < 1000)%nat -> evicted = []).
Proof.
  split.
  - apply (proj1 (@log_strict_level_filter sampleHost (lit "Scenario") INFO
                    (lit "x") None warn_only)).
    vm_compute. reflexivity.
  - apply (proj2 (@log_strict_level_filter sampleHost (lit "Scenario") WARN
                    (lit "y") None warn_only)).
    vm_compute. discriminate.
Defined.

Lemma logBuffer_is_a_1000_entry_ring_witness :
  (length (logBuffer (@apply_op sampleHost OpClearBuffer warn_only))
   <= 1000)%nat
  /\ logBuffer (@do_call sampleHost
                  {| call_context := lit "Ring"; call_level := ERROR;
                     call_msg := lit "e"; call_meta := None |} warn_only)
     = lastn 1000
         (logBuffer warn_only
            ++ [@entry_of sampleHost (globalConfig warn_only)
                  (ticks warn_only)
                  {| call_context := lit "Ring"; call_level := ERROR;
                     call_msg := lit "e"; call_meta := None |}])
  /\ length (logBuffer (@run_calls sampleHost thousand_and_one_calls
                          (@initial sampleHost tt))) = 1000%nat
  /\ logBuffer (@run_calls sampleHost thousand_and_one_calls
                  (@initial sampleHost tt))
     = tl (@entries_from sampleHost defaultConfig 0 thousand_and_one_calls).
Proof.
  pose proof (@logBuffer_is_a_1000_entry_ring sampleHost) as (_ & A & B & C).
  split; [|split].
  - apply A. vm_compute. lia.
  - apply B; [reflexivity | vm_compute; lia].
  - apply (C (@initial sampleHost tt) thousand_and_one_calls);
      [reflexivity | vm_compute; reflexivity].
Defined.

Example getRecentLogs_zero_after_two_warnings :
  let st := @warn sampleHost (lit "T") (lit "second") None
              (@warn sampleHost (lit "T") (lit "first") None warn_only) in
  map message (@getRecentLogs sampleHost 0 st) = [lit "first"; lit "second"]
  /\ map message (@getRecentLogs sampleHost 1 st) = [lit "second"]
  /\ map message (@getRecentLogs sampleHost 5 st) = [lit "first"; lit "second"].
Proof. vm_compute. repeat split. Qed.

Section MapFacts.
  Context {V : Type}.
  Implicit Types (m : JsMap.t V) (k : jsstring) (v : V).

Lemma get_set_same k v m : JsMap.get k (JsMap.set k v m) = Some v.
Proof.
  induction m as [|[k' v'] r IH]; simpl.
  - now rewrite jseqb_refl.
  - destruct (Js.eqb k' k) eqn:E; simpl; now rewrite E.
Qed.

Lemma get_set_other k k' v m :
  k' <> k -> JsMap.get k' (JsMap.set k v m) = JsMap.get k' m.
Proof.
  intros N. induction m as [|[k0 v0] r IH]; simpl.
  - destruct (Js.eqb k k') eqn:E; trivial.
    apply jseqb_eq in E. congruence.
  - destruct (Js.eqb k0 k) eqn:E; simpl.
    + apply jseqb_eq in E. subst k0.
      destruct (Js.eqb k k') eqn:E'; trivial.
      apply jseqb_eq in E'. congruence.
    + now rewrite IH.
Qed.

Lemma get_None_keys k m : JsMap.get k m = None <-> ~ In k (JsMap.keys m).
Proof.
  induction m as [|[k0 v0] r IH]; simpl.
  - tauto.
  - destruct (Js.eqb k0 k) eqn:E.
    + apply jseqb_eq in E. split; [discriminate | intros H; elim H; auto].
    + apply jseqb_neq in E. rewrite IH. tauto.
Qed.

Lemma get_Some_In k v m : JsMap.get k m = Some v -> In (k, v) m.
Proof.
  induction m as [|[k0 v0] r IH]; simpl; [discriminate|].
  destruct (Js.eqb k0 k) eqn:E.
  - apply jseqb_eq in E. intros [= ->]. left. now subst.
  - auto.
Qed.

Lemma keys_set_present k v m :
  In k (JsMap.keys m) -> JsMap.keys (JsMap.set k v m) = JsMap.keys m.
Proof.
  induction m as [|[k0 v0] r IH]; simpl; [tauto|].
  intros H. destruct (Js.eqb k0 k) eqn:E; trivial.
  simpl. f_equal. apply IH. destruct H as [->|]; trivial.
  rewrite jseqb_refl in E. discriminate.
Qed.

Lemma keys_set_absent k v m :
  ~ In k (JsMap.keys m) ->
  JsMap.keys (JsMap.set k v m) = JsMap.keys m ++ [k].
Proof.
  induction m as [|[k0 v0] r IH]; simpl; trivial.
  intros H. destruct (Js.eqb k0 k) eqn:E.
  - apply jseqb_eq in E. tauto.
  - simpl. f_equal. apply IH. tauto.
Qed.

Lemma In_keys_set k k' v m :
  In k' (JsMap.keys (JsMap.set k v m)) <-> k' = k \/ In k' (JsMap.keys m).
Proof.
  destruct (in_dec (list_eq_dec N.eq_dec) k (JsMap.keys m)) as [H|H].
  - rewrite keys_set_present by assumption. split; [tauto|].
    intros [->|]; trivial.
  - rewrite keys_set_absent, in_app_iff by assumption. simpl.
    split; intros [X|X]; auto. destruct X; auto. tauto.
Qed.

Lemma NoDup_keys_set k v m :
  NoDup (JsMap.keys m) -> NoDup (JsMap.keys (JsMap.set k v m)).
Proof.
  intros N.
  destruct (in_dec (list_eq_dec N.eq_dec) k (JsMap.keys m)) as [H|H].
  - now rewrite keys_set_present.
  - rewrite keys_set_absent by assumption.
    apply NoDup_app; [assumption | repeat constructor; tauto |].
    intros x Hx [<-|[]]. contradiction.
Qed.

Lemma NoDup_keys_In_get k v m :
  NoDup (JsMap.keys m) -> In (k, v) m -> JsMap.get k m = Some v.
Proof.
  induction m as [|[k0 v0] r IH]; simpl; [tauto|].
  intros N [E|H].
  - injection E as -> ->. now rewrite jseqb_refl.
  - inversion N as [|? ? Hn N']; subst.
    destruct (Js.eqb k0 k) eqn:E.
    + apply jseqb_eq in E. subst k0. elim Hn.
      change k with (fst (k, v)). now apply in_map.
    + auto.
Qed.

End MapFacts.

Section DirectoryFacts.
Context {host : Host}.
Import Listener.

Lemma ensureOutputDirectory_Returned st st' :
  ensureOutputDirectory st = Returned st' -> st' = st.
Proof.
  unfold ensureOutputDirectory.
  destruct (existsSync _ _); [|destruct (mkdirSync _ _)]; congruence.
Qed.

(** A constructor that returns leaves the state [create]. *)
Lemma construct_Returned cfg st :
  construct cfg = Returned st -> st = create cfg.
Proof. apply ensureOutputDirectory_Returned. Qed.

End DirectoryFacts.

(** [onBegin] when it returns: the directory was there or could be made,
    and the rest of the body has run. *)
Ltac onBegin_returned :=
  unfold Listener.onBegin; cbn [Listener.new_Date];
  let E := fresh "E" in
  destruct (Listener.ensureOutputDirectory _) eqn:E; [|discriminate];
  apply ensureOutputDirectory_Returned in E; subst;
  intros [= <-].

Section ListenerFacts.
  Context {host : Host}.
  Import Listener.

Lemma onTestFinish_suiteContext test result st :
  suiteContext (onTestFinish test result st)
  = match JsMap.get (or_root (parent_title test)) (suiteContext st) with
    | Some c =>
        JsMap.set (or_root (parent_title test))
          (count_test (result_status result) c) (suiteContext st)
    | None => suiteContext st
    end.
Proof.
  unfold onTestFinish. cbv zeta.
  destruct (JsMap.get _ (suiteContext st)); reflexivity.
Qed.

(** The part of [onTestEnd] that precedes the call of [onTestFinish]
    leaves the suites alone. *)
Lemma onTestEnd_suiteContext test result st :
  suiteContext (onTestEnd test result st)
  = suiteContext (onTestFinish test result st).
Proof.
  unfold onTestEnd. cbv zeta.
  rewrite !onTestFinish_suiteContext.
  destruct (JsMap.get (getTestId test) (executionContext st)); trivial.
  cbn [new_Date]. destruct (result_error result); reflexivity.
Qed.

Lemma counters_count_test status c :
  counters (count_test status c) = bucketed status (counters c).
Proof. destruct status; reflexivity. Qed.

(** C5.  When the suite that a test belongs to (its parent title, or
    'Root Suite' for an empty one) has a context, [onTestEnd] raises the
    total of that suite by one and exactly one of its three buckets by
    one: passed for 'passed', skipped for 'skipped', failed for 'failed',
    'timedOut' and 'interrupted'.  No other suite changes. *)
Theorem onTestEnd_counts_the_test_once test result st c :
  JsMap.get (or_root (parent_title test)) (suiteContext st) = Some c ->
  let st' := onTestEnd test result st in
  counters_of (or_root (parent_title test)) (suiteContext st')
  = Some (bucketed (result_status result) (counters c))
  /\ (forall other,
        other <> or_root (parent_title test) ->
        JsMap.get other (suiteContext st')
        = JsMap.get other (suiteContext st)).
Proof.
  intros G st'. subst st'.
  rewrite onTestEnd_suiteContext, onTestFinish_suiteContext, G.
  unfold counters_of. rewrite get_set_same. simpl.
  rewrite counters_count_test. split; trivial.
  intros other N. now apply get_set_other.
Qed.

(** A test that was never begun leaves [onTestEnd] with [onTestFinish]
    only. *)
Lemma onTestEnd_unknown test result st :
  JsMap.get (getTestId test) (executionContext st) = None ->
  onTestEnd test result st = onTestFinish test result st.
Proof. intros G. unfold onTestEnd. cbv zeta. now rewrite G. Qed.

Lemma onTestFinish_other_fields test result st :
  executionContext (onTestFinish test result st) = executionContext st
  /\ logged (onTestFinish test result st) = logged st
  /\ ticks (onTestFinish test result st) = ticks st.
Proof.
  unfold onTestFinish. cbv zeta.
  destruct (JsMap.get _ (suiteContext st)); repeat split.
Qed.

(** C6 (amended).  A [testEnd] for a key that [testBegin] never recorded
    returns without an exception, leaves the test contexts and the log
    untouched and changes no suite other than the one the test names as
    its parent; when that suite has no context either, the state stays as
    it is.  ([onTestFinish] runs outside the test of the context: a suite
    that has a context counts the test, begun or not.) *)
Theorem onTestEnd_of_a_test_never_begun test result st :
  JsMap.get (getTestId test) (executionContext st) = None ->
  exists st',
    handle (EvTestEnd test result) st = Returned st'
    /\ executionContext st' = executionContext st
    /\ logged st' = logged st
    /\ (forall other,
          other <> or_root (parent_title test) ->
          JsMap.get other (suiteContext st')
          = JsMap.get other (suiteContext st))
    /\ (JsMap.get (or_root (parent_title test)) (suiteContext st) = None ->
        st' = st).
Proof.
  intros G. exists (onTestEnd test result st). cbn [handle].
  rewrite (onTestEnd_unknown _ _ _ G).
  destruct (onTestFinish_other_fields test result st) as (E & L & _).
  repeat split; trivial.
  - intros other N. rewrite onTestFinish_suiteContext.
    destruct (JsMap.get (or_root _) (suiteContext st)); trivial.
    now apply get_set_other.
  - intros N. unfold onTestFinish. cbv zeta. now rewrite N.
Qed.

End ListenerFacts.

Section ListenerExamples.
  Import Listener.

Lemma onTestEnd_of_a_test_never_begun_witness :
  exists st',
    @handle sampleHost (EvTestEnd login_A passed_result)
      (create defaultListenerConfig) = Returned st'
    /\ executionContext st' = []
    /\ logged st' = []
    /\ (forall other,
          other <> or_root (parent_title login_A) ->
          JsMap.get other (suiteContext st') = None)
    /\ (JsMap.get (or_root (parent_title login_A))
          (suiteContext (create defaultListenerConfig)) = None ->
        st' = create defaultListenerConfig).
Proof.
  apply (@onTestEnd_of_a_test_never_begun sampleHost login_A passed_result
           (create defaultListenerConfig)).
  reflexivity.
Defined.

Lemma testEnd_never_begun_is_counted :
  let st := state_of (@onBegin sampleHost one_project login_tree
                        (create defaultListenerConfig)) in
  @onBegin sampleHost one_project login_tree (create defaultListenerConfig)
  = Returned st
  /\ JsMap.get (@getTestId login_A) (executionContext st) = None
  /\ counters_of (lit "Login") (suiteContext st) = Some (0, 0, 0, 0)%nat
  /\ @handle sampleHost (EvTestEnd login_A passed_result) st
     = Returned (@onTestEnd sampleHost login_A passed_result st)
  /\ counters_of (lit "Login")
       (suiteContext (@onTestEnd sampleHost login_A passed_result st))
     = Some (1, 1, 0, 0)%nat.
Proof. vm_compute. repeat split. Qed.

End ListenerExamples.

Section SuiteBookkeeping.
Context {host : Host}.
Import Listener.

Lemma Suite_forall_ind (P : Suite -> Prop) :
  (forall title children, Forall P children -> P (mkSuite title children)) ->
  forall s, P s.
Proof.
  intros H. fix IH 1. intros [title children]. apply H.
  induction children as [|c r IHr]; constructor; [apply IH | exact IHr].
Qed.

Lemma get_Some_keys {V} k (v : V) m :
  JsMap.get k m = Some v -> In k (JsMap.keys m).
Proof.
  intros G. destruct (in_dec (list_eq_dec N.eq_dec) k (JsMap.keys m)); trivial.
  apply get_None_keys in n. congruence.
Qed.

Lemma or_root_truthy t : truthy t = true -> or_root t = t.
Proof. unfold or_root. now intros ->. Qed.

Lemma truthy_nonempty t : truthy t = true <-> t <> [].
Proof. destruct t; simpl; split; congruence. Qed.

Lemma onTestSuiteStart_keys suite st k :
  In k (JsMap.keys (suiteContext (onTestSuiteStart suite st))) ->
  k = or_root (suite_title suite) \/ In k (JsMap.keys (suiteContext st)).
Proof.
  unfold onTestSuiteStart. cbn. apply In_keys_set.
Qed.

(** Suite initialisation adds contexts for titled suites of the tree only. *)
Lemma initializeSuites_keys suite : forall st k,
  In k (JsMap.keys (suiteContext (initializeSuites suite st))) ->
  In k (JsMap.keys (suiteContext st)) \/ (k <> [] /\ In k (titles suite)).
Proof.
  induction suite as [title children IH] using Suite_forall_ind.
  intros st k. cbn [initializeSuites titles].
  set (st1 := if truthy title then onTestSuiteStart (mkSuite title children) st
              else st).
  assert (H1 : forall k, In k (JsMap.keys (suiteContext st1)) ->
                 In k (JsMap.keys (suiteContext st))
                 \/ (k <> [] /\ In k [title])).
  { intros k0. unfold st1. destruct (truthy title) eqn:T; [|auto].
    intros H. apply onTestSuiteStart_keys in H. cbn [suite_title] in H.
    rewrite (or_root_truthy _ T) in H. destruct H as [->|H]; auto.
    right. split; [now apply truthy_nonempty | now left]. }
  change (title :: flat_map titles children)
    with ([title] ++ flat_map titles children).
  clearbody st1. revert st1 H1. generalize [title] as allowed.
  induction IH as [|c r Hc _ IHr]; intros allowed st1 H1;
    cbn [fold_left flat_map].
  - intros H. apply H1 in H. rewrite app_nil_r. exact H.
  - intros H. apply (IHr (allowed ++ titles c)) in H.
    + rewrite <- app_assoc in H. exact H.
    + intros k0 H0. apply Hc in H0. rewrite in_app_iff.
      destruct H0 as [H0|H0]; [apply H1 in H0|]; tauto.
Qed.
Lemma onBegin_keys config suite st st' k :
  onBegin config suite st = Returned st' ->
  In k (JsMap.keys (suiteContext st')) ->
  In k (JsMap.keys (suiteContext st)) \/ (k <> [] /\ In k (titles suite)).
Proof.
  onBegin_returned. intros H.
  apply initializeSuites_keys in H. exact H.
Qed.

Lemma onTestBegin_suiteContext test st :
  suiteContext (onTestBegin test st) = suiteContext st.
Proof. reflexivity. Qed.

Lemma onStepBegin_suiteContext test result step st :
  suiteContext (onStepBegin test result step st) = suiteContext st.
Proof.
  unfold onStepBegin. cbv zeta.
  destruct (JsMap.get _ (executionContext st)); reflexivity.
Qed.

Lemma onStepEnd_suiteContext test result step st :
  suiteContext (onStepEnd test result step st) = suiteContext st.
Proof.
  unfold onStepEnd. cbv zeta.
  destruct (JsMap.get _ (executionContext st)) as [context|]; trivial.
  destruct (find _ (tc_steps context)); reflexivity.
Qed.

Lemma onTestEnd_keys test result st :
  JsMap.keys (suiteContext (onTestEnd test result st))
  = JsMap.keys (suiteContext st).
Proof.
  rewrite onTestEnd_suiteContext, onTestFinish_suiteContext.
  destruct (JsMap.get _ (suiteContext st)) eqn:G; trivial.
  apply keys_set_present. eapply get_Some_keys; eassumption.
Qed.

Lemma summarize_suite_suiteContext name c st :
  exists c',
    suiteContext (summarize_suite (name, c) st)
    = JsMap.set name c' (suiteContext st)
    /\ counters c' = counters c.
Proof.
  unfold summarize_suite. cbn [new_Date]. cbv zeta.
  eexists. split.
  - destruct (0 <? _)%nat; reflexivity.
  - reflexivity.
Qed.

Lemma summarize_all_keys l : forall st,
  (forall e, In e l -> In (fst e) (JsMap.keys (suiteContext st))) ->
  JsMap.keys (suiteContext
                (fold_left (fun st entry => summarize_suite entry st) l st))
  = JsMap.keys (suiteContext st).
Proof.
  induction l as [|[name c] r IH]; intros st H; trivial.
  cbn [fold_left].
  destruct (summarize_suite_suiteContext name c st) as (c' & E & _).
  assert (K : JsMap.keys (suiteContext (summarize_suite (name, c) st))
              = JsMap.keys (suiteContext st)).
  { rewrite E. apply keys_set_present. apply (H (name, c)). now left. }
  rewrite IH; [exact K|].
  intros e He. rewrite K. apply H. now right.
Qed.

Lemma onTestSuiteFinish_keys st :
  JsMap.keys (suiteContext (onTestSuiteFinish st))
  = JsMap.keys (suiteContext st).
Proof.
  unfold onTestSuiteFinish. cbv zeta.
  destruct (JsMap.size (suiteContext st) =? 0)%nat; trivial.
  destruct (length _ =? 0)%nat; trivial.
  rewrite summarize_all_keys; trivial.
  intros e He. apply filter_In in He as [He _].
  cbn [suiteContext logger_info]. unfold JsMap.entries in He.
  unfold JsMap.keys. now apply in_map.
Qed.

Lemma onEnd_keys result st st' :
  onEnd result st = Returned st' ->
  JsMap.keys (suiteContext st') = JsMap.keys (suiteContext st).
Proof.
  unfold onEnd. cbn [new_Date]. cbv zeta.
  cbn [globalStartTime set_globalEndTime].
  destruct (globalStartTime st); [|discriminate].
  cbn [suiteContext logger_info set_globalEndTime].
  destruct (grandTotals (suiteContext st)) as [[[t p] f] s].
  intros [= <-]. rewrite onTestSuiteFinish_keys.
  destruct (0 <? t)%nat; reflexivity.
Qed.

Lemma handle_keys e st st' k :
  handle e st = Returned st' ->
  In k (JsMap.keys (suiteContext st')) ->
  In k (JsMap.keys (suiteContext st))
  \/ (k <> [] /\ In k (begun_titles [e])).
Proof.
  destruct e; cbn [handle]; try (intros [= <-]).
  - intros R H. apply (onBegin_keys _ _ _ _ _ R) in H.
    cbn [begun_titles flat_map]. rewrite app_nil_r. exact H.
  - rewrite onTestBegin_suiteContext. auto.
  - rewrite onStepBegin_suiteContext. auto.
  - rewrite onStepEnd_suiteContext. auto.
  - rewrite onTestEnd_keys. auto.
  - intros H. apply onEnd_keys in H. rewrite H. auto.
Qed.

(** The suite contexts of a run are keyed by non-empty titles of the suite
    trees that were handed to [onBegin]. *)
Lemma run_keys events : forall st st' k,
  run events st = Returned st' ->
  In k (JsMap.keys (suiteContext st')) ->
  In k (JsMap.keys (suiteContext st))
  \/ (k <> [] /\ In k (begun_titles events)).
Proof.
  induction events as [|e r IH]; intros st st' k; cbn [run].
  - intros [= <-]. auto.
  - destruct (handle e st) as [st1|st1 err] eqn:E; [|discriminate].
    intros R H. apply (IH _ _ _ R) in H.
    assert (B : begun_titles (e :: r) = begun_titles [e] ++ begun_titles r)
      by (unfold begun_titles; simpl; now rewrite app_nil_r).
    rewrite B, in_app_iff. destruct H as [H|H]; [|tauto].
    apply (handle_keys _ _ _ _ E) in H. tauto.
Qed.

(** C10 (amended).  In a run in which no suite handed to [onBegin] is
    titled 'Root Suite', every suite context is keyed by a non-empty title
    of those suite trees, the key 'Root Suite' is absent, and the end of a
    test whose parent has the empty title changes no suite context: the
    test enters no counter and no grand total. *)
Theorem test_under_untitled_suite_is_not_counted
    cfg events st test result :
  ~ In ROOT_SUITE (begun_titles events) ->
  run events (create cfg) = Returned st ->
  parent_title test = [] ->
  (forall k, In k (JsMap.keys (suiteContext st)) ->
     k <> [] /\ In k (begun_titles events))
  /\ JsMap.get ROOT_SUITE (suiteContext st) = None
  /\ suiteContext (onTestEnd test result st) = suiteContext st
  /\ grandTotals (suiteContext (onTestEnd test result st))
     = grandTotals (suiteContext st).
Proof.
  intros N R P.
  assert (K : forall k, In k (JsMap.keys (suiteContext st)) ->
                k <> [] /\ In k (begun_titles events)).
  { intros k H. apply (run_keys _ _ _ _ R) in H.
    destruct H as [[]|H]. exact H. }
  assert (G : JsMap.get ROOT_SUITE (suiteContext st) = None).
  { apply get_None_keys. intros H. apply K in H. tauto. }
  assert (S : suiteContext (onTestEnd test result st) = suiteContext st).
  { rewrite onTestEnd_suiteContext, onTestFinish_suiteContext, P.
    change (or_root []) with ROOT_SUITE. now rewrite G. }
  repeat split; try apply K; trivial. now rewrite S.
Qed.

End SuiteBookkeeping.

Section SuiteBookkeepingExamples.
Import Listener.

Lemma test_under_untitled_suite_is_not_counted_witness :
  (forall k,
     In k (JsMap.keys (suiteContext
             (@onTestBegin sampleHost untitled_parent_test
                (state_of (@onBegin sampleHost one_project login_tree
                   (create defaultListenerConfig)))))) ->
     k <> []
     /\ In k (begun_titles [EvBegin one_project login_tree;
                            EvTestBegin untitled_parent_test]))
  /\ JsMap.get ROOT_SUITE
       (suiteContext
          (@onTestBegin sampleHost untitled_parent_test
             (state_of (@onBegin sampleHost one_project login_tree
                (create defaultListenerConfig))))) = None
  /\ suiteContext
       (@onTestEnd sampleHost untitled_parent_test passed_result
          (@onTestBegin sampleHost untitled_parent_test
             (state_of (@onBegin sampleHost one_project login_tree
                (create defaultListenerConfig)))))
     = suiteContext
         (@onTestBegin sampleHost untitled_parent_test
            (state_of (@onBegin sampleHost one_project login_tree
               (create defaultListenerConfig))))
  /\ grandTotals
       (suiteContext
          (@onTestEnd sampleHost untitled_parent_test passed_result
             (@onTestBegin sampleHost untitled_parent_test
                (state_of (@onBegin sampleHost one_project login_tree
                   (create defaultListenerConfig))))))
     = grandTotals
         (suiteContext
            (@onTestBegin sampleHost untitled_parent_test
               (state_of (@onBegin sampleHost one_project login_tree
                  (create defaultListenerConfig))))).
Proof.
  apply (@test_under_untitled_suite_is_not_counted sampleHost
           defaultListenerConfig
           [EvBegin one_project login_tree; EvTestBegin untitled_parent_test]
           _ untitled_parent_test passed_result).
  - vm_compute. intros [H|[H|[]]]; discriminate H.
  - reflexivity.
  - reflexivity.
Defined.

Lemma test_under_untitled_suite_counted_in_named_root :
  let st := @onTestBegin sampleHost untitled_parent_test
              (state_of (@onBegin sampleHost one_project named_root_tree
                 (create defaultListenerConfig))) in
  @run sampleHost [EvBegin one_project named_root_tree;
                   EvTestBegin untitled_parent_test]
    (create defaultListenerConfig) = Returned st
  /\ parent_title untitled_parent_test = []
  /\ counters_of ROOT_SUITE (suiteContext st) = Some (0, 0, 0, 0)%nat
  /\ counters_of ROOT_SUITE
       (suiteContext
          (@onTestEnd sampleHost untitled_parent_test passed_result st))
     = Some (1, 1, 0, 0)%nat
  /\ grandTotals (suiteContext st) = (0, 0, 0, 0)%nat
  /\ grandTotals
       (suiteContext
          (@onTestEnd sampleHost untitled_parent_test passed_result st))
     = (1, 1, 0, 0)%nat.
Proof. vm_compute. repeat split. Qed.

End SuiteBookkeepingExamples.

Section StepFacts.
Context {host : Host}.
Import Listener.

Lemma find_first {A} (p : A -> bool) before found after :
  p found = true -> (forall s, In s before -> p s = false) ->
  find p (before ++ found :: after) = Some found.
Proof.
  intros F B. induction before as [|x r IH]; simpl.
  - now rewrite F.
  - rewrite (B x) by now left. apply IH. intros s H. apply B. now right.
Qed.

Lemma update_first_first {A} (p : A -> bool) f before found after :
  p found = true -> (forall s, In s before -> p s = false) ->
  update_first p f (before ++ found :: after) = before ++ f found :: after.
Proof.
  intros F B. induction before as [|x r IH]; simpl.
  - now rewrite F.
  - rewrite (B x) by now left. f_equal. apply IH.
    intros s H. apply B. now right.
Qed.

(** C1 (amended).  [onStepEnd] ends the first step in the list of the
    test, that is the earliest begun, that has the title and no end time:
    it sets the end time to the clock reading, the duration to end minus
    start, the status to failed exactly when the event carries an error,
    and the error text.  Steps behind it, open ones with the same title
    included, stay as they are. *)
Theorem onStepEnd_ends_the_earliest_open_step
    test result step st context before found after :
  JsMap.get (getTestId test) (executionContext st) = Some context ->
  tc_steps context = before ++ found :: after ->
  open_with_title (ts_title step) found = true ->
  (forall s, In s before -> open_with_title (ts_title step) s = false) ->
  let now := clock (ticks st) in
  let closed := end_step now (ts_error step) found in
  steps_of test (onStepEnd test result step st) = before ++ closed :: after
  /\ si_endTime closed = Some now
  /\ si_duration closed = Some (now - si_startTime found)%Z
  /\ si_status closed = match ts_error step with
                        | Some _ => step_failed
                        | None => step_passed
                        end
  /\ (forall e, ts_error step = Some e -> si_error closed = err_message e).
Proof.
  intros G E F B now closed.
  repeat split; try reflexivity.
  - unfold onStepEnd, steps_of. cbv zeta. rewrite G, E.
    rewrite (find_first _ _ _ _ F B). cbn [new_Date].
    cbn [executionContext logger_step logger_info set_executionContext].
    rewrite get_set_same. cbn [tc_steps with_steps].
    now rewrite (update_first_first _ _ _ _ _ F B).
  - intros e Ee. unfold closed, end_step. cbn [si_error]. now rewrite Ee.
Qed.

End StepFacts.

Section StepExamples.
Import Listener.

Lemma onStepEnd_ends_the_earliest_open_step_witness :
  let st := @onStepBegin sampleHost login_A passed_result fill_step
              (@onStepBegin sampleHost login_A passed_result fill_step
                 (@onTestBegin sampleHost login_A
                    (create defaultListenerConfig))) in
  exists first second,
    steps_of login_A st = [first; second]
    /\ steps_of login_A
         (@onStepEnd sampleHost login_A passed_result fill_step st)
       = [@end_step 30 None first; second].
Proof.
  cbv zeta. eexists. eexists. split; [reflexivity|].
  refine (proj1 (@onStepEnd_ends_the_earliest_open_step sampleHost login_A
                   passed_result fill_step _ _ [] _ [_] _ _ _ _)).
  - reflexivity.
  - reflexivity.
  - reflexivity.
  - intros s [].
Defined.

Lemma onStepEnd_leaves_the_latest_open_step :
  exists st st' first second,
    @run sampleHost two_open_fill_steps (create defaultListenerConfig)
    = Returned st
    /\ @handle sampleHost (EvStepEnd login_A passed_result fill_step) st
       = Returned st'
    /\ steps_of login_A st = [first; second]
    /\ open_with_title (lit "fill") first = true
    /\ open_with_title (lit "fill") second = true
    /\ (si_startTime first < si_startTime second)%Z
    /\ steps_of login_A st'
       = [@end_step 30 None first; second]
    /\ ~ ends_latest_open (lit "fill") (steps_of login_A st)
           (steps_of login_A st').
Proof.
  do 4 eexists.
  split; [vm_compute; reflexivity|]. split; [vm_compute; reflexivity|].
  split; [vm_compute; reflexivity|]. split; [vm_compute; reflexivity|].
  split; [vm_compute; reflexivity|]. split; [vm_compute; reflexivity|].
  split; [vm_compute; reflexivity|].
  intros (before & found & after & closed & E1 & O & A & E2 & C).
  vm_compute in E1, E2.
  destruct before as [|b1 [|b2 before]].
  - injection E1 as <- <-.
    specialize (A _ (or_introl eq_refl)). vm_compute in A. discriminate A.
  - injection E1 as <- <- <-. injection E2 as E2 _. discriminate E2.
  - apply (f_equal (@length _)) in E1. simpl in E1.
    rewrite length_app in E1. simpl in E1. lia.
Qed.

End StepExamples.

Section SummaryFacts.
Context {host : Host}.
Import Listener.

Lemma summarize_suite_logged name c st :
  logged (summarize_suite (name, c) st)
  = logged st ++ suite_block name c (clock (ticks st) - sc_startTime c)%Z
  /\ ticks (summarize_suite (name, c) st) = S (ticks st).
Proof.
  unfold summarize_suite, suite_block. cbn [new_Date]. cbv zeta.
  cbn [sc_failed sc_startTime].
  destruct (0 <? sc_failed c)%nat;
    cbn [logged ticks logger_info set_suiteContext];
    rewrite <- ?app_assoc; split; reflexivity.
Qed.

Lemma summarize_all_logged l : forall st,
  logged (fold_left (fun st entry => summarize_suite entry st) l st)
  = logged st ++ summary_blocks (ticks st) l.
Proof.
  induction l as [|[name c] r IH]; intros st; cbn [fold_left summary_blocks].
  - now rewrite app_nil_r.
  - destruct (summarize_suite_logged name c st) as (L & T).
    rewrite IH, L, T, <- app_assoc. reflexivity.
Qed.

Lemma summary_blocks_block l : forall t name c,
  In (name, c) l ->
  exists pre duration post,
    summary_blocks t l = pre ++ suite_block name c duration ++ post.
Proof.
  induction l as [|[n0 c0] r IH]; intros t name c; [intros []|].
  intros [E|H]; cbn [summary_blocks].
  - injection E as -> ->. exists [], (clock t - sc_startTime c)%Z.
    eexists. reflexivity.
  - destruct (IH (S t) _ _ H) as (pre & d & post & E).
    exists (suite_block n0 c0 (clock t - sc_startTime c0)%Z ++ pre), d, post.
    rewrite E, <- app_assoc. reflexivity.
Qed.

Lemma msg_suite_completed_inj a b :
  msg_suite_completed a = msg_suite_completed b -> a = b.
Proof.
  unfold msg_suite_completed. intros H.
  apply app_inv_head in H. now apply app_inv_head in H.
Qed.

Lemma suite_block_completed name c duration call n :
  In call (suite_block name c duration) ->
  call_message call = msg_suite_completed n -> n = name.
Proof.
  unfold suite_block. rewrite !in_app_iff. intros H E.
  destruct H as [H|[H|H]].
  - simpl in H. destruct H as [<-|[<-|[]]].
    + symmetry. now apply msg_suite_completed_inj.
    + cbn in E. discriminate E.
  - revert H. destruct (0 <? sc_failed c)%nat; intros H; simpl in H;
      [|contradiction].
    destruct H as [<-|[]]. cbn in E. discriminate E.
  - simpl in H. destruct H as [<-|[]]. cbn in E. discriminate E.
Qed.

Lemma summary_blocks_completed l : forall t call n,
  In call (summary_blocks t l) ->
  call_message call = msg_suite_completed n ->
  exists c, In (n, c) l.
Proof.
  induction l as [|[n0 c0] r IH]; intros t call n; [intros []|].
  cbn [summary_blocks]. intros H E. apply in_app_or in H.
  destruct H as [H|H].
  - rewrite (suite_block_completed _ _ _ _ _ H E). exists c0. now left.
  - destruct (IH _ _ _ H E) as [c Hc]. exists c. now right.
Qed.

End SummaryFacts.

Section SummaryReachability.
Context {host : Host}.
Import Listener.

Lemma onTestSuiteStart_NoDup suite st :
  NoDup (JsMap.keys (suiteContext st)) ->
  NoDup (JsMap.keys (suiteContext (onTestSuiteStart suite st))).
Proof. intros N. unfold onTestSuiteStart. cbn. now apply NoDup_keys_set. Qed.

Lemma initializeSuites_NoDup suite : forall st,
  NoDup (JsMap.keys (suiteContext st)) ->
  NoDup (JsMap.keys (suiteContext (initializeSuites suite st))).
Proof.
  induction suite as [title children IH] using Suite_forall_ind.
  intros st N. cbn [initializeSuites].
  set (st1 := if truthy title then onTestSuiteStart (mkSuite title children) st
              else st).
  assert (N1 : NoDup (JsMap.keys (suiteContext st1))).
  { unfold st1. destruct (truthy title); trivial.
    now apply onTestSuiteStart_NoDup. }
  clearbody st1. revert st1 N1.
  induction IH as [|c r Hc _ IHr]; intros st1 N1; cbn [fold_left]; auto.
Qed.

Lemma handle_NoDup e st st' :
  handle e st = Returned st' ->
  NoDup (JsMap.keys (suiteContext st)) ->
  NoDup (JsMap.keys (suiteContext st')).
Proof.
  destruct e; cbn [handle]; try (intros [= <-]).
  - onBegin_returned. intros N.
    now apply initializeSuites_NoDup.
  - now rewrite onTestBegin_suiteContext.
  - now rewrite onStepBegin_suiteContext.
  - now rewrite onStepEnd_suiteContext.
  - now rewrite onTestEnd_keys.
  - intros H. apply onEnd_keys in H. now rewrite H.
Qed.

(** In every state that a run reaches, the suite contexts have distinct
    keys, as the entries of a [Map] do. *)
Lemma run_NoDup events : forall st st',
  run events st = Returned st' ->
  NoDup (JsMap.keys (suiteContext st)) ->
  NoDup (JsMap.keys (suiteContext st')).
Proof.
  induction events as [|e r IH]; intros st st'; cbn [run].
  - now intros [= <-].
  - destruct (handle e st) as [st1|st1 err] eqn:E; [|discriminate].
    intros R N. apply (IH _ _ R). eapply handle_NoDup; eassumption.
Qed.

End SummaryReachability.

Section SummaryExamples.
Import Listener.

(** The summary of the sample: the suite "Login" with its warning, and no
    line for the suite "Empty". *)
Example summary_of_the_sample :
  map call_message (logged (@onTestSuiteFinish sampleHost summary_sample))
  = [CLIPBOARD ++ lit " Test Suite Summary:";
     bar_single;
     CLIPBOARD ++ lit " Suite completed: Login";
     CHART ++ lit " Total: 2, Passed: 1, Failed: 1, Skipped: 0, Duration: 0ms";
     CROSS ++ lit " Suite had 1 failed test(s)";
     []].
Proof. vm_compute. reflexivity. Qed.

(** The scenario of the specification: one suite, one test with one step,
    all passed. *)
Example login_scenario :
  exists st,
    @run sampleHost
      [EvBegin one_project login_tree;
       EvTestBegin login_A;
       EvStepBegin login_A passed_result fill_step;
       EvStepEnd login_A passed_result fill_step;
       EvTestEnd login_A passed_result;
       EvEnd run_passed]
      (create defaultListenerConfig) = Returned st
    /\ counters_of (lit "Login") (suiteContext st) = Some (1, 1, 0, 0)%nat
    /\ In (CHART ++ lit " Total: 1, Passed: 1, Failed: 0, Skipped: 0, Duration: 60ms")
         (map call_message (logged st)).
Proof.
  eexists. split; [vm_compute; reflexivity|].
  split; [vm_compute; reflexivity|].
  vm_compute. tauto.
Qed.

End SummaryExamples.

Section CountingExamples.
Import Listener.

Lemma onTestEnd_counts_the_test_once_witness :
  counters_of (or_root (parent_title login_A))
    (suiteContext (@onTestEnd sampleHost login_A timed_out_result
                     login_A_begun))
  = Some (1, 0, 1, 0)%nat
  /\ (forall other,
        other <> or_root (parent_title login_A) ->
        JsMap.get other
          (suiteContext (@onTestEnd sampleHost login_A timed_out_result
                           login_A_begun))
        = JsMap.get other (suiteContext login_A_begun)).
Proof.
  refine (@onTestEnd_counts_the_test_once sampleHost login_A timed_out_result
            login_A_begun
            {| sc_suiteName := lit "Login"; sc_startTime := 10;
               sc_endTime := None; sc_duration := None; sc_tests := [];
               sc_passed := 0; sc_failed := 0; sc_skipped := 0;
               sc_total := 0 |} _).
  vm_compute. reflexivity.
Defined.

End CountingExamples.

Section NormalizeMore.

Lemma normalizeMessage_squeezed cfg s :
  normalizeMessage cfg s = substring0 (maxLineLength cfg) (squeezed s).
Proof. reflexivity. Qed.

Lemma non_ws_app a b : non_ws (a ++ b) = non_ws a ++ non_ws b.
Proof. apply filter_app. Qed.

Lemma non_ws_rev s : non_ws (rev s) = rev (non_ws s).
Proof.
  induction s as [|c r IH]; trivial.
  simpl rev. rewrite non_ws_app, IH. simpl.
  destruct (is_ws c); simpl; [now rewrite app_nil_r | reflexivity].
Qed.

Lemma non_ws_trimStart s : non_ws (trimStart s) = non_ws s.
Proof.
  induction s as [|c r IH]; trivial. simpl.
  destruct (is_ws c) eqn:W; simpl; rewrite ?W; trivial.
Qed.

Lemma non_ws_trimEnd s : non_ws (trimEnd s) = non_ws s.
Proof.
  unfold trimEnd. now rewrite non_ws_rev, non_ws_trimStart, non_ws_rev,
    rev_involutive.
Qed.

Lemma non_ws_trim s : non_ws (trim s) = non_ws s.
Proof. unfold trim. now rewrite non_ws_trimEnd, non_ws_trimStart. Qed.

Lemma replace_crlf_cons2 c d r :
  replace_crlf (c :: d :: r)
  = if (c =? CR) && (d =? LF) then SP :: replace_crlf r
    else c :: replace_crlf (d :: r).
Proof. reflexivity. Qed.

Lemma replace_crlf_facts n : forall s, (length s <= n)%nat ->
  non_ws (replace_crlf s) = non_ws s
  /\ (length (replace_crlf s) <= length s)%nat.
Proof.
  induction n as [|n IH]; intros s L.
  - destruct s; [split; trivial | simpl in L; lia].
  - destruct s as [|c [|d r']]; [split; trivial | split; trivial |].
    rewrite replace_crlf_cons2.
    destruct ((c =? CR) && (d =? LF)) eqn:E.
    + apply andb_prop in E as [Ec Ed].
      apply N.eqb_eq in Ec, Ed. subst c d.
      destruct (IH r') as [F Ln]; [simpl in L; lia|].
      split; [exact F | simpl; lia].
    + destruct (IH (d :: r')) as [F Ln]; [simpl in *; lia|].
      split.
      * change (non_ws (c :: replace_crlf (d :: r')))
          with (non_ws ([c] ++ replace_crlf (d :: r'))).
        change (non_ws (c :: d :: r')) with (non_ws ([c] ++ d :: r')).
        now rewrite !non_ws_app, F.
      * simpl in *. lia.
Qed.

Lemma non_ws_replace_char a s :
  is_ws a = true -> non_ws (replace_char a s) = non_ws s.
Proof.
  intros Wa. unfold replace_char.
  induction s as [|c r IH]; trivial. simpl.
  destruct (N.eqb_spec c a) as [->|_]; rewrite IH; trivial.
  rewrite Wa. reflexivity.
Qed.

Lemma collapse_from_facts s : forall b,
  non_ws (collapse_from b s) = non_ws s
  /\ (length (collapse_from b s) <= length s)%nat.
Proof.
  induction s as [|c r IH]; intros b; [split; trivial|]. simpl.
  destruct (is_ws c) eqn:W.
  - destruct b; [destruct (IH true); split; [trivial | lia]|].
    destruct (IH true). split; simpl; [trivial | lia].
  - destruct (IH false). simpl. rewrite W. simpl. split; [congruence | lia].
Qed.

Lemma length_trimStart s : (length (trimStart s) <= length s)%nat.
Proof.
  destruct (trimStart_suffix s) as [p Hp].
  rewrite Hp at 2. rewrite length_app. lia.
Qed.

Lemma length_trim s : (length (trim s) <= length s)%nat.
Proof.
  unfold trim. pose proof (length_trimEnd (trimStart s)).
  pose proof (length_trimStart s). lia.
Qed.

Lemma squeezed_facts s :
  non_ws (squeezed s) = non_ws s /\ (length (squeezed s) <= length s)%nat.
Proof.
  unfold squeezed. split.
  - rewrite non_ws_trim. unfold collapse_ws.
    rewrite (proj1 (collapse_from_facts _ _)).
    rewrite !non_ws_replace_char by reflexivity.
    rewrite (proj1 (replace_crlf_facts _ _ (le_n _))).
    apply non_ws_trim.
  - eapply Nat.le_trans; [apply length_trim|].
    unfold collapse_ws.
    eapply Nat.le_trans; [apply collapse_from_facts|].
    unfold replace_char. rewrite !length_map.
    eapply Nat.le_trans; [apply (replace_crlf_facts _ _ (le_n _))|].
    apply length_trim.
Qed.


(** X2.  From the second application on the result is stable. *)
Theorem normalizeMessage_stable_after_two cfg s :
  let once := normalizeMessage cfg s in
  let twice := normalizeMessage cfg once in
  twice = trimEnd once /\ normalizeMessage cfg twice = twice.
Proof.
  cbv zeta. rewrite normalizeMessage_twice. split; trivial.
  destruct (normalizeMessage_shape cfg s) as (T & H & L).
  rewrite normalizeMessage_tidy.
  - apply trimEnd_id, last_not_ws_trimEnd.
  - now apply tidy_trimEnd.
  - now apply head_not_ws_trimEnd.
  - pose proof (length_trimEnd (normalizeMessage cfg s)). lia.
Qed.

Lemma non_ws_nil_iff s : non_ws s = [] <-> Forall (fun c => is_ws c = true) s.
Proof.
  induction s as [|c r IH]; simpl.
  - split; [constructor | trivial].
  - destruct (is_ws c) eqn:W; simpl.
    + rewrite IH. split; [now constructor | now inversion 1].
    + split; [discriminate | inversion 1; congruence].
Qed.

Lemma squeezed_nil_iff s :
  squeezed s = [] <-> Forall (fun c => is_ws c = true) s.
Proof.
  rewrite <- non_ws_nil_iff, <- (proj1 (squeezed_facts s)). split.
  - now intros ->.
  - intros H. destruct (trim_collapse_shape
      (replace_char TAB (replace_char LF (replace_char CR
         (replace_crlf (trim s)))))) as (_ & Hd & _).
    fold (squeezed s) in Hd.
    destruct (squeezed s) as [|c r]; trivial.
    simpl in *. apply negb_true_iff in Hd. rewrite Hd in H. discriminate H.
Qed.

(** X3.  The normalized message is empty exactly when the message consists of
    white space only or the line length is not positive. *)
Theorem normalizeMessage_empty_iff cfg s :
  normalizeMessage cfg s = []
  <-> (maxLineLength cfg <= 0)%Z \/ Forall (fun c => is_ws c = true) s.
Proof.
  rewrite normalizeMessage_squeezed, <- squeezed_nil_iff. unfold substring0.
  split.
  - intros H. destruct (Z.to_nat (maxLineLength cfg)) eqn:E; [left; lia|].
    right. destruct (squeezed s); [trivial | discriminate H].
  - intros [H| ->].
    + replace (Z.to_nat (maxLineLength cfg)) with 0%nat by lia. reflexivity.
    + apply firstn_nil.
Qed.

End NormalizeMore.


Section LoggerMore.
Context {host : Host}.

Lemma merge_override g p q : merge (merge g p) q = merge g (override p q).
Proof.
  destruct g, p as [a b c d e f h], q as [a' b' c' d' e' f' h'].
  unfold merge, override. cbn.
  destruct a', b', c', d', e', f', h'; reflexivity.
Qed.

(** X4.  Two calls of [configure] leave the configuration that one call with
    the second partial configuration laid over the first leaves. *)
Theorem configure_twice p q st :
  globalConfig (configure q (configure p st))
  = globalConfig (configure (override p q) st).
Proof.
  assert (G : forall c s, globalConfig (configure c s)
                          = merge (globalConfig s) c).
  { intros c s. unfold configure. cbv zeta.
    destruct (enableFileLogging _ && negb _); trivial.
    destruct require_fs; reflexivity. }
  rewrite !G. apply merge_override.
Qed.

Lemma log_fs ctx lvl msg meta st : fs (log ctx lvl msg meta st) = fs st.
Proof.
  destruct (passes (globalConfig st) lvl) eqn:P.
  - rewrite (log_unfold _ _ _ _ _ P). cbv zeta. cbn [fs set_logBuffer].
    unfold writeToFile.
    destruct (negb _ || negb _); trivial.
    destruct (appendFileSync _ _ _); reflexivity.
  - now rewrite (log_below _ _ _ _ _ P).
Qed.

Lemma configure_fs c st :
  fs (configure c st)
  = fs st || (enableFileLogging (merge (globalConfig st) c) && require_fs).
Proof.
  unfold configure. cbv zeta. cbn [globalConfig fs set_globalConfig].
  destruct (enableFileLogging _); destruct (fs st) eqn:F;
    destruct require_fs;
    cbn [andb orb negb fs set_fs set_globalConfig console_call];
    rewrite ?F; reflexivity.
Qed.

Lemma apply_op_fs op st :
  fs (apply_op op st) = true <->
  fs st = true
  \/ (exists c, op = OpConfigure c
                /\ enableFileLogging (merge (globalConfig st) c) = true
                /\ require_fs = true).
Proof.
  destruct op as [c|c|n|]; cbn [apply_op].
  - rewrite configure_fs, orb_true_iff, andb_true_iff. split.
    + intros [H|[H1 H2]]; [now left | right; eauto].
    + intros [H|(c' & E & H1 & H2)]; [now left|].
      injection E as <-. now right.
  - unfold do_call. rewrite log_fs. split; [now left|].
    intros [H|(c' & E & _)]; [exact H | discriminate E].
  - split; [now left|]. intros [H|(c' & E & _)]; [exact H | discriminate E].
  - cbn. split; [now left|].
    intros [H|(c' & E & _)]; [exact H | discriminate E].
Qed.

(** X5.  The [fs] module, once acquired, is held for good, and it is acquired
    by nothing but a [configure] that finds file logging enabled and the
    module available. *)
Theorem fs_acquired_once ops : forall st,
  (fs st = true -> fs (run_ops ops st) = true)
  /\ (fs (run_ops ops st) = true ->
      fs st = true
      \/ (require_fs = true /\ exists c, In (OpConfigure c) ops)).
Proof.
  induction ops as [|op r IH]; intros st; cbn [run_ops fold_left].
  - split; auto.
  - fold (run_ops r (apply_op op st)).
    destruct (IH (apply_op op st)) as [A B]. split.
    + intros H. apply A. apply apply_op_fs. now left.
    + intros H. apply B in H. destruct H as [H|(R & c & H)].
      * apply apply_op_fs in H. destruct H as [H|(c & -> & _ & R)]; auto.
        right. split; trivial. exists c. now left.
      * right. split; trivial. exists c. now right.
Qed.

Lemma configure_warns c st :
  require_fs = false ->
  enableFileLogging (merge (globalConfig st) c) = true ->
  fs st = false ->
  console (configure c st)
  = console st ++ [ConsoleWarn (lit "File system not available for logging")]
  /\ fs (configure c st) = false.
Proof.
  intros R E F. unfold configure. cbv zeta.
  cbn [globalConfig fs set_globalConfig]. rewrite E, F, R.
  cbn [andb negb fs console set_globalConfig console_call].
  split; [reflexivity | exact F].
Qed.

(** X6.  While the [fs] module cannot be loaded, every [configure] that leaves
    file logging enabled tries again and warns again. *)
Theorem configure_warns_every_time ps : forall st,
  require_fs = false ->
  fs st = false ->
  enableFileLogging (globalConfig st) = true ->
  Forall (fun p => p_enableFileLogging p <> Some false) ps ->
  console_warnings (fold_left (fun st p => configure p st) ps st)
  = console_warnings st
      ++ repeat (lit "File system not available for logging") (length ps).
Proof.
  induction ps as [|p r IH]; intros st R F E H; cbn [fold_left length repeat].
  - now rewrite app_nil_r.
  - inversion H as [|? ? Hp Hr]; subst.
    assert (E' : enableFileLogging (merge (globalConfig st) p) = true).
    { cbn. destruct (p_enableFileLogging p) as [[|]|]; trivial.
      now elim Hp. }
    destruct (configure_warns p st R E' F) as [C F'].
    rewrite IH; trivial.
    + unfold console_warnings at 1. rewrite C, flat_map_app. cbn.
      rewrite <- app_assoc. reflexivity.
    + unfold configure. cbv zeta. cbn [globalConfig fs set_globalConfig].
      rewrite E', F, R. cbn [andb negb]. exact E'.
Qed.

End LoggerMore.

Lemma configure_warns_every_time_witness :
  console_warnings
    (fold_left (fun st p => @configure hostWithoutFs p st)
       [only_level DEBUG; file_logging_on]
       (@configure hostWithoutFs file_logging_on (@initial hostWithoutFs tt)))
  = console_warnings
      (@configure hostWithoutFs file_logging_on (@initial hostWithoutFs tt))
      ++ repeat (lit "File system not available for logging") 2.
Proof.
  apply (@configure_warns_every_time hostWithoutFs
           [only_level DEBUG; file_logging_on]).
  - reflexivity.
  - reflexivity.
  - reflexivity.
  - repeat constructor; discriminate.
Defined.

Section LoggerSinks.
Context {host : Host}.

Lemma log_emitted_state ctx lvl msg meta st :
  passes (globalConfig st) lvl = true ->
  let e := entry_of (globalConfig st) (ticks st)
             {| call_context := ctx; call_level := lvl;
                call_msg := msg; call_meta := meta |} in
  let st' := log ctx lvl msg meta st in
  fs st' = fs st
  /\ disk st'
     = disk (writeToFile e
               (console_call (ConsoleLog (formatMessage (globalConfig st) e))
                  (snd (new_Date st))))
  /\ console st'
     = console (writeToFile e
                  (console_call
                     (ConsoleLog (formatMessage (globalConfig st) e))
                     (snd (new_Date st)))).
Proof.
  intros P e st'. subst st'. split; [apply log_fs|].
  rewrite (log_unfold _ _ _ _ _ P). split; reflexivity.
Qed.

Lemma do_call_config c st : globalConfig (do_call c st) = globalConfig st.
Proof.
  unfold do_call. destruct (passes (globalConfig st) (call_level c)) eqn:P.
  - apply (log_above _ _ _ _ _ P).
  - now rewrite (log_below _ _ _ _ _ P).
Qed.

(** X7.  With file logging switched off, or without the [fs] module, no call
    touches the file system or [console.error]: the console receives the
    formatted lines and nothing else. *)
Theorem run_calls_without_file_sink cs : forall st,
  enableFileLogging (globalConfig st) = false \/ fs st = false ->
  disk (run_calls cs st) = disk st
  /\ console (run_calls cs st)
     = console st
         ++ map (fun e => ConsoleLog (formatMessage (globalConfig st) e))
              (entries_from (globalConfig st) (ticks st) cs).
Proof.
  induction cs as [|c r IH]; intros st H; cbn [run_calls fold_left].
  - simpl. now rewrite app_nil_r.
  - fold (run_calls r (do_call c st)).
    cbn [entries_from].
    destruct (passes (globalConfig st) (call_level c)) eqn:P.
    + destruct c as [cc cl cm cme].
      cbn [call_context call_level call_msg call_meta] in *.
      destruct (log_emitted_state cc cl cm cme st P) as (F & D & C).
      destruct (log_above cc cl cm cme st P) as (G & T & _ & _).
      cbv zeta in *.
      assert (W : forall e s, fs s = fs st ->
                    globalConfig s = globalConfig st ->
                    writeToFile e s = s).
      { intros e s Fs Gs. unfold writeToFile. rewrite Fs, Gs.
        destruct H as [-> | ->];
          [reflexivity | cbn [negb]; rewrite orb_true_r; reflexivity]. }
      rewrite W in D, C by reflexivity.
      unfold do_call at 1 2. cbn [call_context call_level call_msg call_meta].
      destruct (IH (log cc cl cm cme st)) as [D' C'].
      { rewrite G, F. exact H. }
      rewrite D', C', D, C, G, T. split; trivial.
      cbn [console console_call new_Date snd map].
      now rewrite <- app_assoc.
    + unfold do_call at 1 2. rewrite (log_below _ _ _ _ _ P). now apply IH.
Qed.

(** X8.  When every append to the log file fails, logging goes on as before:
    each emitted call still prints its line, and each one reports the
    failure on [console.error] (as often as calls are emitted) and leaves
    the file system alone. *)
Theorem run_calls_with_failing_file cs : forall st,
  (forall path line d, exists err, appendFileSync path line d = inr err) ->
  enableFileLogging (globalConfig st) = true ->
  fs st = true ->
  disk (run_calls cs st) = disk st
  /\ length (console_errors (run_calls cs st))
     = (length (console_errors st)
        + length (entries_from (globalConfig st) (ticks st) cs))%nat
  /\ console_lines (run_calls cs st)
     = console_lines st
         ++ map (formatMessage (globalConfig st))
              (entries_from (globalConfig st) (ticks st) cs).
Proof.
  intros st A E F. split; [|split].
  2: {
    revert st E F.
    induction cs as [|c r IH]; intros st E F; cbn [run_calls fold_left].
    - simpl. lia.
    - fold (run_calls r (do_call c st)). cbn [entries_from].
      destruct (passes (globalConfig st) (call_level c)) eqn:P.
      + destruct c as [cc cl cm cme].
        cbn [call_context call_level call_msg call_meta] in *.
        destruct (log_emitted_state cc cl cm cme st P) as (F' & _ & C).
        destruct (log_above cc cl cm cme st P) as (G & T & _ & _).
        cbv zeta in *.
        unfold do_call at 1. cbn [call_context call_level call_msg call_meta].
        rewrite IH by (rewrite ?G, ?F'; assumption).
        rewrite G, T. cbn [length].
        unfold console_errors at 1. rewrite C.
        unfold writeToFile. cbn [globalConfig fs console_call new_Date snd].
        rewrite E, F. cbn [negb orb].
        match goal with |- context [appendFileSync ?p ?l ?d] =>
          destruct (A p l d) as [err ->] end.
        cbn [console console_call]. rewrite !flat_map_app. cbn.
        rewrite !length_app. cbn. unfold console_errors. lia.
      + unfold do_call at 1. rewrite (log_below _ _ _ _ _ P). now apply IH.
  }
  - revert st E F.
    induction cs as [|c r IH]; intros st E F; cbn [run_calls fold_left];
      trivial.
    fold (run_calls r (do_call c st)).
    destruct (passes (globalConfig st) (call_level c)) eqn:P.
    + destruct c as [cc cl cm cme].
      cbn [call_context call_level call_msg call_meta] in *.
      destruct (log_emitted_state cc cl cm cme st P) as (F' & D & _).
      destruct (log_above cc cl cm cme st P) as (G & _ & _ & _).
      cbv zeta in *.
      unfold do_call at 1. cbn [call_context call_level call_msg call_meta].
      rewrite IH by (rewrite ?G, ?F'; assumption). rewrite D.
      unfold writeToFile. cbn [globalConfig fs console_call new_Date snd].
      rewrite E, F. cbn [negb orb].
      match goal with |- context [appendFileSync ?p ?l ?d] =>
        destruct (A p l d) as [err ->] end.
      reflexivity.
    + unfold do_call at 1. rewrite (log_below _ _ _ _ _ P). now apply IH.
  - apply run_calls_spec.
Qed.

(** X9.  [getRecentLogs(count)] for every integral count: the last [count]
    entries (all of them when there are fewer) for a positive count; for
    0 and for a negative count the buffer without its first [-count]
    entries. *)
Theorem getRecentLogs_spec count st :
  getRecentLogs count st
  = if (0 <? count)%Z then lastn (Z.to_nat count) (logBuffer st)
    else skipn (Z.to_nat (- count)) (logBuffer st).
Proof.
  destruct (Z.ltb_spec 0 count) as [H|H].
  - now apply getRecentLogs_positive.
  - unfold getRecentLogs, slice_from.
    destruct (Z.ltb_spec (- count) 0); [lia|].
    destruct (Z.le_gt_cases (- count) (Z.of_nat (length (logBuffer st)))).
    + now rewrite Z.min_l.
    + rewrite Z.min_r, Nat2Z.id by lia.
      rewrite !skipn_all2; trivial; try lia.
Qed.

Lemma last_push_evict e b : lastn 1 (push_evict e b) = [e].
Proof.
  unfold push_evict, lastn.
  assert (X : forall l : list LogEntry,
            skipn (length (l ++ [e]) - 1) (l ++ [e]) = [e]).
  { intros l. rewrite length_app. simpl.
    replace (length l + 1 - 1)%nat with (length l) by lia.
    rewrite skipn_app, skipn_all, Nat.sub_diag. reflexivity. }
  destruct (1000 <? length (b ++ [e]))%nat eqn:F; [|apply X].
  destruct b as [|x b']; [discriminate F|]. apply (X b').
Qed.

(** X10.  What an emitted call has stored is what [getRecentLogs(1)] returns
    next, whatever the buffer held before. *)
Theorem getRecentLogs_after_log ctx lvl msg meta st :
  passes (globalConfig st) lvl = true ->
  getRecentLogs 1 (log ctx lvl msg meta st)
  = [{| timestamp := clock (ticks st);
        entry_level := lvl;
        message := normalizeMessage (globalConfig st) msg;
        entry_context := ctx;
        metadata := meta |}].
Proof.
  intros P. rewrite getRecentLogs_positive by lia.
  destruct (log_above ctx lvl msg meta st P) as (_ & _ & _ & B).
  cbv zeta in B. rewrite B. apply last_push_evict.
Qed.

Lemma Forall_tl {A} (P : A -> Prop) l : Forall P l -> Forall P (tl l).
Proof. destruct 1; simpl; trivial. Qed.

Lemma apply_op_tidy op st :
  Forall (fun e => tidy (message e) = true) (logBuffer st) ->
  Forall (fun e => tidy (message e) = true) (logBuffer (apply_op op st)).
Proof.
  intros H. destruct op as [c|c|n|]; cbn [apply_op]; trivial.
  - now rewrite configure_logBuffer.
  - unfold do_call.
    destruct (passes (globalConfig st) (call_level c)) eqn:P.
    + destruct (log_above (call_context c) _ (call_msg c) (call_meta c) _ P)
        as (_ & _ & _ & B).
      cbv zeta in B. rewrite B. unfold push_evict.
      assert (X : Forall (fun e => tidy (message e) = true)
                    (logBuffer st ++
                     [entry_of (globalConfig st) (ticks st)
                        {| call_context := call_context c;
                           call_level := call_level c;
                           call_msg := call_msg c;
                           call_meta := call_meta c |}])).
      { apply Forall_app. split; trivial. constructor; [|constructor].
        apply normalizeMessage_shape. }
      destruct (1000 <? _)%nat; [now apply Forall_tl | exact X].
    + now rewrite (log_below _ _ _ _ _ P).
Qed.

(** X11.  Whatever is done with the logger, every message in the buffer is free
    of line breaks and tabs and of double spaces. *)
Theorem buffered_messages_are_single_lines d ops :
  Forall (fun e => only_plain_spaces (message e)
                   /\ no_double_space (message e))
    (logBuffer (run_ops ops (initial d))).
Proof.
  assert (G : forall st,
            Forall (fun e => tidy (message e) = true) (logBuffer st) ->
            Forall (fun e => tidy (message e) = true)
              (logBuffer (run_ops ops st))).
  { induction ops as [|op r IH]; intros st H; trivial.
    cbn [run_ops fold_left]. apply IH. now apply apply_op_tidy. }
  pose proof (G (initial d) (Forall_nil _)) as H.
  eapply Forall_impl; [|exact H].
  intros e T. split;
    [now apply tidy_only_plain_spaces | now apply tidy_no_double_space].
Qed.

End LoggerSinks.

Section SshAndReplay.
Context {host : Host}.

Lemma debug_config ctx msg meta st :
  globalConfig (debug ctx msg meta st) = globalConfig st.
Proof.
  exact (do_call_config {| call_context := ctx; call_level := DEBUG;
                           call_msg := msg; call_meta := meta |} st).
Qed.

Lemma sshCommand_run_calls ctx cmd result st :
  sshCommand ctx cmd result st
  = run_calls (ssh_calls (globalConfig st) ctx cmd result) st.
Proof.
  unfold sshCommand, ssh_calls, run_calls. cbv zeta.
  destruct result as [[stdout stderr]|]; [|reflexivity].
  cbn [fold_left]. unfold do_call at 2.
  cbn [call_context call_level call_msg call_meta].
  fold (debug ctx (lit "SSH Command: " ++ cmd) None st).
  set (st1 := debug ctx (lit "SSH Command: " ++ cmd) None st).
  assert (G1 : globalConfig st1 = globalConfig st) by apply debug_config.
  destruct (Listener.truthy stdout); destruct (Listener.truthy stderr);
    cbn [app fold_left]; unfold do_call;
    cbn [call_context call_level call_msg call_meta];
    rewrite ?debug_config, ?G1; reflexivity.
Qed.

Lemma run_calls_all_below cs : forall st,
  Forall (fun c => passes (globalConfig st) (call_level c) = false) cs ->
  run_calls cs st = st.
Proof.
  induction cs as [|c r IH]; intros st H; trivial.
  inversion H as [|? ? Hc Hr]; subst.
  cbn [run_calls fold_left]. fold (run_calls r (do_call c st)).
  unfold do_call. rewrite (log_below _ _ _ _ _ Hc). now apply IH.
Qed.

Lemma entries_from_all_pass cfg cs : forall t,
  Forall (fun c => passes cfg (call_level c) = true) cs ->
  length (entries_from cfg t cs) = length cs
  /\ map message (entries_from cfg t cs)
     = map (fun c => normalizeMessage cfg (call_msg c)) cs.
Proof.
  induction cs as [|c r IH]; intros t H; [split; trivial|].
  inversion H as [|? ? Hc Hr]; subst.
  cbn [entries_from]. rewrite Hc. destruct (IH (S t) Hr) as [L M].
  cbn [length map]. rewrite L, M. split; reflexivity.
Qed.

(** X12.  [sshCommand] is one to three calls of [debug]: the command, then each
    stream that is not empty, normalized.  Unless the level is DEBUG it
    does nothing at all; at DEBUG it prints one line per call. *)
Theorem sshCommand_debug_calls ctx cmd result st :
  let cfg := globalConfig st in
  let st' := sshCommand ctx cmd result st in
  let streams :=
    match result with
    | Some (stdout, stderr) =>
        ((if Listener.truthy stdout then 1 else 0)
         + (if Listener.truthy stderr then 1 else 0))%nat
    | None => 0%nat
    end in
  st' = run_calls (ssh_calls cfg ctx cmd result) st
  /\ (level cfg <> DEBUG -> st' = st)
  /\ (level cfg = DEBUG ->
      length (console_lines st')
      = (length (console_lines st) + 1 + streams)%nat).
Proof.
  cbv zeta. rewrite sshCommand_run_calls.
  assert (A : Forall (fun c => call_level c = DEBUG)
                (ssh_calls (globalConfig st) ctx cmd result)).
  { unfold ssh_calls. constructor; trivial.
    destruct result as [[stdout stderr]|]; [|constructor].
    apply Forall_app. split.
    - destruct (Listener.truthy stdout); repeat constructor.
    - destruct (Listener.truthy stderr); repeat constructor. }
  split; [reflexivity|]. split.
  - intros N. apply run_calls_all_below.
    eapply Forall_impl; [|exact A]. intros c ->.
    unfold passes. destruct (level (globalConfig st)); trivial. now elim N.
  - intros L.
    destruct (run_calls_spec (ssh_calls (globalConfig st) ctx cmd result) st)
      as (_ & _ & C & _).
    cbv zeta in C. rewrite C, length_app, length_map.
    assert (A' : Forall (fun c => passes (globalConfig st) (call_level c)
                                  = true)
                   (ssh_calls (globalConfig st) ctx cmd result)).
    { eapply Forall_impl; [|exact A]. intros c ->.
      unfold passes. now rewrite L. }
    rewrite (proj1 (entries_from_all_pass _ _ (ticks st) A')).
    unfold ssh_calls. cbn [length].
    destruct result as [[stdout stderr]|]; [|simpl; lia].
    rewrite length_app.
    destruct (Listener.truthy stdout); destruct (Listener.truthy stderr);
      simpl; lia.
Qed.

End SshAndReplay.

Lemma run_calls_without_file_sink_witness :
  disk (@run_calls sampleHost three_calls warn_only) = disk warn_only
  /\ console (@run_calls sampleHost three_calls warn_only)
     = console warn_only
         ++ map (fun e => ConsoleLog
                            (@formatMessage sampleHost (globalConfig warn_only)
                               e))
              (@entries_from sampleHost (globalConfig warn_only)
                 (ticks warn_only) three_calls).
Proof.
  apply (@run_calls_without_file_sink sampleHost three_calls warn_only).
  left. reflexivity.
Defined.

Lemma run_calls_with_failing_file_witness :
  disk (@run_calls hostReadOnly three_calls
          (@configure hostReadOnly file_logging_on (@initial hostReadOnly tt)))
  = tt
  /\ length (console_errors
               (@run_calls hostReadOnly three_calls
                  (@configure hostReadOnly file_logging_on
                     (@initial hostReadOnly tt))))
     = (0 + length (@entries_from hostReadOnly
                      (merge defaultConfig file_logging_on) 0 three_calls))%nat
  /\ console_lines
       (@run_calls hostReadOnly three_calls
          (@configure hostReadOnly file_logging_on (@initial hostReadOnly tt)))
     = [] ++ map (@formatMessage hostReadOnly
                    (merge defaultConfig file_logging_on))
               (@entries_from hostReadOnly
                  (merge defaultConfig file_logging_on) 0 three_calls).
Proof.
  apply (@run_calls_with_failing_file hostReadOnly three_calls
           (@configure hostReadOnly file_logging_on
              (@initial hostReadOnly tt))).
  - intros path line d. eexists. reflexivity.
  - reflexivity.
  - reflexivity.
Defined.

Lemma getRecentLogs_after_log_witness :
  @getRecentLogs sampleHost 1
    (@log sampleHost (lit "Scenario") WARN (lit "disk  almost full") None
       warn_only)
  = [{| timestamp := 0;
        entry_level := WARN;
        message := lit "disk almost full";
        entry_context := lit "Scenario";
        metadata := None |}].
Proof.
  apply (@getRecentLogs_after_log sampleHost (lit "Scenario") WARN
           (lit "disk  almost full") None warn_only).
  reflexivity.
Defined.

Example failing_file_is_reported_per_call :
  @console_errors hostReadOnly
    (@run_calls hostReadOnly three_calls
       (@configure hostReadOnly file_logging_on (@initial hostReadOnly tt)))
  = [lit "Failed to write log to file: EACCES: permission denied";
     lit "Failed to write log to file: EACCES: permission denied"].
Proof. vm_compute. reflexivity. Qed.

Example sshCommand_at_debug :
  map message
    (logBuffer
       (@sshCommand sampleHost (lit "Ssh") (lit "uname -a")
          (Some (lit "Linux
", []))
          (@configure sampleHost (only_level DEBUG) (@initial sampleHost tt))))
  = [lit "SSH Command: uname -a"; lit "SSH stdout: Linux"].
Proof. vm_compute. reflexivity. Qed.

Section TestIds.
Import Listener.

Lemma split_at_first_colon p1 : forall p2 r1 r2,
  ~ In COLON p1 -> ~ In COLON p2 ->
  p1 ++ COLON :: r1 = p2 ++ COLON :: r2 -> p1 = p2 /\ r1 = r2.
Proof.
  induction p1 as [|c p IH]; intros [|d q] r1 r2 N1 N2 E; simpl in E.
  - injection E as <-. auto.
  - injection E as <- _. elim N2. now left.
  - injection E as -> _. elim N1. now left.
  - injection E as <- E.
    destruct (IH q r1 r2) as [<- <-]; auto;
      intros H; [apply N1 | apply N2]; now right.
Qed.

(** X14.  The key [suiteTitle::testTitle] is a key of the pair of titles,
    not of the test: as long as the suite titles hold no colon, two tests
    have the same key exactly when they have the same suite title and the
    same title (as the runs of one test under two projects have); with a
    colon in a suite title, different pairs of titles can share a key. *)
Theorem getTestId_separates_title_pairs :
  (forall a b,
      ~ In COLON (parent_title a) -> ~ In COLON (parent_title b) ->
      (getTestId a = getTestId b
       <-> parent_title a = parent_title b /\ test_title a = test_title b))
  /\ getTestId {| parent_title := lit "api::v1"; test_title := lit "get" |}
     = getTestId {| parent_title := lit "api"; test_title := lit "v1::get" |}.
Proof.
  split; [|reflexivity].
  intros [pa ta] [pb tb] Na Nb. unfold getTestId.
  cbn [parent_title test_title] in *. split.
  - intros E.
    change (lit "::" ++ ta) with (COLON :: COLON :: ta) in E.
    change (lit "::" ++ tb) with (COLON :: COLON :: tb) in E.
    destruct (split_at_first_colon _ _ _ _ Na Nb E) as [<- E'].
    now injection E' as <-.
  - now intros [-> ->].
Qed.

End TestIds.

Section TestContexts.
Context {host : Host}.
Import Listener.

(** X15.  [onTestBegin] stores a fresh context under the key of the test,
    whatever stood there: a test begun again loses its steps, its end
    time and its error.  No other test and no suite changes. *)
Theorem onTestBegin_starts_afresh test st :
  let st' := onTestBegin test st in
  JsMap.get (getTestId test) (executionContext st')
  = Some (fresh_context test (clock (ticks st)))
  /\ steps_of test st' = []
  /\ (forall other, other <> getTestId test ->
        JsMap.get other (executionContext st')
        = JsMap.get other (executionContext st))
  /\ suiteContext st' = suiteContext st.
Proof.
  cbv zeta. unfold onTestBegin, steps_of. cbn [new_Date]. cbv zeta.
  unfold onTestStart.
  cbn [executionContext suiteContext logger_info set_executionContext].
  rewrite get_set_same. repeat split.
  intros other N. now apply get_set_other.
Qed.

Lemma find_none_of {A} (p : A -> bool) l :
  (forall x, In x l -> p x = false) -> find p l = None.
Proof.
  induction l as [|x r IH]; intros H; trivial. simpl.
  rewrite (H x) by now left. apply IH. intros y Hy. apply H. now right.
Qed.

(** X16.  A step event that finds nothing to act on changes nothing: no clock
    reading, no log line, no step. *)
Theorem step_event_without_target test result step st :
  (JsMap.get (getTestId test) (executionContext st) = None ->
   onStepBegin test result step st = st)
  /\ ((forall s, In s (steps_of test st) ->
         open_with_title (ts_title step) s = false) ->
      onStepEnd test result step st = st).
Proof.
  split.
  - intros G. unfold onStepBegin. cbv zeta. now rewrite G.
  - unfold steps_of, onStepEnd. cbv zeta.
    destruct (JsMap.get _ (executionContext st)) as [context|]; trivial.
    intros H. now rewrite (find_none_of _ _ H).
Qed.

Lemma onStepBegin_known test result step st context :
  JsMap.get (getTestId test) (executionContext st) = Some context ->
  let st' := onStepBegin test result step st in
  JsMap.get (getTestId test) (executionContext st')
  = Some (with_steps
            (tc_steps context
               ++ [{| si_title := ts_title step;
                      si_startTime := clock (ticks st);
                      si_endTime := None; si_duration := None;
                      si_status := step_passed; si_error := None |}])
            context)
  /\ ticks st' = S (ticks st).
Proof.
  intros G. cbv zeta. unfold onStepBegin. cbv zeta. rewrite G.
  cbn [new_Date].
  cbn [executionContext ticks logger_step logger_info set_executionContext].
  now rewrite get_set_same.
Qed.

Lemma onStepEnd_known test result step st context before found after :
  JsMap.get (getTestId test) (executionContext st) = Some context ->
  tc_steps context = before ++ found :: after ->
  open_with_title (ts_title step) found = true ->
  (forall s, In s before -> open_with_title (ts_title step) s = false) ->
  steps_of test (onStepEnd test result step st)
  = before ++ end_step (clock (ticks st)) (ts_error step) found :: after.
Proof.
  intros G E F B.
  unfold onStepEnd, steps_of. cbv zeta. rewrite G, E.
  rewrite (find_first _ _ _ _ F B). cbn [new_Date].
  cbn [executionContext logger_step logger_info set_executionContext].
  rewrite get_set_same. cbn [tc_steps with_steps].
  now rewrite (update_first_first _ _ _ _ _ F B).
Qed.

(** X17.  A [stepBegin] followed at once by the [stepEnd] of the same title, in
    a test that has no other open step of that title: the step is
    recorded behind the earlier ones with its two clock readings, their
    difference as duration, and failed exactly when the end event carries
    an error. *)
Theorem step_begin_then_end test r1 r2 step1 step2 st context :
  JsMap.get (getTestId test) (executionContext st) = Some context ->
  ts_title step2 = ts_title step1 ->
  (forall s, In s (tc_steps context) ->
     open_with_title (ts_title step1) s = false) ->
  steps_of test (onStepEnd test r2 step2 (onStepBegin test r1 step1 st))
  = tc_steps context
      ++ [{| si_title := ts_title step1;
             si_startTime := clock (ticks st);
             si_endTime := Some (clock (S (ticks st)));
             si_duration := Some (clock (S (ticks st)) - clock (ticks st))%Z;
             si_status := match ts_error step2 with
                          | Some _ => step_failed
                          | None => step_passed
                          end;
             si_error := match ts_error step2 with
                         | Some e => err_message e
                         | None => None
                         end |}].
Proof.
  intros G T N.
  destruct (onStepBegin_known test r1 step1 st context G) as [G1 T1].
  cbv zeta in *.
  rewrite (onStepEnd_known test r2 step2 _ _ (tc_steps context)
             {| si_title := ts_title step1;
                si_startTime := clock (ticks st);
                si_endTime := None; si_duration := None;
                si_status := step_passed; si_error := None |} [] G1).
  - rewrite T1. reflexivity.
  - reflexivity.
  - rewrite T. unfold open_with_title. cbn. now rewrite jseqb_refl.
  - rewrite T. exact N.
Qed.

End TestContexts.

Section TestContextWitnesses.
Import Listener.

Lemma step_begin_then_end_witness :
  steps_of login_A
    (@onStepEnd sampleHost login_A passed_result fill_step
       (@onStepBegin sampleHost login_A passed_result fill_step
          login_A_begun))
  = [] ++ [{| si_title := lit "fill"; si_startTime := 30;
              si_endTime := Some 40%Z; si_duration := Some 10%Z;
              si_status := step_passed; si_error := None |}].
Proof.
  apply (@step_begin_then_end sampleHost login_A passed_result passed_result
           fill_step fill_step login_A_begun
           (@fresh_context login_A 20)).
  - vm_compute. reflexivity.
  - reflexivity.
  - intros s [].
Defined.

End TestContextWitnesses.

Section StepCounting.
Context {host : Host}.
Import Listener.

Lemma update_first_length {A} (p : A -> bool) f l :
  length (update_first p f l) = length l.
Proof.
  induction l as [|x r IH]; trivial. simpl.
  destruct (p x); simpl; congruence.
Qed.

Lemma update_first_filter {A} (p q : A -> bool) y l x0 :
  find p l = Some x0 ->
  length (filter q (update_first p (fun _ => y) l))
  = (length (filter q l) + (if q y then 1 else 0)
     - (if q x0 then 1 else 0))%nat.
Proof.
  induction l as [|x r IH]; [discriminate|]. simpl.
  destruct (p x) eqn:P.
  - intros [= ->]. simpl.
    destruct (q y), (q x0); simpl; lia.
  - intros F. simpl. specialize (IH F).
    assert (B : q x0 = true -> (0 < length (filter q r))%nat).
    { intros Q. apply find_some in F as [Hin _].
      assert (H : In x0 (filter q r)) by (apply filter_In; split; assumption).
      destruct (filter q r); [destruct H | simpl; lia]. }
    destruct (q x); simpl; rewrite IH; trivial.
    destruct (q y); destruct (q x0); try lia;
      specialize (B eq_refl); lia.
Qed.

Lemma open_with_title_end_step title now err s :
  open_with_title title (end_step now err s) = false.
Proof. unfold open_with_title, end_step. cbn. apply andb_false_r. Qed.

(** X18.  [onStepEnd] neither adds nor removes a step.  When an open step with
    the title exists, one open step fewer has that title afterwards, and
    for every other title the number of open steps is the same. *)
Theorem onStepEnd_closes_one test result step st :
  let steps := steps_of test st in
  let steps' := steps_of test (onStepEnd test result step st) in
  length steps' = length steps
  /\ open_count (ts_title step) steps'
     = Nat.pred (open_count (ts_title step) steps)
  /\ (forall title, title <> ts_title step ->
        open_count title steps' = open_count title steps).
Proof.
  cbv zeta.
  destruct (JsMap.get (getTestId test) (executionContext st))
    as [context|] eqn:G.
  2:{ assert (E : onStepEnd test result step st = st)
        by (unfold onStepEnd; cbv zeta; now rewrite G).
      rewrite E. unfold steps_of. rewrite G. repeat split. }
  assert (S0 : steps_of test st = tc_steps context)
    by (unfold steps_of; now rewrite G).
  rewrite S0.
  destruct (find (open_with_title (ts_title step)) (tc_steps context))
    as [found|] eqn:F.
  2:{ assert (E : onStepEnd test result step st = st)
        by (unfold onStepEnd; cbv zeta; now rewrite G, F).
      rewrite E, S0. repeat split.
      unfold open_count.
      assert (X : filter (open_with_title (ts_title step)) (tc_steps context)
                  = []).
      { destruct (filter _ _) as [|x r] eqn:E'; trivial.
        assert (Hx : In x (filter (open_with_title (ts_title step))
                             (tc_steps context))) by (rewrite E'; now left).
        apply filter_In in Hx as [Hx Px].
        pose proof (find_none _ _ F _ Hx). congruence. }
      now rewrite X. }
  assert (S1 : steps_of test (onStepEnd test result step st)
               = update_first (open_with_title (ts_title step))
                   (fun _ => end_step (clock (ticks st)) (ts_error step) found)
                   (tc_steps context)).
  { unfold onStepEnd, steps_of. cbv zeta. rewrite G, F. cbn [new_Date].
    cbn [executionContext logger_step logger_info set_executionContext].
    now rewrite get_set_same. }
  rewrite S1.
  pose proof (find_some _ _ F) as [Hin Hopen].
  repeat split.
  - apply update_first_length.
  - unfold open_count. rewrite (update_first_filter _ _ _ _ _ F).
    rewrite open_with_title_end_step, Hopen. lia.
  - intros title N. unfold open_count.
    rewrite (update_first_filter _ _ _ _ _ F).
    rewrite open_with_title_end_step.
    assert (X : open_with_title title found = false).
    { unfold open_with_title in *. apply andb_prop in Hopen as [Ht _].
      apply jseqb_eq in Ht. destruct (Js.eqb (si_title found) title) eqn:E;
        trivial. apply jseqb_eq in E. congruence. }
    rewrite X. lia.
Qed.

(** X19.  [onTestEnd] for a test that was begun: the end time is the clock
    reading, the duration end minus start, the status the one of the
    result; the error text is replaced only when the result carries an
    error.  The steps stay as they are, the open ones open, and no other
    test changes. *)
Theorem onTestEnd_of_a_begun_test test result st context :
  JsMap.get (getTestId test) (executionContext st) = Some context ->
  let now := clock (ticks st) in
  exists context',
    JsMap.get (getTestId test) (executionContext (onTestEnd test result st))
    = Some context'
    /\ tc_endTime context' = Some now
    /\ tc_duration context' = Some (now - tc_startTime context)%Z
    /\ tc_status context' = result_status result
    /\ tc_error context'
       = match result_error result with
         | Some e => err_message e
         | None => tc_error context
         end
    /\ tc_steps context' = tc_steps context
    /\ tc_startTime context' = tc_startTime context
    /\ (forall other, other <> getTestId test ->
          JsMap.get other (executionContext (onTestEnd test result st))
          = JsMap.get other (executionContext st)).
Proof.
  intros G now. unfold onTestEnd. cbv zeta. rewrite G. cbn [new_Date].
  destruct (result_error result) as [e|] eqn:RE;
    (match goal with |- context [onTestFinish test result ?s] =>
       rewrite (proj1 (onTestFinish_other_fields test result s)) end;
     cbn [executionContext logger_info set_executionContext];
     rewrite get_set_same; eexists; split; [reflexivity|];
     cbn [tc_endTime tc_duration tc_status tc_error tc_steps tc_startTime];
     repeat split; intros other N; now apply get_set_other).
Qed.

End StepCounting.

Section StepCountingWitnesses.
Import Listener.

Lemma onTestEnd_of_a_begun_test_witness :
  exists context',
    JsMap.get (@getTestId login_A)
      (executionContext (@onTestEnd sampleHost login_A timed_out_result
                           login_A_begun))
    = Some context'
    /\ tc_endTime context' = Some 30%Z
    /\ tc_duration context' = Some (30 - 20)%Z
    /\ tc_status context' = timedOut
    /\ tc_error context' = Some (lit "Test timeout")
    /\ tc_steps context' = []
    /\ tc_startTime context' = 20%Z
    /\ (forall other, other <> @getTestId login_A ->
          JsMap.get other
            (executionContext (@onTestEnd sampleHost login_A timed_out_result
                                 login_A_begun))
          = JsMap.get other (executionContext login_A_begun)).
Proof.
  apply (@onTestEnd_of_a_begun_test sampleHost login_A timed_out_result
           login_A_begun (@fresh_context login_A 20)).
  vm_compute. reflexivity.
Defined.

End StepCountingWitnesses.

Section SuiteCounters.
Context {host : Host}.
Import Listener.

Lemma counters_of_set k k0 v (m : JsMap.t SuiteExecutionContext) :
  counters_of k (JsMap.set k0 v m)
  = if Js.eqb k0 k then Some (counters v) else counters_of k m.
Proof.
  unfold counters_of. destruct (Js.eqb k0 k) eqn:E.
  - apply jseqb_eq in E. subst. now rewrite get_set_same.
  - apply jseqb_neq in E. rewrite get_set_other; [reflexivity|].
    congruence.
Qed.

Lemma In_set {V} k k0 (c v : V) m :
  In (k, c) (JsMap.set k0 v m) -> (k = k0 /\ c = v) \/ In (k, c) m.
Proof.
  induction m as [|[k1 v1] r IH]; simpl.
  - intros [[= <- <-]|[]]. now left.
  - destruct (Js.eqb k1 k0) eqn:E.
    + apply jseqb_eq in E. subst k1.
      intros [[= <- <-]|H]; [now left | right; now right].
    + intros [H|H]; [right; now left|].
      apply IH in H. tauto.
Qed.

Lemma onTestSuiteStart_suiteContext suite st :
  exists c,
    suiteContext (onTestSuiteStart suite st)
    = JsMap.set (or_root (suite_title suite)) c (suiteContext st)
    /\ counters c = no_tests.
Proof. unfold onTestSuiteStart. cbn. eexists. split; reflexivity. Qed.

(** What suite initialisation does to counters: a context that stands at
    zero stays at zero, and every titled suite of the tree ends at
    zero. *)
Lemma initializeSuites_zero suite : forall st,
  (forall k, counters_of k (suiteContext st) = Some no_tests ->
     counters_of k (suiteContext (initializeSuites suite st)) = Some no_tests)
  /\ (forall k, k <> [] -> In k (titles suite) ->
        counters_of k (suiteContext (initializeSuites suite st))
        = Some no_tests).
Proof.
  induction suite as [title children IH] using Suite_forall_ind.
  intros st. cbn [initializeSuites titles].
  set (st1 := if truthy title then onTestSuiteStart (mkSuite title children) st
              else st).
  assert (P1 : forall k, counters_of k (suiteContext st) = Some no_tests ->
                 counters_of k (suiteContext st1) = Some no_tests).
  { intros k H. unfold st1. destruct (truthy title); trivial.
    destruct (onTestSuiteStart_suiteContext (mkSuite title children) st)
      as (c & -> & Z).
    rewrite counters_of_set, Z. now destruct (Js.eqb _ k). }
  assert (T1 : title <> [] ->
               counters_of title (suiteContext st1) = Some no_tests).
  { intros N. unfold st1. rewrite (proj2 (truthy_nonempty title) N).
    destruct (onTestSuiteStart_suiteContext (mkSuite title children) st)
      as (c & -> & Z).
    cbn [suite_title].
    rewrite counters_of_set, Z, or_root_truthy
      by now apply truthy_nonempty.
    now rewrite jseqb_refl. }
  assert (F : forall st0,
            (forall k, counters_of k (suiteContext st0) = Some no_tests ->
               counters_of k
                 (suiteContext
                    (fold_left (fun st childSuite =>
                                  initializeSuites childSuite st)
                       children st0)) = Some no_tests)
            /\ (forall k, k <> [] -> In k (flat_map titles children) ->
                  counters_of k
                    (suiteContext
                       (fold_left (fun st childSuite =>
                                     initializeSuites childSuite st)
                          children st0)) = Some no_tests)).
  { clear st st1 P1 T1.
    induction IH as [|c r Hc _ IHr]; intros st0; cbn [fold_left flat_map].
    - split; [trivial | intros k _ []].
    - destruct (Hc st0) as [A B].
      destruct (IHr (initializeSuites c st0)) as [A' B'].
      split.
      + intros k H. apply A', A, H.
      + intros k N H. apply in_app_or in H. destruct H as [H|H].
        * apply A'. now apply B.
        * now apply B'. }
  destruct (F st1) as [A B]. split.
  - intros k H. apply A, P1, H.
  - intros k N [<-|H].
    + apply A. now apply T1.
    + now apply B.
Qed.

(** X20.  An [onBegin] that returns has given every titled suite of the
    tree a context whose counters are zero, whatever was counted before. *)
Theorem onBegin_resets_the_counters config suite st st' k :
  onBegin config suite st = Returned st' ->
  k <> [] -> In k (titles suite) ->
  counters_of k (suiteContext st') = Some no_tests.
Proof.
  onBegin_returned. intros N H.
  now apply initializeSuites_zero.
Qed.

Lemma balanced_count_test status c :
  balanced c -> balanced (count_test status c).
Proof. unfold balanced. destruct status; cbn; lia. Qed.

Lemma initializeSuites_balanced suite : forall st,
  (forall k c, In (k, c) (suiteContext st) -> balanced c) ->
  forall k c, In (k, c) (suiteContext (initializeSuites suite st)) ->
    balanced c.
Proof.
  induction suite as [title children IH] using Suite_forall_ind.
  intros st H. cbn [initializeSuites].
  set (st1 := if truthy title then onTestSuiteStart (mkSuite title children) st
              else st).
  assert (H1 : forall k c, In (k, c) (suiteContext st1) -> balanced c).
  { unfold st1. destruct (truthy title); trivial.
    intros k c Hin. unfold onTestSuiteStart in Hin. cbn in Hin.
    apply In_set in Hin. destruct Hin as [[_ ->]|Hin]; [reflexivity|].
    eapply H; eassumption. }
  clearbody st1. clear H. revert st1 H1.
  induction IH as [|c r Hc _ IHr]; intros st1 H1; cbn [fold_left].
  - exact H1.
  - apply IHr. apply Hc. exact H1.
Qed.

Lemma summarize_all_balanced l : forall st,
  (forall k c, In (k, c) (suiteContext st) -> balanced c) ->
  (forall e, In e l -> balanced (snd e)) ->
  forall k c,
    In (k, c)
      (suiteContext (fold_left (fun st entry => summarize_suite entry st) l st))
    -> balanced c.
Proof.
  induction l as [|[n0 c0] r IH]; intros st H Hl; cbn [fold_left]; trivial.
  apply IH; [|intros e He; apply Hl; now right].
  intros k c Hin.
  destruct (summarize_suite_suiteContext n0 c0 st) as (c' & E & Z).
  rewrite E in Hin. apply In_set in Hin. destruct Hin as [[_ ->]|Hin].
  - specialize (Hl (n0, c0) (or_introl eq_refl)). cbn in Hl.
    unfold balanced, counters in *. injection Z as -> -> -> ->. exact Hl.
  - eapply H; eassumption.
Qed.

Lemma onTestSuiteFinish_balanced st :
  (forall k c, In (k, c) (suiteContext st) -> balanced c) ->
  forall k c, In (k, c) (suiteContext (onTestSuiteFinish st)) -> balanced c.
Proof.
  intros H. unfold onTestSuiteFinish. cbv zeta.
  destruct (JsMap.size (suiteContext st) =? 0)%nat; trivial.
  destruct (length _ =? 0)%nat; trivial.
  apply summarize_all_balanced; trivial.
  intros [n c] He. apply filter_In in He as [He _]. cbn.
  eapply H; exact He.
Qed.

Lemma handle_balanced e st st' :
  handle e st = Returned st' ->
  (forall k c, In (k, c) (suiteContext st) -> balanced c) ->
  forall k c, In (k, c) (suiteContext st') -> balanced c.
Proof.
  destruct e; cbn [handle]; try (intros [= <-]).
  - onBegin_returned. intros H.
    now apply initializeSuites_balanced.
  - now rewrite onTestBegin_suiteContext.
  - now rewrite onStepBegin_suiteContext.
  - now rewrite onStepEnd_suiteContext.
  - rewrite onTestEnd_suiteContext, onTestFinish_suiteContext.
    destruct (JsMap.get _ (suiteContext st)) as [c0|] eqn:G; trivial.
    intros H k c Hin. apply In_set in Hin. destruct Hin as [[_ ->]|Hin].
    + apply balanced_count_test. apply (H _ _ (get_Some_In _ _ _ G)).
    + eapply H; eassumption.
  - unfold onEnd. cbn [new_Date]. cbv zeta.
    cbn [globalStartTime set_globalEndTime].
    destruct (globalStartTime st); [|discriminate].
    cbn [suiteContext logger_info set_globalEndTime].
    destruct (grandTotals (suiteContext st)) as [[[t p] f] s].
    intros [= <-] H. apply onTestSuiteFinish_balanced.
    destruct (0 <? t)%nat; exact H.
Qed.

Lemma run_balanced events : forall st st',
  run events st = Returned st' ->
  (forall k c, In (k, c) (suiteContext st) -> balanced c) ->
  forall k c, In (k, c) (suiteContext st') -> balanced c.
Proof.
  induction events as [|e r IH]; intros st st'; cbn [run].
  - now intros [= <-].
  - destruct (handle e st) as [st1|st1 err] eqn:E; [|discriminate].
    intros R H. apply (IH _ _ R). eapply handle_balanced; eassumption.
Qed.

Lemma fold_left_invariant {A B} (f : A -> B -> A) (P : A -> Prop) l :
  (forall a b, In b l -> P a -> P (f a b)) ->
  forall a, P a -> P (fold_left f l a).
Proof.
  induction l as [|x r IH]; intros H a Pa; cbn [fold_left]; trivial.
  apply IH.
  - intros a0 b Hb. apply H. now right.
  - apply H; [now left | exact Pa].
Qed.

Lemma grandTotals_balanced (m : JsMap.t SuiteExecutionContext) :
  (forall k c, In (k, c) m -> balanced c) ->
  let '(tests, p, f, s) := grandTotals m in tests = (p + f + s)%nat.
Proof.
  intros H. unfold grandTotals, JsMap.entries.
  apply (fold_left_invariant _
           (fun acc : nat * nat * nat * nat =>
              let '(tests, p, f, s) := acc in tests = (p + f + s)%nat));
    [|reflexivity].
  intros [[[t p] f] s] [k c] Hin A. cbn.
  specialize (H k c Hin). unfold balanced in H. lia.
Qed.

(** X21.  In every state that a run reaches, the total of each suite is the sum
    of its passed, failed and skipped counts, and so is the grand total
    that [onEnd] computes. *)
Theorem counters_add_up cfg events st :
  run events (create cfg) = Returned st ->
  (forall k c, In (k, c) (JsMap.entries (suiteContext st)) -> balanced c)
  /\ (let '(tests, p, f, s) := grandTotals (suiteContext st) in
      tests = (p + f + s)%nat).
Proof.
  intros R.
  assert (B : forall k c, In (k, c) (suiteContext st) -> balanced c).
  { apply (run_balanced _ _ _ R). intros k c []. }
  split; [exact B|]. now apply grandTotals_balanced.
Qed.

End SuiteCounters.

Section SummaryEffects.
Context {host : Host}.
Import Listener.

Lemma summarize_suite_get n0 c0 st :
  JsMap.get n0 (suiteContext (summarize_suite (n0, c0) st))
  = Some {| sc_suiteName := sc_suiteName c0;
            sc_startTime := sc_startTime c0;
            sc_endTime := Some (clock (ticks st));
            sc_duration := Some (clock (ticks st) - sc_startTime c0)%Z;
            sc_tests := sc_tests c0;
            sc_passed := sc_passed c0; sc_failed := sc_failed c0;
            sc_skipped := sc_skipped c0; sc_total := sc_total c0 |}
  /\ (forall k, k <> n0 ->
        JsMap.get k (suiteContext (summarize_suite (n0, c0) st))
        = JsMap.get k (suiteContext st)).
Proof.
  unfold summarize_suite. cbn [new_Date]. cbv zeta.
  destruct (0 <? _)%nat;
    cbn [suiteContext logger_info set_suiteContext];
    (split; [apply get_set_same | intros k N; now apply get_set_other]).
Qed.

Lemma summarize_all_get_other l : forall st k,
  ~ In k (map fst l) ->
  JsMap.get k
    (suiteContext (fold_left (fun st entry => summarize_suite entry st) l st))
  = JsMap.get k (suiteContext st).
Proof.
  induction l as [|[n0 c0] r IH]; intros st k N; cbn [fold_left]; trivial.
  rewrite IH by (intros H; apply N; now right).
  apply summarize_suite_get. intros ->. apply N. now left.
Qed.

Lemma summarize_all_get l : forall st k c,
  NoDup (map fst l) -> In (k, c) l ->
  exists now,
    JsMap.get k
      (suiteContext
         (fold_left (fun st entry => summarize_suite entry st) l st))
    = Some {| sc_suiteName := sc_suiteName c;
              sc_startTime := sc_startTime c;
              sc_endTime := Some now;
              sc_duration := Some (now - sc_startTime c)%Z;
              sc_tests := sc_tests c;
              sc_passed := sc_passed c; sc_failed := sc_failed c;
              sc_skipped := sc_skipped c; sc_total := sc_total c |}.
Proof.
  induction l as [|[n0 c0] r IH]; intros st k c N H; [destruct H|].
  inversion N as [|? ? Hn Nr]; subst. cbn [fold_left].
  destruct H as [[= -> ->]|H].
  - exists (clock (ticks st)).
    rewrite summarize_all_get_other by exact Hn.
    apply summarize_suite_get.
  - now apply IH.
Qed.

Lemma NoDup_map_fst_filter {V} (f : jsstring * V -> bool) (m : JsMap.t V) :
  NoDup (JsMap.keys m) -> NoDup (map fst (filter f m)).
Proof.
  unfold JsMap.keys. induction m as [|[k v] r IH]; intros N; simpl.
  - constructor.
  - inversion N as [|? ? Hn Nr]; subst.
    destruct (f (k, v)); simpl; auto.
    constructor; auto. intros H. apply Hn.
    apply in_map_iff in H as ([k' v'] & E & H). cbn in E. subst k'.
    apply filter_In in H as [H _].
    change k with (fst (k, v')). now apply in_map.
Qed.

(** X22.  The summary at the end of the run leaves every counter as it is.  A
    suite without tests is not touched at all; a suite with tests
    receives its end time and, as duration, end minus start. *)
Theorem summary_keeps_the_counters st :
  NoDup (JsMap.keys (suiteContext st)) ->
  let after := suiteContext (onTestSuiteFinish st) in
  (forall k, counters_of k after = counters_of k (suiteContext st))
  /\ (forall k c, JsMap.get k (suiteContext st) = Some c ->
        sc_total c = 0%nat -> JsMap.get k after = Some c)
  /\ (forall k c, JsMap.get k (suiteContext st) = Some c ->
        (0 < sc_total c)%nat ->
        exists c' now,
          JsMap.get k after = Some c'
          /\ sc_endTime c' = Some now
          /\ sc_duration c' = Some (now - sc_startTime c)%Z
          /\ sc_startTime c' = sc_startTime c).
Proof.
  intros N. cbv zeta.
  set (withTests := filter (fun entry => (0 <? sc_total (snd entry))%nat)
                      (JsMap.entries (suiteContext st))).
  assert (A : forall k,
            JsMap.get k (suiteContext (onTestSuiteFinish st))
            = JsMap.get k (suiteContext st)
            \/ exists c now,
                 In (k, c) withTests
                 /\ JsMap.get k (suiteContext st) = Some c
                 /\ JsMap.get k (suiteContext (onTestSuiteFinish st))
                    = Some {| sc_suiteName := sc_suiteName c;
                              sc_startTime := sc_startTime c;
                              sc_endTime := Some now;
                              sc_duration := Some (now - sc_startTime c)%Z;
                              sc_tests := sc_tests c;
                              sc_passed := sc_passed c;
                              sc_failed := sc_failed c;
                              sc_skipped := sc_skipped c;
                              sc_total := sc_total c |}).
  { intros k. unfold onTestSuiteFinish. cbv zeta. fold withTests.
    destruct (JsMap.size (suiteContext st) =? 0)%nat; [now left|].
    destruct (length withTests =? 0)%nat; [now left|].
    destruct (in_dec (list_eq_dec N.eq_dec) k (map fst withTests))
      as [Hin|Hout].
    - right. apply in_map_iff in Hin as ([k' c] & E & Hin). cbn in E.
      subst k'.
      destruct (summarize_all_get withTests
                  (logger_info bar_single None
                     (logger_info (CLIPBOARD ++ lit " Test Suite Summary:")
                        None st)) k c) as [now G]; trivial.
      { now apply NoDup_map_fst_filter. }
      exists c, now. repeat split; trivial.
      apply NoDup_keys_In_get; trivial.
      now apply filter_In in Hin as [Hin _].
    - left. now rewrite summarize_all_get_other. }
  split; [|split].
  - intros k. unfold counters_of.
    destruct (A k) as [->|(c & now & _ & G & ->)]; trivial.
    now rewrite G.
  - intros k c G Z.
    destruct (A k) as [->|(c' & now & Hin & G' & _)]; trivial.
    apply filter_In in Hin as [_ T]. cbn [snd] in T. apply Nat.ltb_lt in T.
    rewrite G in G'. injection G' as <-. lia.
  - intros k c G T.
    assert (Hin : In (k, c) withTests).
    { apply filter_In. split; [now apply get_Some_In|].
      now apply Nat.ltb_lt. }
    unfold onTestSuiteFinish. cbv zeta. fold withTests.
    assert (S0 : (JsMap.size (suiteContext st) =? 0)%nat = false).
    { apply Nat.eqb_neq. unfold JsMap.size.
      apply get_Some_In in G. destruct (suiteContext st); [destruct G|].
      simpl. lia. }
    assert (L0 : (length withTests =? 0)%nat = false).
    { apply Nat.eqb_neq. destruct withTests; [destruct Hin | simpl; lia]. }
    rewrite S0, L0.
    destruct (summarize_all_get withTests
                (logger_info bar_single None
                   (logger_info (CLIPBOARD ++ lit " Test Suite Summary:")
                      None st)) k c) as [now ->]; trivial.
    { now apply NoDup_map_fst_filter. }
    eexists. exists now. split; [reflexivity|]. repeat split.
Qed.

(** X23.  A run that has counted no test ends with a single line and changes
    nothing else. *)
Theorem summary_without_tests st :
  (forall e, In e (JsMap.entries (suiteContext st)) ->
     sc_total (snd e) = 0%nat) ->
  onTestSuiteFinish st
  = logger_info
      (CLIPBOARD ++ match suiteContext st with
                    | [] => lit " No test suites found"
                    | _ => lit " No suites with tests found"
                    end) None st.
Proof.
  intros H. unfold onTestSuiteFinish. cbv zeta.
  unfold JsMap.size, JsMap.entries in *.
  destruct (suiteContext st) as [|e r] eqn:E; [reflexivity|].
  cbn [length Nat.eqb].
  assert (F : filter (fun entry => (0 <? sc_total (snd entry))%nat) (e :: r)
              = []).
  { destruct (filter _ _) as [|x l] eqn:X; trivial.
    assert (Hx : In x (filter (fun entry => (0 <? sc_total (snd entry))%nat)
                         (e :: r))) by (rewrite X; now left).
    apply filter_In in Hx as [Hx T]. rewrite (H x Hx) in T. discriminate T. }
  rewrite F. reflexivity.
Qed.

End SummaryEffects.

Section Accounting.
Context {host : Host}.
Import Listener.

Lemma onTestSuiteFinish_counters st k :
  NoDup (JsMap.keys (suiteContext st)) ->
  counters_of k (suiteContext (onTestSuiteFinish st))
  = counters_of k (suiteContext st).
Proof.
  intros N.
  assert (A : forall l s,
            (forall n c, In (n, c) l ->
               counters_of n (suiteContext s) = Some (counters c)) ->
            counters_of k
              (suiteContext
                 (fold_left (fun st entry => summarize_suite entry st) l s))
            = counters_of k (suiteContext s)).
  { induction l as [|[n0 c0] r IH]; intros s H; cbn [fold_left]; trivial.
    assert (P : forall k',
              counters_of k' (suiteContext (summarize_suite (n0, c0) s))
              = counters_of k' (suiteContext s)).
    { intros k'.
      destruct (summarize_suite_suiteContext n0 c0 s) as (c' & -> & Z).
      rewrite counters_of_set, Z.
      destruct (Js.eqb n0 k') eqn:E; trivial.
      apply jseqb_eq in E. subst k'. symmetry. apply H. now left. }
    rewrite IH; [apply P|].
    intros n c Hin. rewrite P. apply H. now right. }
  unfold onTestSuiteFinish. cbv zeta.
  destruct (JsMap.size (suiteContext st) =? 0)%nat; trivial.
  destruct (length _ =? 0)%nat; trivial.
  rewrite A; trivial.
  intros n c Hin. apply filter_In in Hin as [Hin _].
  cbn [suiteContext logger_info]. unfold counters_of.
  now rewrite (NoDup_keys_In_get _ _ _ N Hin).
Qed.

Lemma onEnd_counters result st st' k :
  NoDup (JsMap.keys (suiteContext st)) ->
  onEnd result st = Returned st' ->
  counters_of k (suiteContext st') = counters_of k (suiteContext st).
Proof.
  intros N. unfold onEnd. cbn [new_Date]. cbv zeta.
  cbn [globalStartTime set_globalEndTime].
  destruct (globalStartTime st); [|discriminate].
  cbn [suiteContext logger_info set_globalEndTime].
  destruct (grandTotals (suiteContext st)) as [[[t p] f] s].
  intros [= <-]. rewrite onTestSuiteFinish_counters.
  - destruct (0 <? t)%nat; reflexivity.
  - destruct (0 <? t)%nat; exact N.
Qed.

Lemma handle_counters e st st' k acc :
  is_begin e = false ->
  NoDup (JsMap.keys (suiteContext st)) ->
  handle e st = Returned st' ->
  counters_of k (suiteContext st) = Some acc ->
  counters_of k (suiteContext st') = Some (tally k [e] acc).
Proof.
  intros B N. destruct e; try discriminate B; cbn [handle tally];
    try (intros [= <-]).
  - now rewrite onTestBegin_suiteContext.
  - now rewrite onStepBegin_suiteContext.
  - now rewrite onStepEnd_suiteContext.
  - rewrite onTestEnd_suiteContext, onTestFinish_suiteContext.
    intros C.
    destruct (Js.eqb (or_root (parent_title test)) k) eqn:E.
    + apply jseqb_eq in E. rewrite E.
      unfold counters_of in C.
      destruct (JsMap.get k (suiteContext st)) as [c|]; [|discriminate C].
      injection C as <-.
      rewrite counters_of_set, jseqb_refl. now rewrite counters_count_test.
    + destruct (JsMap.get (or_root (parent_title test)) (suiteContext st));
        trivial.
      now rewrite counters_of_set, E.
  - intros H C. now rewrite (onEnd_counters _ _ _ _ N H).
Qed.

Lemma tally_cons k e r acc : tally k (e :: r) acc = tally k r (tally k [e] acc).
Proof. destruct e; reflexivity. Qed.

Lemma run_counters events : forall st st' k acc,
  forallb (fun e => negb (is_begin e)) events = true ->
  NoDup (JsMap.keys (suiteContext st)) ->
  run events st = Returned st' ->
  counters_of k (suiteContext st) = Some acc ->
  counters_of k (suiteContext st') = Some (tally k events acc).
Proof.
  induction events as [|e r IH]; intros st st' k acc B N; cbn [run].
  - now intros [= <-].
  - cbn [forallb] in B. apply andb_prop in B as [Be Br].
    apply negb_true_iff in Be.
    destruct (handle e st) as [st1|st1 err] eqn:E; [|discriminate].
    intros R C. rewrite tally_cons.
    apply (IH st1); trivial.
    + eapply handle_NoDup; eassumption.
    + eapply handle_counters; eassumption.
Qed.

(** X24.  The counters of a suite are the tally of the [testEnd] events
    that are booked on its key: after an [onBegin] and any events that
    hold no second [onBegin], a titled suite of the tree stands at one
    count per [testEnd] whose suite key (the title of the test's parent,
    or 'Root Suite' when that title is empty) is the title of the suite,
    in the bucket of its status, whether or not the test was begun and
    however often it ended.  A suite that is itself titled 'Root Suite'
    therefore also counts the tests of untitled suites. *)
Theorem counters_are_the_tally_of_testEnd cfg config tree events st k :
  forallb (fun e => negb (is_begin e)) events = true ->
  run (EvBegin config tree :: events) (create cfg) = Returned st ->
  k <> [] -> In k (titles tree) ->
  counters_of k (suiteContext st) = Some (tally k events no_tests).
Proof.
  intros B R N H. cbn [run handle] in R.
  destruct (onBegin config tree (create cfg)) as [st1|st1 err] eqn:E;
    [|discriminate].
  eapply run_counters; try eassumption.
  - apply (run_NoDup [EvBegin config tree] (create cfg)); [|constructor].
    cbn [run handle]. now rewrite E.
  - revert E. onBegin_returned. now apply initializeSuites_zero.
Qed.

Lemma initializeSuites_globalStartTime suite : forall st,
  globalStartTime (initializeSuites suite st) = globalStartTime st.
Proof.
  induction suite as [title children IH] using Suite_forall_ind.
  intros st. cbn [initializeSuites].
  set (st1 := if truthy title then onTestSuiteStart (mkSuite title children) st
              else st).
  assert (E : globalStartTime st1 = globalStartTime st)
    by (unfold st1; destruct (truthy title); reflexivity).
  rewrite <- E. clearbody st1. clear E. revert st1.
  induction IH as [|c r Hc _ IHr]; intros st1; cbn [fold_left]; trivial.
  now rewrite IHr, Hc.
Qed.

Lemma onTestSuiteFinish_globalStartTime st :
  globalStartTime (onTestSuiteFinish st) = globalStartTime st.
Proof.
  unfold onTestSuiteFinish. cbv zeta.
  destruct (JsMap.size (suiteContext st) =? 0)%nat; trivial.
  destruct (length _ =? 0)%nat; trivial.
  match goal with |- globalStartTime (fold_left _ ?l ?s) = _ =>
    change (globalStartTime st) with (globalStartTime s);
    generalize s; induction l as [|[n c] r IH]; intros s0;
    cbn [fold_left]; trivial end.
  rewrite IH. unfold summarize_suite. cbn [new_Date]. cbv zeta.
  destruct (0 <? _)%nat; reflexivity.
Qed.

Lemma initializeSuites_outputDir suite : forall st,
  outputDir (initializeSuites suite st) = outputDir st.
Proof.
  induction suite as [title children IH] using Suite_forall_ind.
  intros st. cbn [initializeSuites].
  set (st1 := if truthy title then onTestSuiteStart (mkSuite title children) st
              else st).
  assert (E : outputDir st1 = outputDir st)
    by (unfold st1; destruct (truthy title); reflexivity).
  rewrite <- E. clearbody st1. clear E. revert st1.
  induction IH as [|c r Hc _ IHr]; intros st1; cbn [fold_left]; trivial.
  now rewrite IHr, Hc.
Qed.

Lemma onTestSuiteFinish_outputDir st :
  outputDir (onTestSuiteFinish st) = outputDir st.
Proof.
  unfold onTestSuiteFinish. cbv zeta.
  destruct (JsMap.size (suiteContext st) =? 0)%nat; trivial.
  destruct (length _ =? 0)%nat; trivial.
  match goal with |- outputDir (fold_left _ ?l ?s) = _ =>
    change (outputDir st) with (outputDir s);
    generalize s; induction l as [|[n c] r IH]; intros s0;
    cbn [fold_left]; trivial end.
  rewrite IH. unfold summarize_suite. cbn [new_Date]. cbv zeta.
  destruct (0 <? _)%nat; reflexivity.
Qed.

(** [onBegin] throws exactly when the directory is missing and cannot be
    made; the start time is set by then and nothing else has happened. *)
Lemma onBegin_Threw config suite st st' err :
  onBegin config suite st = Threw st' err
  <-> existsSync (outputDir st) (S (ticks st)) = false
      /\ mkdirSync (outputDir st) (S (ticks st)) = Some err
      /\ st' = set_globalStartTime (Some (clock (ticks st)))
                 (snd (new_Date st)).
Proof.
  unfold onBegin, ensureOutputDirectory. cbn [new_Date snd].
  cbn [outputDir ticks set_globalStartTime].
  destruct (existsSync _ _); [|destruct (mkdirSync _ _)];
    split; try discriminate; try (now intros (? & ? & ?)).
  - intros [= <- <-]. now repeat split.
  - now intros (_ & [= <-] & ->).
Qed.

(** The output directory can be ensured at every moment: it is there, or
    [mkdirSync] makes it. *)
Lemma handle_started e st :
  (forall n, existsSync (outputDir st) n = true
             \/ mkdirSync (outputDir st) n = None) ->
  globalStartTime st <> None \/ is_begin e = true ->
  exists st',
    handle e st = Returned st'
    /\ globalStartTime st' <> None
    /\ outputDir st' = outputDir st.
Proof.
  intros D S. destruct e; cbn [handle is_begin] in *;
    try (destruct S as [S|S]; [|discriminate S]);
    try (eexists; split; [reflexivity|]).
  - clear S. unfold onBegin, ensureOutputDirectory. cbn [new_Date].
    cbn [outputDir ticks set_globalStartTime].
    assert (X : forall s0 : State,
               globalStartTime s0 = Some (clock (ticks st)) ->
               outputDir s0 = outputDir st ->
               exists st', Returned (initializeSuites suite s0) = Returned st'
                           /\ globalStartTime st' <> None
                           /\ outputDir st' = outputDir st).
    { intros s0 G O. eexists. split; [reflexivity|].
      rewrite initializeSuites_globalStartTime, initializeSuites_outputDir.
      split; [congruence|exact O]. }
    destruct (D (S (ticks st))) as [-> | M].
    + now apply X.
    + destruct (existsSync _ _); [now apply X|]. rewrite M. now apply X.
  - split; [exact S|reflexivity].
  - unfold onStepBegin. cbv zeta.
    destruct (JsMap.get _ (executionContext st)); split; trivial.
  - unfold onStepEnd. cbv zeta.
    destruct (JsMap.get _ (executionContext st)) as [context|];
      [|split; trivial].
    destruct (find _ (tc_steps context)); split; trivial.
  - unfold onTestEnd, onTestFinish. cbv zeta.
    destruct (JsMap.get _ (executionContext st)); cbn [new_Date];
      [destruct (result_error result)|];
      match goal with |- context [JsMap.get ?k (suiteContext ?s)] =>
        destruct (JsMap.get k (suiteContext s)) end; split; trivial.
  - unfold onEnd. cbn [new_Date]. cbv zeta.
    cbn [globalStartTime set_globalEndTime].
    destruct (globalStartTime st) as [start|] eqn:G; [|now elim S].
    cbn [suiteContext logger_info set_globalEndTime].
    destruct (grandTotals (suiteContext st)) as [[[t p] f] s].
    eexists. split; [reflexivity|].
    rewrite onTestSuiteFinish_globalStartTime, onTestSuiteFinish_outputDir.
    destruct (0 <? t)%nat; split; trivial; intros X; cbn in X; congruence.
Qed.

Lemma run_started events : forall st,
  (forall n, existsSync (outputDir st) n = true
             \/ mkdirSync (outputDir st) n = None) ->
  globalStartTime st <> None ->
  exists st', run events st = Returned st'.
Proof.
  induction events as [|e r IH]; intros st D S; cbn [run].
  - eexists. reflexivity.
  - destruct (handle_started e st D (or_introl S)) as (s' & -> & S' & O).
    apply IH; trivial. now rewrite O.
Qed.

(** X25.  Where the handlers throw.  [onEnd] throws when [onBegin] has
    never been entered, right after it has recorded the end time.
    [onBegin] throws exactly when the output directory is missing and
    [mkdirSync] throws: the start time is recorded by then, no line is
    logged and no suite initialised.  In a run that starts with [onBegin]
    and finds the output directory, or can make it, whenever it looks,
    every handler returns. *)
Theorem handlers_throw_in_onBegin_and_onEnd :
  (forall result st,
      globalStartTime st = None ->
      exists st' err,
        onEnd result st = Threw st' err
        /\ globalEndTime st' = Some (clock (ticks st))
        /\ logged st' = logged st
        /\ suiteContext st' = suiteContext st)
  /\ (forall config suite st st' err,
        onBegin config suite st = Threw st' err
        <-> existsSync (outputDir st) (S (ticks st)) = false
            /\ mkdirSync (outputDir st) (S (ticks st)) = Some err
            /\ st' = set_globalStartTime (Some (clock (ticks st)))
                       (snd (new_Date st)))
  /\ (forall cfg config tree events,
        (forall n, existsSync (cfg_outputDir cfg) n = true
                   \/ mkdirSync (cfg_outputDir cfg) n = None) ->
        exists st, run (EvBegin config tree :: events) (create cfg)
                   = Returned st).
Proof.
  split; [|split].
  - intros result st G. unfold onEnd. cbn [new_Date]. cbv zeta.
    cbn [globalStartTime set_globalEndTime]. rewrite G.
    eexists. eexists. split; [reflexivity|]. repeat split.
  - intros config suite st st' err. apply onBegin_Threw.
  - intros cfg config tree events D. cbn [run].
    destruct (handle_started (EvBegin config tree) (create cfg) D
                (or_intror eq_refl)) as (s' & -> & S' & O).
    apply run_started; trivial. now rewrite O.
Qed.

End Accounting.

Section AccountingWitnesses.
Import Listener.

Lemma onBegin_resets_the_counters_witness :
  counters_of (lit "Login")
    (suiteContext
       (state_of
          (@onBegin sampleHost one_project login_tree
             (@onTestEnd sampleHost login_A passed_result login_A_begun))))
  = Some no_tests.
Proof.
  apply (@onBegin_resets_the_counters sampleHost one_project login_tree
           (@onTestEnd sampleHost login_A passed_result login_A_begun)).
  - vm_compute. reflexivity.
  - discriminate.
  - vm_compute. tauto.
Defined.

Lemma handlers_throw_in_onBegin_and_onEnd_witness :
  @onBegin hostWithoutDirectory one_project login_tree
    (create defaultListenerConfig)
  = Threw
      {| config := defaultListenerConfig;
         outputDir := lit "./test-results";
         executionContext := [];
         suiteContext := [];
         globalStartTime := Some 0%Z;
         globalEndTime := None;
         ticks := 1;
         logged := [] |}
      (lit "ENOTDIR: not a directory, mkdir './test-results'")
  /\ exists st,
       @run sampleHost
         [EvBegin one_project login_tree; EvTestEnd login_A failed_result;
          EvEnd run_failed]
         (create defaultListenerConfig)
       = Returned st.
Proof.
  split.
  - apply (proj1 (proj2 (@handlers_throw_in_onBegin_and_onEnd
                           hostWithoutDirectory))).
    vm_compute. repeat split.
  - apply (proj2 (proj2 (@handlers_throw_in_onBegin_and_onEnd sampleHost))).
    intros n. left. reflexivity.
Defined.

Lemma counters_are_the_tally_of_testEnd_witness :
  counters_of (lit "Login")
    (suiteContext
       (match @run sampleHost (EvBegin one_project login_tree :: login_run)
                (create defaultListenerConfig) with
        | Returned st => st
        | Threw st _ => st
        end))
  = Some (tally (lit "Login") login_run no_tests).
Proof.
  apply (@counters_are_the_tally_of_testEnd sampleHost defaultListenerConfig
           one_project login_tree login_run).
  - vm_compute. reflexivity.
  - vm_compute. reflexivity.
  - discriminate.
  - vm_compute. tauto.
Defined.

Example login_run_counters :
  tally (lit "Login") login_run no_tests = (3, 1, 2, 0)%nat.
Proof. vm_compute. reflexivity. Qed.

Lemma counters_add_up_witness :
  (forall k c,
     In (k, c)
       (JsMap.entries
          (suiteContext
             (@onTestEnd sampleHost login_A timed_out_result login_A_begun)))
     -> balanced c)
  /\ (let '(tests, p, f, s) :=
        grandTotals
          (suiteContext
             (@onTestEnd sampleHost login_A timed_out_result login_A_begun))
      in tests = (p + f + s)%nat).
Proof.
  apply (@counters_add_up sampleHost defaultListenerConfig
           [EvBegin one_project login_tree; EvTestBegin login_A;
            EvTestEnd login_A timed_out_result]).
  vm_compute. reflexivity.
Defined.

Lemma summary_keeps_the_counters_witness :
  (forall k,
     counters_of k (suiteContext (@onTestSuiteFinish sampleHost summary_sample))
     = counters_of k (suiteContext summary_sample))
  /\ (forall k c, JsMap.get k (suiteContext summary_sample) = Some c ->
        sc_total c = 0%nat ->
        JsMap.get k (suiteContext (@onTestSuiteFinish sampleHost summary_sample))
        = Some c)
  /\ (forall k c, JsMap.get k (suiteContext summary_sample) = Some c ->
        (0 < sc_total c)%nat ->
        exists c' now,
          JsMap.get k
            (suiteContext (@onTestSuiteFinish sampleHost summary_sample))
          = Some c'
          /\ sc_endTime c' = Some now
          /\ sc_duration c' = Some (now - sc_startTime c)%Z
          /\ sc_startTime c' = sc_startTime c).
Proof.
  apply (@summary_keeps_the_counters sampleHost summary_sample).
  vm_compute. constructor.
  - intros [H|[]]. discriminate H.
  - constructor; [intros [] | constructor].
Defined.

Lemma summary_without_tests_witness :
  @onTestSuiteFinish sampleHost
    (state_of (@onBegin sampleHost one_project login_tree
       (create defaultListenerConfig)))
  = logger_info (CLIPBOARD ++ lit " No suites with tests found") None
      (state_of (@onBegin sampleHost one_project login_tree
         (create defaultListenerConfig))).
Proof.
  apply (@summary_without_tests sampleHost
           (state_of (@onBegin sampleHost one_project login_tree
              (create defaultListenerConfig)))).
  vm_compute. intros e [<-|[]]. reflexivity.
Defined.

End AccountingWitnesses.

Section SingleLines.
Context {host : Host}.

Lemma tidy_no_LF s : tidy s = true -> ~ In LF s.
Proof.
  intros T H. apply tidy_only_plain_spaces in T.
  unfold only_plain_spaces in T. rewrite Forall_forall in T.
  specialize (T _ H eq_refl). discriminate T.
Qed.

Lemma context_tag_no_LF e :
  ~ In LF (entry_context e) -> ~ In LF (context_tag e).
Proof.
  unfold context_tag. destruct (entry_context e) as [|c r] eqn:E.
  - intros _ [].
  - intros N H. rewrite !in_app_iff in H. simpl in H, N.
    intuition discriminate.
Qed.

Lemma fixed_texts_no_LF cfg l :
  ~ In LF (getColorCode cfg l) /\ ~ In LF (getResetCode cfg)
  /\ ~ In LF (getLevelIcon l) /\ ~ In LF (getLevelName l).
Proof.
  unfold getColorCode, getResetCode.
  destruct (enableColors cfg), l; cbn; intuition discriminate.
Qed.

(** X26.  A call whose context holds no line feed prints one line and appends
    one line to the file: the message is normalized, the level texts are
    fixed, and the only line feed is the one that ends the file line.
    (The context is not normalized: its line feeds would pass.) *)
Theorem log_lines_hold_one_line cfg t c :
  ~ In LF (call_context c) ->
  ~ In LF (toISOString (clock t)) ->
  ~ In LF (formatMessage cfg (entry_of cfg t c))
  /\ exists body, fileLine (entry_of cfg t c) = body ++ [LF]
                  /\ ~ In LF body.
Proof.
  intros Nc Nt.
  set (e := entry_of cfg t c).
  assert (Nm : ~ In LF (message e))
    by (apply tidy_no_LF, normalizeMessage_shape).
  assert (Ng : ~ In LF (context_tag e)) by now apply context_tag_no_LF.
  destruct (fixed_texts_no_LF cfg (entry_level e)) as (C1 & C2 & C3 & C4).
  split.
  - unfold formatMessage. cbv zeta. rewrite !in_app_iff.
    intros [H|[H|[H|[H|[H|H]]]]]; try tauto.
    destruct (enableTimestamps cfg); [|destruct H].
    rewrite !in_app_iff in H. simpl in H.
    intuition discriminate.
  - unfold fileLine.
    exists (toISOString (timestamp e) ++ lit " "
              ++ getLevelName (entry_level e) ++ lit " "
              ++ context_tag e ++ message e).
    split; [now rewrite <- !app_assoc|].
    rewrite !in_app_iff. simpl.
    intuition discriminate.
Qed.

(** X27.  A sequence of calls under one configuration: every call that passes
    the threshold prints its formatted line, in the order of the calls,
    and the buffer ends up as the last 1000 of what it held followed by
    the new entries; the other calls leave no trace. *)
Theorem log_calls_in_sequence cs st :
  let cfg := globalConfig st in
  let es := entries_from cfg (ticks st) cs in
  globalConfig (run_calls cs st) = cfg
  /\ ticks (run_calls cs st) = (ticks st + length es)%nat
  /\ console_lines (run_calls cs st)
     = console_lines st ++ map (formatMessage cfg) es
  /\ ((length (logBuffer st) <= 1000)%nat ->
      logBuffer (run_calls cs st) = lastn 1000 (logBuffer st ++ es)).
Proof. exact (run_calls_spec cs st). Qed.

End SingleLines.

Lemma log_lines_hold_one_line_witness :
  ~ In LF (@formatMessage sampleHost defaultConfig
             (@entry_of sampleHost defaultConfig 0
                {| call_context := lit "Db"; call_level := WARN;
                   call_msg := lit "slow
query"; call_meta := None |}))
  /\ exists body,
       @fileLine sampleHost
         (@entry_of sampleHost defaultConfig 0
            {| call_context := lit "Db"; call_level := WARN;
               call_msg := lit "slow
query"; call_meta := None |})
       = body ++ [LF]
       /\ ~ In LF body.
Proof.
  apply (@log_lines_hold_one_line sampleHost defaultConfig 0
           {| call_context := lit "Db"; call_level := WARN;
              call_msg := lit "slow
query"; call_meta := None |}).
  - vm_compute. intuition discriminate.
  - vm_compute. intuition discriminate.
Defined.

Section StepReport.
Context {host : Host}.
Import Listener.

(** X28.  The line that [onStepEnd] logs for the step it closes: the failure
    mark and "failed" when the event carries an error, the check mark and
    "completed" otherwise, then the title, then the duration, which is
    left out when it is 0.  A step that ends in the millisecond in which
    it began is reported without a duration. *)
Theorem onStepEnd_reports_the_step test result step st context found :
  JsMap.get (getTestId test) (executionContext st) = Some context ->
  find (open_with_title (ts_title step)) (tc_steps context) = Some found ->
  let d := (clock (ticks st) - si_startTime found)%Z in
  let mark :=
    match ts_error step with
    | Some _ => [0x274C] ++ lit " Step failed: "
    | None => [0x2705] ++ lit " Step completed: "
    end in
  logged (onStepEnd test result step st)
  = logged st
      ++ [{| call_message :=
               mark ++ ts_title step
                 ++ (if (d =? 0)%Z then []
                     else lit " (" ++ of_Z d ++ lit "ms)");
             call_metadata := None |}].
Proof.
  intros G F d mark. unfold onStepEnd. cbv zeta. rewrite G, F.
  cbn [new_Date].
  cbn [logger_step logger_info set_executionContext logged
       end_step si_status si_duration].
  unfold mark, d.
  destruct (ts_error step); cbn [Logger.step_message Logger.stepStatus_text];
    cbv zeta; rewrite <- ?app_assoc; reflexivity.
Qed.

End StepReport.

Lemma onStepEnd_reports_the_step_witness :
  Listener.logged
    (@Listener.onStepEnd hostWithCoarseClock login_A passed_result fill_step
       fill_begun_at_once)
  = Listener.logged fill_begun_at_once
      ++ [{| Listener.call_message :=
               ([0x2705] ++ lit " Step completed: ") ++ lit "fill" ++ [];
             Listener.call_metadata := None |}].
Proof.
  apply (@onStepEnd_reports_the_step hostWithCoarseClock login_A
           passed_result fill_step fill_begun_at_once
           (Listener.with_steps
              [{| Listener.si_title := lit "fill";
                  Listener.si_startTime := 1000;
                  Listener.si_endTime := None;
                  Listener.si_duration := None;
                  Listener.si_status := Listener.step_passed;
                  Listener.si_error := None |}]
              (@fresh_context login_A 1000))
           {| Listener.si_title := lit "fill";
              Listener.si_startTime := 1000;
              Listener.si_endTime := None;
              Listener.si_duration := None;
              Listener.si_status := Listener.step_passed;
              Listener.si_error := None |}).
  - vm_compute. reflexivity.
  - vm_compute. reflexivity.
Defined.

Section Idempotence.

Lemma squeezed_shape s :
  tidy (squeezed s) = true
  /\ head_not_ws (squeezed s) = true
  /\ head_not_ws (rev (squeezed s)) = true.
Proof. apply trim_collapse_shape. Qed.

Lemma firstn_S_snoc {A} (d : A) k : forall l,
  (k < length l)%nat -> firstn (S k) l = firstn k l ++ [nth k l d].
Proof.
  induction k as [|k IH]; intros [|x l] L; simpl in L; try lia; trivial.
  cbn [firstn nth app]. rewrite <- (IH l) by lia. reflexivity.
Qed.

Lemma no_final_space_of_last_not_ws t r :
  head_not_ws (rev t) = true -> t <> r ++ [SP].
Proof.
  intros H ->. rewrite rev_app_distr in H. discriminate H.
Qed.

(** The class of inputs seen from the output: the first result ends in a
    space. *)
Lemma cut_at_space_iff cfg s :
  cut_at_space cfg s = true
  <-> exists r, normalizeMessage cfg s = r ++ [SP].
Proof.
  rewrite normalizeMessage_squeezed. unfold cut_at_space, substring0.
  destruct (squeezed_shape s) as (_ & _ & Last).
  set (t := squeezed s) in *. set (m := maxLineLength cfg).
  split.
  - intros H. apply andb_prop in H as [P E].
    apply Z.ltb_lt in P. apply N.eqb_eq in E.
    assert (L : (Z.to_nat (m - 1) < length t)%nat).
    { destruct (Nat.lt_ge_cases (Z.to_nat (m - 1)) (length t)); trivial.
      rewrite nth_overflow in E by trivial. discriminate E. }
    exists (firstn (Z.to_nat (m - 1)) t).
    replace (Z.to_nat m) with (S (Z.to_nat (m - 1))) by lia.
    rewrite (firstn_S_snoc 0) by trivial. do 2 f_equal. exact E.
  - intros [r E].
    assert (P : (0 < Z.to_nat m)%nat).
    { destruct (Z.to_nat m); [destruct r; discriminate E | lia]. }
    assert (L : (Z.to_nat m < length t)%nat).
    { destruct (Nat.lt_ge_cases (Z.to_nat m) (length t)); trivial.
      rewrite firstn_all2 in E by trivial.
      elim (no_final_space_of_last_not_ws t r Last E). }
    assert (Lr : length r = Z.to_nat (m - 1)).
    { apply (f_equal (@length _)) in E.
      rewrite length_firstn, length_app in E. simpl in E. lia. }
    apply andb_true_intro. split; [apply Z.ltb_lt; lia|].
    apply N.eqb_eq.
    assert (X : nth (Z.to_nat (m - 1)) (firstn (Z.to_nat m) t) 0
                = nth (Z.to_nat (m - 1)) t 0).
    { rewrite nth_firstn.
      destruct (Nat.ltb_spec (Z.to_nat (m - 1)) (Z.to_nat m)); [trivial|lia]. }
    rewrite <- X, E, app_nth2 by lia.
    now rewrite Lr, Nat.sub_diag.
Qed.

Lemma cut_at_space_false_iff cfg s :
  cut_at_space cfg s = false
  <-> forall r, normalizeMessage cfg s <> r ++ [SP].
Proof.
  split.
  - intros F r E.
    assert (T : cut_at_space cfg s = true)
      by (apply cut_at_space_iff; now exists r).
    congruence.
  - intros N. destruct (cut_at_space cfg s) eqn:C; trivial.
    apply cut_at_space_iff in C as [r E]. elim (N r E).
Qed.

Lemma fits_not_cut_at_space cfg s :
  (Z.of_nat (length (squeezed s)) <= maxLineLength cfg)%Z ->
  cut_at_space cfg s = false.
Proof.
  intros L. apply cut_at_space_false_iff. intros r.
  rewrite normalizeMessage_squeezed. unfold substring0.
  rewrite firstn_all2 by lia.
  apply no_final_space_of_last_not_ws, squeezed_shape.
Qed.

(** C2 (amended).  [normalizeMessage] applied to its own output returns
    that output unchanged for every message but those that the truncation
    cuts right behind a space: the final [substring(0, maxLineLength)]
    comes after the last [trim], so such a message keeps one trailing
    space, and the second application returns the first result without
    it.  A message that is no longer than [maxLineLength], before or after
    its white space is normalized, is not truncated and is not of that
    kind. *)
Theorem normalizeMessage_idempotent_unless_cut_at_space cfg s :
  let once := normalizeMessage cfg s in
  let twice := normalizeMessage cfg once in
  (twice = once <-> cut_at_space cfg s = false)
  /\ (cut_at_space cfg s = true <-> once = twice ++ [SP])
  /\ (cut_at_space cfg s = true <-> exists r, once = r ++ [SP])
  /\ ((Z.of_nat (length (squeezed s)) <= maxLineLength cfg)%Z ->
      twice = once)
  /\ ((Z.of_nat (length s) <= maxLineLength cfg)%Z -> twice = once).
Proof.
  cbv zeta.
  assert (I : cut_at_space cfg s = false ->
              normalizeMessage cfg (normalizeMessage cfg s)
              = normalizeMessage cfg s).
  { intros F. apply normalizeMessage_idempotent_if_no_final_space.
    now apply cut_at_space_false_iff. }
  assert (C : cut_at_space cfg s = true ->
              normalizeMessage cfg s
              = normalizeMessage cfg (normalizeMessage cfg s) ++ [SP]).
  { intros T. apply cut_at_space_iff in T as [r E].
    now rewrite (normalizeMessage_strips_final_space _ _ _ E). }
  repeat split.
  - intros E. destruct (cut_at_space cfg s); trivial.
    specialize (C eq_refl). rewrite E in C.
    apply (f_equal (@length _)) in C. rewrite length_app in C.
    simpl in C. lia.
  - exact I.
  - exact C.
  - intros E. apply cut_at_space_iff. eexists. exact E.
  - apply cut_at_space_iff.
  - apply cut_at_space_iff.
  - intros L. apply I. now apply fits_not_cut_at_space.
  - intros L. apply I, fits_not_cut_at_space.
    pose proof (proj2 (squeezed_facts s)). lia.
Qed.

End Idempotence.

Section ControlCharacters.



End ControlCharacters.

Lemma normalizeMessage_idempotent_witness :
  normalizeMessage defaultConfig
    (normalizeMessage defaultConfig (lit "  step   one
 done "))
  = normalizeMessage defaultConfig (lit "  step   one
 done ")
  /\ cut_at_space defaultConfig long_line = true
  /\ normalizeMessage defaultConfig long_line
     = normalizeMessage defaultConfig
         (normalizeMessage defaultConfig long_line) ++ [SP].
Proof.
  split; [|split].
  - apply (proj2 (proj2 (proj2 (proj2
             (normalizeMessage_idempotent_unless_cut_at_space defaultConfig
                (lit "  step   one
 done ")))))).
    vm_compute. discriminate.
  - vm_compute. reflexivity.
  - apply (proj1 (proj1 (proj2
             (normalizeMessage_idempotent_unless_cut_at_space defaultConfig
                long_line)))).
    vm_compute. reflexivity.
Defined.

Section SummaryReport.
Context {host : Host}.
Import Listener.

Lemma warnings_of_block name c duration :
  filter is_warning (suite_block name c duration)
  = if (0 <? sc_failed c)%nat then [failure_warning (sc_failed c)] else [].
Proof.
  unfold suite_block. destruct (0 <? sc_failed c)%nat; reflexivity.
Qed.

Lemma warnings_of_blocks l : forall t,
  filter is_warning (summary_blocks t l)
  = map (fun entry => failure_warning (sc_failed (snd entry)))
      (with_failures l).
Proof.
  induction l as [|[name c] r IH]; intros t; trivial.
  cbn [summary_blocks with_failures filter snd].
  rewrite filter_app, warnings_of_block, IH.
  destruct (0 <? sc_failed c)%nat; reflexivity.
Qed.

Lemma onTestSuiteFinish_logged st :
  logged (onTestSuiteFinish st)
  = logged st ++ summary_of (ticks st) (JsMap.entries (suiteContext st)).
Proof.
  unfold onTestSuiteFinish, summary_of, JsMap.size, JsMap.entries, with_tests.
  cbv zeta.
  destruct (suiteContext st) as [|e m] eqn:M; [reflexivity|].
  cbn [length Nat.eqb].
  destruct (filter _ (e :: m)) as [|e' shown] eqn:F; [reflexivity|].
  cbn [length Nat.eqb]. rewrite summarize_all_logged.
  cbn [logged ticks logger_info]. rewrite <- !app_assoc. reflexivity.
Qed.

(** C8.  The summary that [onTestSuiteFinish] logs at the end of a run is
    the heading and the blocks of the suites whose total is positive, in
    the order of the map, and nothing else.  So it has no 'Suite
    completed' line for a suite whose total is 0, it has the block of
    every suite whose total is positive, and its warning lines are, one
    for one and in order, those of the suites shown whose failed count is
    positive, each with that count: the block of a suite holds the
    warning exactly when the suite has failures. *)
Theorem suite_summary_reports_suites_with_tests st :
  NoDup (JsMap.keys (suiteContext st)) ->
  let suites := JsMap.entries (suiteContext st) in
  exists out,
    logged (onTestSuiteFinish st) = logged st ++ out
    /\ out = summary_of (ticks st) suites
    /\ (forall name c,
          In (name, c) suites ->
          sc_total c = 0%nat ->
          forall call, In call out ->
            call_message call <> call_message (completed_line name))
    /\ (forall name c,
          In (name, c) suites ->
          (0 < sc_total c)%nat ->
          exists pre duration post,
            out = pre ++ suite_block name c duration ++ post)
    /\ filter is_warning out
       = map (fun entry => failure_warning (sc_failed (snd entry)))
           (with_failures (with_tests suites)).
Proof.
  intros N suites. exists (summary_of (ticks st) suites).
  split; [apply onTestSuiteFinish_logged|]. split; [reflexivity|].
  assert (Shown : forall name c,
            In (name, c) suites -> (0 < sc_total c)%nat ->
            In (name, c) (with_tests suites)).
  { intros name c H T. apply filter_In. split; trivial.
    now apply Nat.ltb_lt. }
  unfold summary_of.
  destruct suites as [|e m] eqn:S.
  { repeat split; intros ? ? []. }
  rewrite <- S in *.
  destruct (with_tests suites) as [|e' shown] eqn:F.
  { repeat split.
    - intros name c _ _ call [<-|[]]. cbn. discriminate.
    - intros name c H T. destruct (Shown _ _ H T). }
  rewrite <- F in *. clear F.
  split; [|split].
  - intros name c H T call [<-|[<-|Hc]] E; try (cbn in E; discriminate E).
    destruct (summary_blocks_completed _ _ _ _ Hc E) as (c' & H').
    apply filter_In in H' as [H' T']. cbn [snd] in T'.
    apply Nat.ltb_lt in T'.
    assert (c' = c).
    { apply (NoDup_keys_In_get _ _ _ N) in H.
      apply (NoDup_keys_In_get _ _ _ N) in H'. congruence. }
    subst c'. lia.
  - intros name c H T.
    destruct (summary_blocks_block (with_tests suites) (ticks st) name c
                (Shown _ _ H T)) as (pre & d & post & E).
    eexists (_ :: _ :: pre), d, post.
    rewrite E. reflexivity.
  - cbn [filter app]. change (is_warning (info_call ?m)) with false.
    cbv iota. apply warnings_of_blocks.
Qed.

End SummaryReport.

Section SummaryReportWitness.
Import Listener.

Lemma suite_summary_reports_suites_with_tests_witness :
  exists out,
    logged (@onTestSuiteFinish sampleHost summary_sample)
    = logged summary_sample ++ out
    /\ out = @summary_of sampleHost (ticks summary_sample)
               (JsMap.entries (suiteContext summary_sample))
    /\ (forall name c,
          In (name, c) (JsMap.entries (suiteContext summary_sample)) ->
          sc_total c = 0%nat ->
          forall call, In call out ->
            call_message call <> call_message (completed_line name))
    /\ (forall name c,
          In (name, c) (JsMap.entries (suiteContext summary_sample)) ->
          (0 < sc_total c)%nat ->
          exists pre duration post,
            out = pre ++ suite_block name c duration ++ post)
    /\ filter is_warning out
       = map (fun entry => failure_warning (sc_failed (snd entry)))
           (with_failures
              (with_tests (JsMap.entries (suiteContext summary_sample)))).
Proof.
  apply (@suite_summary_reports_suites_with_tests sampleHost summary_sample).
  vm_compute. constructor.
  - intros [H|[]]. discriminate H.
  - constructor; [intros [] | constructor].
Defined.

(** The summary of the sample in full, and its warning. *)
Example summary_of_the_sample_in_full :
  @summary_of sampleHost 0 (JsMap.entries (suiteContext summary_sample))
  = [info_call ([0xD83D; 0xDCCB] ++ lit " Test Suite Summary:");
     info_call (repeat 0x2500 63);
     info_call ([0xD83D; 0xDCCB] ++ lit " Suite completed: Login");
     info_call
       ([0xD83D; 0xDCCA]
          ++ lit " Total: 2, Passed: 1, Failed: 1, Skipped: 0, Duration: 0ms");
     {| call_message := [0x274C] ++ lit " Suite had 1 failed test(s)";
        call_metadata := Some (MetaString (lit "warn")) |};
     info_call []].
Proof. vm_compute. reflexivity. Qed.

End SummaryReportWitness.
